(** * Phase-phase coupling (PPC) of pybispectra: kernel and [PPC.compute]

    Shallow embedding of [src/pybispectra/cfc/ppc.py].

    - The module-level kernel [_compute_ppc] is decorated with [@njit]
      without options.  Numba then compiles it under its default error
      model ([error_model='python']): a scalar true division whose divisor
      compares equal to zero raises [ZeroDivisionError] instead of yielding
      inf or nan.  The two scalar divisions of the kernel, [f2 / f1] and
      [numerator / denominator], and the division by the array size inside
      [.mean()], are modelled that way ([scalar_div]).
    - NumPy arithmetic on [float64] and [complex128] is an interface
      ([Arith]): the kernel and the class are written once against it.  The
      instance [exact_arith] interprets it in exact real arithmetic extended
      with a NaN (no rounding, no overflow).
    - Python exceptions are values of [exn]; code that may raise lives in the
      [result] monad, methods of the [PPC] object in the state-and-error
      monad [Py], where a raised exception keeps the mutations made so far. *)

From Stdlib Require Import Reals Lra Lia ZArith.
From stdpp Require Import base option list strings.

Set Default Proof Using "Type".

(** ** Exceptions and results *)

Inductive exn : Set :=
  | ValueError          (* validation of [indices], [f1], [f2] *)
  | NotFoundError       (* [fast_find_first]: no exact match *)
  | IndexError          (* subscript out of range *)
  | TypeError           (* an attribute still [None] used as an array *)
  | ZeroDivisionError.  (* scalar division by zero under [@njit] *)

Inductive result (A : Type) : Type :=
  | Ok (a : A)
  | Raise (e : exn).
Arguments Ok {A} a.
Arguments Raise {A} e.

#[global] Instance result_ret : MRet result := λ A a, Ok a.
#[global] Instance result_bind : MBind result := λ A B f m,
  match m with
  | Ok a => f a
  | Raise e => Raise e
  end.

Definition of_option {A} (o : option A) (e : exn) : result A :=
  match o with
  | Some a => Ok a
  | None => Raise e
  end.

(** [for i, x in enumerate(xs): s = body(i, x, s)], started at index [i]. *)
Fixpoint for_enumerate {A St : Type} (body : nat → A → St → result St)
    (i : nat) (xs : list A) (s : St) : result St :=
  match xs with
  | [] => Ok s
  | x :: xs' => s' ← body i x s; for_enumerate body (S i) xs' s'
  end.

(** [[f(x) for x in xs]]: the first exception aborts the comprehension. *)
Fixpoint map_result {A B : Type} (f : A → result B) (xs : list A)
    : result (list B) :=
  match xs with
  | [] => Ok []
  | x :: xs' => y ← f x; ys ← map_result f xs'; Ok (y :: ys)
  end.

(** ** NumPy arithmetic as an interface *)

Class Arith : Type := {
  float64 : Type;
  complex128 : Type;
  nan : float64;                                  (* np.nan *)
  f_zero : float64;                               (* 0.0 *)
  f_of_nat : nat → float64;                       (* int -> float64 *)
  f_lt : float64 → float64 → bool;                (* x < y *)
  f_ge : float64 → float64 → bool;                (* x >= y *)
  f_eq : float64 → float64 → bool;                (* x == y *)
  f_add : float64 → float64 → float64;
  f_sub : float64 → float64 → float64;
  f_mul : float64 → float64 → float64;
  f_div : float64 → float64 → float64;            (* the hardware quotient *)
  c_zero : complex128;                            (* 0j *)
  c_add : complex128 → complex128 → complex128;
  c_div_f : complex128 → float64 → complex128;    (* complex / real *)
  c_scale : float64 → complex128 → complex128;    (* real * complex *)
  j_mul : float64 → complex128;                   (* 1j * x *)
  c_exp : complex128 → complex128;                (* np.exp *)
  c_abs : complex128 → float64;                   (* np.abs *)
  c_angle_deg : complex128 → float64;             (* np.angle(z, True) *)
}.

(** 2D [float64] array, row-major: [results[r, c]] is [results !! r !! c]. *)
Abbreviation matrix := (list (list float64)).
(** 3D [complex128] array [epochs x channels x frequencies]. *)
Abbreviation tensor := (list (list (list complex128))).

(** Facts of IEEE-754 comparison and of sums and quotients of zeros that
    the development relies on; they hold for binary64 as for exact reals. *)
Class ArithLaws (A : Arith) : Prop := {
  f_ge_not_lt x y : f_ge x y = true → f_lt x y = false;
  f_lt_zero_eq x y :
    f_eq x f_zero = true → f_lt f_zero y = true → f_lt x y = true;
  f_zero_eq_zero : f_eq f_zero f_zero = true;
  f_add_zero x y :
    f_eq x f_zero = true → f_eq y f_zero = true →
    f_eq (f_add x y) f_zero = true;
  f_div_zero x n :
    f_eq x f_zero = true → f_eq (f_div x (f_of_nat (S n))) f_zero = true;
}.

Section Kernel.
Context {A : Arith}.

(** [results[r, c]], [None] outside the array. *)
Definition get_item (m : matrix) (r c : nat) : option float64 :=
  row ← m !! r; row !! c.

(** [results[r, c] = v] *)
Definition set_item (m : matrix) (r c : nat) (v : float64) : matrix :=
  alter (λ row, <[c := v]> row) r m.

(** [np.full((rows, cols), fill_value=v)] *)
Definition np_full (rows cols : nat) (v : float64) : matrix :=
  replicate rows (replicate cols v).

(** [m.shape == (rows, cols)] *)
Definition has_shape (m : matrix) (rows cols : nat) : Prop :=
  length m = rows ∧ Forall (λ row, length row = cols) m.

(** Number of elements of a 2D array ([ndarray.size]). *)
Definition matrix_size (m : matrix) : nat := sum_list (length <$> m).

(** Scalar [x / y] in an [@njit] function. *)
Definition scalar_div (x y : float64) : result float64 :=
  if f_eq y f_zero then Raise ZeroDivisionError else Ok (f_div x y).

(** [a.mean()] of a 1D [float64] array: the running sum divided by
    [a.size]. *)
Definition f_sum (xs : list float64) : float64 := foldl f_add f_zero xs.
Definition f_mean (xs : list float64) : result float64 :=
  match length xs with
  | 0 => Raise ZeroDivisionError
  | S _ as n => Ok (f_div (f_sum xs) (f_of_nat n))
  end.

(** [a.mean()] of a 1D [complex128] array. *)
Definition c_sum (zs : list complex128) : complex128 := foldl c_add c_zero zs.
Definition c_mean (zs : list complex128) : result complex128 :=
  match length zs with
  | 0 => Raise ZeroDivisionError
  | S _ as n => Ok (c_div_f (c_sum zs) (f_of_nat n))
  end.

(** Modelled from the spec: [fast_find_first], imported from
    [pybispectra.utils], whose module is missing.  Spec 4.1: it returns
    the first index [i] with [vector[i] == value] and fails with
    [NotFoundError] when no entry matches exactly. *)
Fixpoint find_first_from (i : nat) (vector : list float64) (value : float64)
    : result nat :=
  match vector with
  | [] => Raise NotFoundError
  | v :: rest =>
      if f_eq v value then Ok i else find_first_from (S i) rest value
  end.
(** Modelled from the spec: [fast_find_first(vector, value)], the search of
    spec 4.1 from the start of the axis. *)
Definition fast_find_first (vector : list float64) (value : float64)
    : result nat :=
  find_first_from 0 vector value.

(** [data[:, ch, k]].  A subscript out of range is Python's [IndexError];
    compiled code does not check bounds, and nothing below depends on that
    case: the statements are about slices of the right shape or about
    arrays that were returned. *)
Definition take_column (data : tensor) (ch k : nat)
    : result (list complex128) :=
  map_result (λ epoch, of_option (chan ← epoch !! ch; chan !! k) IndexError)
             data.

(** [np.abs(fft_f1) * np.abs(fft_f2)] *)
Definition amplitude_products (fft_f1 fft_f2 : list complex128)
    : list float64 :=
  zip_with f_mul (c_abs <$> fft_f1) (c_abs <$> fft_f2).

(** [np.angle(fft_f1, True) * ratio - np.angle(fft_f2, True)] *)
Definition phase_differences (fft_f1 fft_f2 : list complex128)
    (ratio : float64) : list float64 :=
  zip_with f_sub ((λ a, f_mul a ratio) <$> (c_angle_deg <$> fft_f1))
                 (c_angle_deg <$> fft_f2).

(** [amp * np.exp(1j * phase)] *)
Definition weighted_phasors (amp phase : list float64) : list complex128 :=
  zip_with c_scale amp (c_exp <$> (j_mul <$> phase)).

(** Lines 181-195: [numerator / denominator] from the two columns. *)
Definition ppc_value (fft_f1 fft_f2 : list complex128) (f1 f2 : float64)
    : result float64 :=
  ratio ← scalar_div f2 f1;
  mean_phasor ← c_mean (weighted_phasors
                          (amplitude_products fft_f1 fft_f2)
                          (phase_differences fft_f1 fft_f2 ratio));
  let numerator := c_abs mean_phasor in
  denominator ← f_mean (amplitude_products fft_f1 fft_f2);
  scalar_div numerator denominator.

(** Lines 179-195: the body of [if f1 < f2:], up to the value stored in
    [results[f2_i, f1_i]]. *)
Definition ppc_entry (data : tensor) (freqs : list float64)
    (f1 f2 : float64) : result float64 :=
  k1 ← fast_find_first freqs f1;
  fft_f1 ← take_column data 0 k1;                         (* seed f1 *)
  k2 ← fast_find_first freqs f2;
  fft_f2 ← take_column data 1 k2;                         (* target f2 *)
  ppc_value fft_f1 fft_f2 f1 f2.

(** Lines 177-195: [for f2_i, f2 in enumerate(f2s)] for one [f1]. *)
Definition f2_loop_body (data : tensor) (freqs : list float64)
    (f1_i : nat) (f1 : float64) (f2_i : nat) (f2 : float64)
    (results : matrix) : result matrix :=
  if f_lt f1 f2 then
    v ← ppc_entry data freqs f1 f2;
    Ok (set_item results f2_i f1_i v)
  else Ok results.

Definition f1_loop_body (data : tensor) (freqs f2s : list float64)
    (f1_i : nat) (f1 : float64) (results : matrix) : result matrix :=
  for_enumerate (f2_loop_body data freqs f1_i f1) 0 f2s results.

(** The kernel [_compute_ppc(data, freqs, f1s, f2s)] (lines 143-197). *)
Definition _compute_ppc (data : tensor) (freqs f1s f2s : list float64)
    : result matrix :=
  let results := np_full (length f2s) (length f1s) nan in
  for_enumerate (f1_loop_body data freqs f2s) 0 f1s results.

(** *** The coupling formula in the words of the specification

    Spec 4.4: per epoch a phase term
    [exp(i * (phase(seed_f1) * (f2/f1) - phase(target_f2)))] with the phase
    in degrees; numerator: magnitude of the epoch-average of
    [|seed_f1| * |target_f2| * phase_term]; denominator: epoch-average of
    [|seed_f1| * |target_f2|]; entry: numerator / denominator.

    The epoch-average is written out on its own: the values of the epochs
    are added one after the other, in epoch order and starting from zero,
    and the total is divided by the number of epochs. *)
Fixpoint epoch_total_f (total : float64) (xs : list float64) : float64 :=
  match xs with
  | [] => total
  | x :: rest => epoch_total_f (f_add total x) rest
  end.
Fixpoint epoch_total_c (total : complex128) (zs : list complex128)
    : complex128 :=
  match zs with
  | [] => total
  | z :: rest => epoch_total_c (c_add total z) rest
  end.

Definition epoch_average_f (xs : list float64) : float64 :=
  f_div (epoch_total_f f_zero xs) (f_of_nat (length xs)).
Definition epoch_average_c (zs : list complex128) : complex128 :=
  c_div_f (epoch_total_c c_zero zs) (f_of_nat (length zs)).

Definition phase_term (f1 f2 : float64) (seed target : complex128)
    : complex128 :=
  c_exp (j_mul (f_sub (f_mul (c_angle_deg seed) (f_div f2 f1))
                      (c_angle_deg target))).

Definition ppc_formula (seed_f1 target_f2 : list complex128)
    (f1 f2 : float64) : float64 :=
  let weighted :=
    zip_with (λ s t, c_scale (f_mul (c_abs s) (c_abs t)) (phase_term f1 f2 s t))
             seed_f1 target_f2 in
  let weights :=
    zip_with (λ s t, f_mul (c_abs s) (c_abs t)) seed_f1 target_f2 in
  f_div (c_abs (epoch_average_c weighted)) (epoch_average_f weights).

(** [k] is the first position of [value] on the axis. *)
Definition first_index (vector : list float64) (value : float64) (k : nat)
    : Prop :=
  (∃ v, vector !! k = Some v ∧ f_eq v value = true) ∧
  ∀ k' v', k' < k → vector !! k' = Some v' → f_eq v' value = false.

(** [value] is a member of the axis ([value in vector]). *)
Definition member (vector : list float64) (value : float64) : bool :=
  existsb (λ v, f_eq v value) vector.

(** Every queried value is a member of the axis. *)
Definition on_axis (freqs query : list float64) : Prop :=
  Forall (λ f, member freqs f = true) query.

(** Not every epoch's amplitude product [|seed_f1| * |target_f2|] is
    zero. *)
Definition amplitudes_nonzero (data : tensor) (freqs : list float64)
    (f1 f2 : float64) : Prop :=
  ∃ k1 k2 seed_f1 target_f2,
    fast_find_first freqs f1 = Ok k1 ∧ take_column data 0 k1 = Ok seed_f1
    ∧ fast_find_first freqs f2 = Ok k2
    ∧ take_column data 1 k2 = Ok target_f2
    ∧ Exists (λ p, f_eq p f_zero = false)
             (amplitude_products seed_f1 target_f2).

(** Every epoch's amplitude product is zero. *)
Definition amplitudes_zero (data : tensor) (freqs : list float64)
    (f1 f2 : float64) : Prop :=
  ∃ k1 k2 seed_f1 target_f2,
    fast_find_first freqs f1 = Ok k1 ∧ take_column data 0 k1 = Ok seed_f1
    ∧ fast_find_first freqs f2 = Ok k2
    ∧ take_column data 1 k2 = Ok target_f2
    ∧ Forall (λ p, f_eq p f_zero = true)
             (amplitude_products seed_f1 target_f2).

(** [data] has shape [epochs x 2 x len(freqs)] at least: every epoch holds
    a seed and a target row with one coefficient per frequency. *)
Definition connection_shaped (data : tensor) (n_freqs : nat) : Prop :=
  Forall (λ epoch, ∃ seed target rest,
            epoch = seed :: target :: rest ∧
            length seed = n_freqs ∧ length target = n_freqs) data.

(** Neither divisor of lines 181-195 is zero for the pair: [f1], and the
    epoch-average of the amplitude products [|seed_f1| * |target_f2|] of
    the seed coefficients at the first index of [f1] and the target
    coefficients at the first index of [f2]. *)
Definition divisors_nonzero (data : tensor) (freqs : list float64)
    (f1 f2 : float64) : Prop :=
  f_eq f1 f_zero = false
  ∧ ∀ k1 k2 seed_f1 target_f2,
      first_index freqs f1 k1 → first_index freqs f2 k2 →
      Forall2 (λ epoch s, ∃ seed, epoch !! 0 = Some seed ∧ seed !! k1 = Some s)
              data seed_f1 →
      Forall2 (λ epoch t, ∃ target,
                 epoch !! 1 = Some target ∧ target !! k2 = Some t)
              data target_f2 →
      f_eq (epoch_average_f
              (zip_with (λ s t, f_mul (c_abs s) (c_abs t)) seed_f1 target_f2))
           f_zero = false.
End Kernel.

(** ** The [PPC] object and its methods *)

(** Modelled from the spec: the result container [Results] of the missing
    module [pybispectra.utils].  Spec 3 and 4.6: built by
    [Results(data, indices, f2, f1, name)], it bundles the coupling array,
    the connection set, the frequency grids and the metric name. *)
Record Results {A : Arith} : Type := mkResults {
  res_data : option (list matrix);
  res_indices : option (list nat * list nat);
  res_f2 : option (list float64);
  res_f1 : option (list float64);
  res_name : string;
}.

(** Attributes of a [PPC] instance.  [None] is Python's [None]. *)
Record ppc_object {A : Arith} : Type := mkPPC {
  data : tensor;                                (* self.data *)
  freqs : list float64;                         (* self.freqs *)
  verbose : bool;                               (* self.verbose *)
  _n_chans : nat;                               (* self.data.shape[1] *)
  indices : option (list nat * list nat);       (* self.indices *)
  _seeds : option (list nat);                   (* self._seeds *)
  _targets : option (list nat);                 (* self._targets *)
  f1 : option (list float64);                   (* self.f1 *)
  f2 : option (list float64);                   (* self.f2 *)
  _n_jobs : option nat;                         (* self._n_jobs *)
  _ppc : option (list matrix);                  (* self._ppc *)
  _results : option Results;                    (* self._results *)
}.

(** [self.data] has [self._n_chans] channels in every epoch. *)
Definition channels_agree {A : Arith} (o : ppc_object) : Prop :=
  Forall (λ epoch, length epoch = _n_chans o) (data o).

(** What a method runs in: the object, an instrumentation counter of kernel
    invocations, the lines printed so far and the machine's CPU count. *)
Record world {A : Arith} : Type := mkWorld {
  self : ppc_object;
  kernel_calls : nat;
  stdout : list string;
  cpu_count : nat;
}.

(** State and exceptions: a raised exception keeps the state reached. *)
Definition Py {A : Arith} (T : Type) : Type := world → world * result T.

#[global] Instance Py_ret {A : Arith} : MRet Py := λ T t w, (w, Ok t).
#[global] Instance Py_bind {A : Arith} : MBind Py := λ T U f m w,
  match m w with
  | (w', Ok t) => f t w'
  | (w', Raise e) => (w', Raise e)
  end.

Section Effects.
Context {A : Arith}.

Definition with_self (w : world) (o : ppc_object) : world :=
  mkWorld A o (kernel_calls w) (stdout w) (cpu_count w).

Definition get_self : Py ppc_object := λ w, (w, Ok (self w)).
Definition modify_self (f : ppc_object → ppc_object) : Py unit :=
  λ w, (with_self w (f (self w)), Ok tt).
Definition lift {T} (r : result T) : Py T := λ w, (w, r).
Definition print (line : string) : Py unit :=
  λ w, (mkWorld A (self w) (kernel_calls w) (stdout w ++ [line])
                (cpu_count w), Ok tt).
(** What [if self.verbose: print(line)] appends to the output. *)
Definition said (o : ppc_object) (line : string) : list string :=
  if verbose o then [line] else [].
Definition get_cpu_count : Py nat := λ w, (w, Ok (cpu_count w)).

(** One invocation of the kernel, counted. *)
Definition call_kernel (d : tensor) (fs f1s f2s : list float64)
    : Py matrix :=
  λ w, (mkWorld A (self w) (S (kernel_calls w)) (stdout w) (cpu_count w),
        _compute_ppc d fs f1s f2s).

(** Attribute assignments [self.<attr> = v]. *)
Definition set_selection (ix : option (list nat * list nat))
    (ss ts : option (list nat)) (o : ppc_object) : ppc_object :=
  mkPPC A (data o) (freqs o) (verbose o) (_n_chans o) ix ss ts
        (f1 o) (f2 o) (_n_jobs o) (_ppc o) (_results o).
Definition set_f1_f2 (l1 l2 : option (list float64)) (o : ppc_object)
    : ppc_object :=
  mkPPC A (data o) (freqs o) (verbose o) (_n_chans o) (indices o)
        (_seeds o) (_targets o) l1 l2 (_n_jobs o) (_ppc o) (_results o).
Definition set_n_jobs (n : option nat) (o : ppc_object) : ppc_object :=
  mkPPC A (data o) (freqs o) (verbose o) (_n_chans o) (indices o)
        (_seeds o) (_targets o) (f1 o) (f2 o) n (_ppc o) (_results o).
Definition set_ppc (p : option (list matrix)) (o : ppc_object)
    : ppc_object :=
  mkPPC A (data o) (freqs o) (verbose o) (_n_chans o) (indices o)
        (_seeds o) (_targets o) (f1 o) (f2 o) (_n_jobs o) p (_results o).
Definition set_results (r : option Results) (o : ppc_object) : ppc_object :=
  mkPPC A (data o) (freqs o) (verbose o) (_n_chans o) (indices o)
        (_seeds o) (_targets o) (f1 o) (f2 o) (_n_jobs o) (_ppc o) r.
End Effects.

(** *** The base class [_Process] *)

Module Process.
Section Process.
Context {A : Arith}.

(** Modelled from the spec: [_Process._reset_attrs] of the missing module
    [pybispectra.cfc.process].  Spec 7 speaks of resetting "the internal
    result state"; spec 4.2 and 4.3 of selections kept for one call: the
    stored result container and the normalised selections are cleared. *)
Definition _reset_attrs : Py unit :=
  modify_self (λ o,
    set_results None (set_f1_f2 None None (set_selection None None None o))).

(** All ordered pairs [(seed, target)] over [n] channels, self-pairs
    included. *)
Definition all_pairs (n : nat) : list (nat * nat) :=
  s ← seq 0 n; t ← seq 0 n; [(s, t)].

Definition in_range (n : nat) (z : Z) : bool :=
  bool_decide (0 ≤ z < Z.of_nat n)%Z.

(** Spec 4.2: equal length, every index within [[0, n_channels)]. *)
Definition valid_indices (n : nat) (seeds targets : list Z) : bool :=
  bool_decide (length seeds = length targets)
  && forallb (in_range n) seeds && forallb (in_range n) targets.

(** The connection set of one call: [None] stands for the full
    cross-product, a given pair of sequences is checked. *)
Definition normalise_indices (n : nat) (ix : option (list Z * list Z))
    : result (list nat * list nat) :=
  match ix with
  | None => Ok ((all_pairs n).*1, (all_pairs n).*2)
  | Some (seeds, targets) =>
      if valid_indices n seeds targets
      then Ok (Z.to_nat <$> seeds, Z.to_nat <$> targets)
      else Raise ValueError
  end.

(** Modelled from the spec: [_Process._sort_indices] of the missing module
    [pybispectra.cfc.process].  Spec 4.2: [None] selects the full
    cross-product of channels; a given pair of sequences is validated and
    rejected with a [ValueError]-class error. *)
Definition _sort_indices (ix : option (list Z * list Z)) : Py unit :=
  o ← get_self;
  sel ← lift (normalise_indices (_n_chans o) ix);
  modify_self (set_selection (Some sel) (Some sel.1) (Some sel.2)).

(** Spec 4.3: every queried value is an exact member of the axis. *)
Definition valid_freqs (axis query : list float64) : bool :=
  forallb (member axis) query.

(** One query grid: [None] stands for the whole axis, a given grid is
    checked for membership. *)
Definition sort_freq (axis : list float64) (q : option (list float64))
    : result (list float64) :=
  match q with
  | None => Ok axis
  | Some l => if valid_freqs axis l then Ok l else Raise ValueError
  end.

(** Modelled from the spec: [_Process._sort_freqs] of the missing module
    [pybispectra.cfc.process].  Spec 4.3: [None] stands for the whole
    frequency axis; a value that is not on the axis is an error. *)
Definition _sort_freqs (q1 q2 : option (list float64)) : Py unit :=
  o ← get_self;
  l1 ← lift (sort_freq (freqs o) q1);
  l2 ← lift (sort_freq (freqs o) q2);
  modify_self (set_f1_f2 (Some l1) (Some l2)).

Definition cap_jobs (cpus : nat) (n_jobs : Z) : nat :=
  if bool_decide (1 ≤ n_jobs ≤ Z.of_nat cpus)%Z then Z.to_nat n_jobs
  else cpus.

(** Modelled from the spec: [_Process._sort_parallelisation] of the
    missing module [pybispectra.cfc.process].  Spec 4.5: [1] is
    sequential, negative or large values are capped to the hardware
    concurrency. *)
Definition _sort_parallelisation (n_jobs : Z) : Py unit :=
  cpus ← get_cpu_count;
  modify_self (set_n_jobs (Some (cap_jobs cpus n_jobs))).
End Process.
End Process.

(** *** The class [PPC] (lines 11-140) *)

Module PPC.
Section PPC.
Context {A : Arith}.

(** Keyword arguments of one kernel invocation (lines 116-121). *)
Record kwargs : Type := mkKwargs {
  kw_data : tensor;
  kw_freqs : list float64;
  kw_f1s : list float64;
  kw_f2s : list float64;
}.

(** Lines 108-111. *)
Definition _reset_attrs : Py unit :=
  _ ← Process._reset_attrs;
  modify_self (set_ppc None).

(** [self.data[:, (seed, target)]] *)
Definition select_connection (d : tensor) (seed target : nat)
    : result tensor :=
  map_result (λ epoch,
    s ← of_option (epoch !! seed) IndexError;
    t ← of_option (epoch !! target) IndexError;
    Ok [s; t]) d.

(** The kernel applied to one keyword dictionary. *)
Definition apply_kernel (a : kwargs) : result matrix :=
  _compute_ppc (kw_data a) (kw_freqs a) (kw_f1s a) (kw_f2s a).

(** [pqdm(args, _compute_ppc, n_jobs, argument_type="kwargs", ...)] of the
    third-party package pqdm: the kernel is applied to every element of
    [args] and the outcomes are returned in the order of [args].  Following
    spec 4.5 and 6 a failing invocation aborts the dispatch with its
    error.  [n_jobs] selects the number of worker processes only. *)
Fixpoint pqdm (args : list kwargs) (n_jobs : nat) : Py (list matrix) :=
  match args with
  | [] => mret []
  | a :: rest =>
      r ← call_kernel (kw_data a) (kw_freqs a) (kw_f1s a) (kw_f2s a);
      rs ← pqdm rest n_jobs;
      mret (r :: rs)
  end.

(** Lines 115-123: one keyword dictionary per connection. *)
Definition make_args (d : tensor) (fs : list float64)
    (seeds targets : list nat) (f1s f2s : list float64)
    : result (list kwargs) :=
  map_result (λ st,
    slice ← select_connection d st.1 st.2;
    Ok (mkKwargs slice fs f1s f2s)) (zip seeds targets).

(** Kernel invocations made by one dispatch: all of them, or those up to
    the first that fails. *)
Fixpoint invocations (args : list kwargs) : nat :=
  match args with
  | [] => 0
  | a :: rest =>
      match apply_kernel a with
      | Ok _ => S (invocations rest)
      | Raise _ => 1
      end
  end.

(** Lines 113-134. *)
Definition _compute_ppc : Py unit :=
  o ← get_self;
  seeds ← lift (of_option (_seeds o) TypeError);
  targets ← lift (of_option (_targets o) TypeError);
  f1s ← lift (of_option (f1 o) TypeError);
  f2s ← lift (of_option (f2 o) TypeError);
  n_jobs ← lift (of_option (_n_jobs o) TypeError);
  args ← lift (make_args (data o) (freqs o) seeds targets f1s f2s);
  stacked ← pqdm args n_jobs;
  modify_self (set_ppc (Some stacked)).

(** Lines 136-140. *)
Definition _store_results : Py unit :=
  modify_self (λ o,
    set_results (Some (mkResults A (_ppc o) (indices o) (f2 o) (f1 o) "PPC"))
                o).

(** The object as [compute] leaves it after line 93 and after line 97. *)
Definition after_reset (o : ppc_object) : ppc_object :=
  set_ppc None (set_results None (set_f1_f2 None None
    (set_selection None None None o))).
Definition after_validation (o : ppc_object) (sel : list nat * list nat)
    (l1 l2 : list float64) (jobs : nat) : ppc_object :=
  set_n_jobs (Some jobs) (set_f1_f2 (Some l1) (Some l2)
    (set_selection (Some sel) (Some sel.1) (Some sel.2) (after_reset o))).
(** ... and when it returns, with the stacked array [stacked]. *)
Definition after_compute (o : ppc_object) (sel : list nat * list nat)
    (l1 l2 : list float64) (jobs : nat) (stacked : list matrix)
    : ppc_object :=
  let o3 := set_ppc (Some stacked) (after_validation o sel l1 l2 jobs) in
  set_results (Some (mkResults A (_ppc o3) (indices o3) (f2 o3) (f1 o3)
                               "PPC")) o3.

Definition report (line : string) : Py unit :=
  o ← get_self;
  if verbose o then print line else mret tt.

(** Lines 61-106. *)
Definition compute (ix : option (list Z * list Z))
    (q1 q2 : option (list float64)) (n_jobs : Z) : Py unit :=
  _ ← _reset_attrs;
  _ ← Process._sort_indices ix;
  _ ← Process._sort_freqs q1 q2;
  _ ← Process._sort_parallelisation n_jobs;
  _ ← report "Computing PPC...";
  _ ← _compute_ppc;
  _ ← _store_results;
  report "    [PPC computation finished]".
End PPC.
End PPC.

(** ** Exact arithmetic

    [float64] read as a real number or NaN, [complex128] as a pair of those.
    Every operation is the exact real one and propagates NaN; there is no
    rounding, no overflow and no infinity (a quotient by zero, which the
    kernel never asks for, is NaN). *)

Module Exact.
Inductive xreal : Type :=
  | Xnan
  | Xreal (r : R).

Definition xcomplex : Type := xreal * xreal.

Definition lift2 (f : R → R → R) (x y : xreal) : xreal :=
  match x, y with
  | Xreal a, Xreal b => Xreal (f a b)
  | _, _ => Xnan
  end.
Definition test2 (p : R → R → bool) (x y : xreal) : bool :=
  match x, y with
  | Xreal a, Xreal b => p a b
  | _, _ => false
  end.

Definition Rltb (a b : R) : bool := if Rlt_dec a b then true else false.
Definition Rgeb (a b : R) : bool := if Rge_dec a b then true else false.
Definition Reqb (a b : R) : bool := if Req_dec_T a b then true else false.

Definition x_add : xreal → xreal → xreal := lift2 Rplus.
Definition x_sub : xreal → xreal → xreal := lift2 Rminus.
Definition x_mul : xreal → xreal → xreal := lift2 Rmult.
Definition x_div (x y : xreal) : xreal :=
  match x, y with
  | Xreal a, Xreal b => if Req_dec_T b 0 then Xnan else Xreal (a / b)
  | _, _ => Xnan
  end.

(** [atan2(y, x)], in radians. *)
Definition atan2 (y x : R) : R :=
  if Rlt_dec 0 x then atan (y / x)
  else if Rlt_dec x 0 then
    if Rle_dec 0 y then atan (y / x) + PI else atan (y / x) - PI
  else if Rlt_dec 0 y then PI / 2
  else if Rlt_dec y 0 then - (PI / 2)
  else 0.

Definition cx_add (z w : xcomplex) : xcomplex :=
  (x_add z.1 w.1, x_add z.2 w.2).
Definition cx_mul (z w : xcomplex) : xcomplex :=
  (x_sub (x_mul z.1 w.1) (x_mul z.2 w.2),
   x_add (x_mul z.1 w.2) (x_mul z.2 w.1)).
Definition cx_of_real (x : xreal) : xcomplex := (x, Xreal 0).
Definition cx_exp (z : xcomplex) : xcomplex :=
  (lift2 (λ a b, exp a * cos b)%R z.1 z.2,
   lift2 (λ a b, exp a * sin b)%R z.1 z.2).
Definition cx_abs (z : xcomplex) : xreal :=
  lift2 (λ a b, sqrt (a * a + b * b))%R z.1 z.2.
Definition cx_angle_deg (z : xcomplex) : xreal :=
  lift2 (λ a b, atan2 b a * 180 / PI)%R z.1 z.2.

#[export] Instance exact_arith : Arith := {|
  float64 := xreal;
  complex128 := xcomplex;
  nan := Xnan;
  f_zero := Xreal 0;
  f_of_nat := λ n, Xreal (INR n);
  f_lt := test2 Rltb;
  f_ge := test2 Rgeb;
  f_eq := test2 Reqb;
  f_add := x_add;
  f_sub := x_sub;
  f_mul := x_mul;
  f_div := x_div;
  c_zero := (Xreal 0, Xreal 0);
  c_add := cx_add;
  c_div_f := λ z x, (x_div z.1 x, x_div z.2 x);
  c_scale := λ x z, cx_mul (cx_of_real x) z;
  j_mul := λ x, cx_mul (Xreal 0, Xreal 1) (cx_of_real x);
  c_exp := cx_exp;
  c_abs := cx_abs;
  c_angle_deg := cx_angle_deg;
|}.

(** The coefficient [a + b j]. *)
Definition cx (z : R * R) : xcomplex := (Xreal z.1, Xreal z.2).

(** A coefficient without NaN component, an array of such. *)
Definition finite_c (z : xcomplex) : Prop := ∃ ab : R * R, z = cx ab.
Definition finite_data (data : list (list (list xcomplex))) : Prop :=
  Forall (Forall (Forall finite_c)) data.

(** Real-number reading of the quantities of one epoch. *)
Definition modulus (z : R * R) : R := sqrt (z.1 * z.1 + z.2 * z.2).
Definition angle_deg (z : R * R) : R := atan2 z.2 z.1 * 180 / PI.
Definition weight (s t : R * R) : R := modulus s * modulus t.
Definition phase (ratio : R) (s t : R * R) : R :=
  angle_deg s * ratio - angle_deg t.
Definition Rsum (l : list R) : R := foldl Rplus 0%R l.

(** A coefficient of nonzero magnitude, a channel of [n] such, and a
    connection slice of such channels: a seed and a target per epoch. *)
Definition nonzero_c (z : xcomplex) : Prop :=
  ∃ ab : R * R, z = cx ab ∧ modulus ab ≠ 0%R.
Definition nonzero_channel (n : nat) (chan : list xcomplex) : Prop :=
  length chan = n ∧ Forall nonzero_c chan.
Definition nonzero_data (n : nat) (data : list (list (list xcomplex)))
    : Prop :=
  Forall (λ epoch, length epoch = 2 ∧ Forall (nonzero_channel n) epoch) data.
End Exact.

(** ** The scenario of spec 8

    4 epochs, 2 channels, frequency axis [1, 2, 3, 4, 5] Hz, both channels
    with the same coefficient [1 + 0j] at every frequency; next to it a
    recording with a DC bin on the axis and a silent recording. *)

Module Scenario.
Import Exact.

Definition one : xcomplex := cx (1, 0)%R.
Definition zero : xcomplex := cx (0, 0)%R.

Definition recording : list (list (list xcomplex)) :=
  replicate 4 (replicate 2 (replicate 5 one)).
Definition silence : list (list (list xcomplex)) :=
  replicate 4 (replicate 2 (replicate 5 zero)).

Definition axis : list xreal := Xreal <$> [1; 2; 3; 4; 5]%R.
Definition axis_with_dc : list xreal := Xreal <$> [0; 1; 2; 3; 4]%R.

(** [PPC(fft, freqs)] before any call to [compute]. *)
Definition fresh (d : list (list (list xcomplex))) (fs : list xreal)
    : ppc_object (A := exact_arith) :=
  mkPPC exact_arith d fs true 2 None None None None None None None None.

Definition start : world (A := exact_arith) :=
  mkWorld exact_arith (fresh recording axis) 0 [] 4.

(** A recording that differs at every epoch, channel and frequency:
    2 epochs, 2 channels, frequency axis [1, 2, 3] Hz, real coefficients
    from [1 + 0j] to [11 + 0j] and, last, [-12 + 0j]. *)
Definition real_c (a : R) : xcomplex := cx (a, 0)%R.

Definition ramp : list (list (list xcomplex)) :=
  [[real_c <$> [1; 2; 3]; real_c <$> [4; 5; 6]];
   [real_c <$> [7; 8; 9]; real_c <$> [10; 11; -12]]]%R.
Definition ramp_axis : list xreal := Xreal <$> [1; 2; 3]%R.


End Scenario.

(** ** Plotting of coupling results ([utils/_plot.py])

    [_PlotBase] and [_PlotCFC], the plotting class behind the results of
    cross-frequency coupling.  Matplotlib is a third-party package: a call
    into it is recorded with its arguments on a [canvas] and returns; the
    one call modelled with an error is [plt.subplots], which rejects a
    grid without rows or columns.  The subscripts, lengths, comparisons and
    loops of the module itself are Python's. *)

Module Plot.

(** Python compares an [int] with a [float] exactly. *)
Class MixedOrder (A : Arith) : Type := {
  int_ge_float : Z → float64 → bool;
  float_ge_int : float64 → Z → bool;
}.

(** Values passed as plotting arguments.  Arrays are [float64] arrays, given
    by their shape and their entries in C order; booleans are not among the
    modelled values. *)
#[warnings="-register-all"]
Inductive pyval {A : Arith} : Type :=
  | PyNone
  | PyInt (z : Z)
  | PyFloat (x : float64)
  | PyStr (s : string)
  | PyList (items : list pyval)
  | PyTuple (items : list pyval)
  | PyArray (shape : list nat) (flat : list float64).

(** An [Axes] object: the figure it belongs to and its position in the
    raveled subplot array. *)
Definition axes_id : Type := nat * nat.

(** Calls into Matplotlib. *)
Inductive call {A : Arith} : Type :=
  | Subplots (fig : nat) (n_rows n_cols : Z)
  | Pcolormesh (axis : axes_id) (x y : list float64) (c : matrix)
               (vmin vmax : pyval)
  | Colorbar (axis : axes_id) (label : string)
  | SetAspect (axis : axes_id) (aspect : string)
  | MajorLocator (axis : axes_id) (xy : string) (base : pyval)
  | MinorLocator (axis : axes_id) (xy : string) (base : pyval)
  | Grid (axis : axes_id)
  | SetXlabel (axis : axes_id) (label : string)
  | SetYlabel (axis : axes_id) (label : string)
  | SetTitle (axis : axes_id) (seed target : pyval)
  | Suptitle (fig : nat) (title : string)
  | PltShow.

(** Matplotlib's state: the number of figures opened and the calls made. *)
Record canvas {A : Arith} : Type := mkCanvas {
  n_figures : nat;
  calls : list call;
}.

(** State and exceptions: a raised exception keeps what was drawn. *)
Definition Mpl {A : Arith} (T : Type) : Type := canvas → canvas * result T.

#[global] Instance Mpl_ret {A : Arith} : MRet Mpl := λ T t cv, (cv, Ok t).
#[global] Instance Mpl_bind {A : Arith} : MBind Mpl := λ T U f m cv,
  match m cv with
  | (cv', Ok t) => f t cv'
  | (cv', Raise e) => (cv', Raise e)
  end.

(** A [_PlotCFC] object. *)
Record plot_cfc {A : Arith} : Type := mkPlotCFC {
  _data : list matrix;          (* self._data: [nodes x f1s x f2s] *)
  _indices : pyval;             (* self._indices *)
  n_nodes : nat;                (* self.n_nodes *)
  name : string;                (* self.name *)
  f1s : list float64;           (* self.f1s *)
  f2s : list float64;           (* self.f2s *)
}.

(** What [_PlotCFC._sort_plot_inputs] returns. *)
Record sorted_inputs {A : Arith} : Type := mkSorted {
  s_nodes : list Z;
  s_f1s : list float64;
  s_f2s : list float64;
  s_f1_idcs : list nat;
  s_f2_idcs : list nat;
  s_cbar_range : list pyval;
}.

(** The counters of [_plot_results]. *)
Record cursor : Type := mkCursor {
  fig_i : nat;
  plot_n : nat;
  fig_plot_n : nat;
}.

Section Python.
Context {A : Arith} {M : MixedOrder A}.

Definition lift {T} (r : result T) : Mpl T := λ cv, (cv, r).
Definition record (c : call) : Mpl unit :=
  λ cv, (mkCanvas A (n_figures cv) (calls cv ++ [c]), Ok tt).

(** [isinstance(v, list)], [isinstance(v, int)], and
    [isinstance(v, (int, float))]. *)
Definition is_list (v : pyval) : bool :=
  match v with PyList _ => true | _ => false end.
Definition as_int (v : pyval) : option Z :=
  match v with PyInt z => Some z | _ => None end.
Definition is_number (v : pyval) : bool :=
  match v with PyInt _ | PyFloat _ => true | _ => false end.

(** [a >= b] of two numbers. *)
Definition num_ge (a b : pyval) : bool :=
  match a, b with
  | PyInt x, PyInt y => (y <=? x)%Z
  | PyInt x, PyFloat y => int_ge_float x y
  | PyFloat x, PyInt y => float_ge_int x y
  | PyFloat x, PyFloat y => f_ge x y
  | _, _ => false
  end.

(** [len(v)] *)
Definition py_len (v : pyval) : result nat :=
  match v with
  | PyStr s => Ok (String.length s)
  | PyList items | PyTuple items => Ok (length items)
  | PyArray (d :: _) _ => Ok d
  | PyArray [] _ | PyNone | PyInt _ | PyFloat _ => Raise TypeError
  end.

(** [l[i]] for a sequence: a negative subscript counts from the end. *)
Definition py_index {X} (l : list X) (i : Z) : result X :=
  let n := Z.of_nat (length l) in
  let j := if (i <? 0)%Z then (i + n)%Z else i in
  if ((j <? 0) || (n <=? j))%Z then Raise IndexError
  else of_option (l !! Z.to_nat j) IndexError.

(** [l[i]] for a counter [i], which is never negative. *)
Definition at_counter {X} (l : list X) (i : nat) : result X :=
  of_option (l !! i) IndexError.

(** [v[i]] *)
Definition py_getitem (v : pyval) (i : Z) : result pyval :=
  match v with
  | PyList items | PyTuple items => py_index items i
  | PyStr s =>
      c ← py_index (String.list_ascii_of_string s) i;
      Ok (PyStr (String c EmptyString))
  | PyArray [] _ => Raise IndexError
  | PyArray [_] flat => x ← py_index flat i; Ok (PyFloat x)
  | PyArray (d :: rest) flat =>
      let chunk := foldr Nat.mul 1 rest in
      k ← py_index (seq 0 d) i;
      Ok (PyArray rest (take chunk (drop (k * chunk) flat)))
  | PyNone | PyInt _ | PyFloat _ => Raise TypeError
  end.

(** [for _ in range(n): s = body(s)] *)
Fixpoint for_range {St} (n : nat) (body : St → Mpl St) (s : St) : Mpl St :=
  match n with
  | 0 => mret s
  | S n' => s' ← body s; for_range n' body s'
  end.

(** [for i in idx: s = body(i, s)], where the body may [break]. *)
Fixpoint for_break {St} (body : nat → St → Mpl (St * bool))
    (idx : list nat) (s : St) : Mpl St :=
  match idx with
  | [] => mret s
  | i :: idx' =>
      '(s', stop) ← body i s;
      if stop : bool then mret s' else for_break body idx' s'
  end.

(** [while cond(s): s = body(s)], run for at most [fuel] iterations;
    [None] when the fuel does not suffice. *)
Fixpoint while_loop {St} (fuel : nat) (cond : St → bool)
    (body : St → Mpl St) (s : St) : Mpl (option St) :=
  match fuel with
  | 0 => mret None
  | S fuel' =>
      if cond s then s' ← body s; while_loop fuel' cond body s'
      else mret (Some s)
  end.
End Python.

(** *** The base class [_PlotBase] (lines 14-135) *)

Module PlotBase.
Section PlotBase.
Context {A : Arith} {M : MixedOrder A}.

(** Lines 32-39: [self.n_nodes]. *)
Definition count_nodes (indices : pyval) : result nat :=
  n ← py_len indices;
  if n =? 2 then
    first ← py_getitem indices 0;
    if is_list first then
      second ← py_getitem indices 1;
      if is_list second then py_len first else Ok n
    else Ok n
  else Ok n.

(** Lines 47-92. *)
Definition _sort_plot_inputs (self : plot_cfc)
    (nodes n_rows n_cols major_tick_intervals minor_tick_intervals : pyval)
    : result (list Z) :=
  let nodes :=
    match nodes with
    | PyNone => PyList (PyInt <$> (Z.of_nat <$> seq 0 (n_nodes self)))
    | _ => nodes
    end in
  match nodes with
  | PyList items =>
      match mapM as_int items with
      | Some ints =>
          if existsb (λ con, (Z.of_nat (n_nodes self) <=? con)%Z) ints
             || existsb (λ con, (con <? 0)%Z) ints
          then Raise ValueError
          else
            match as_int n_rows, as_int n_cols with
            | Some r, Some c =>
                if ((r <? 1) || (c <? 1))%Z then Raise ValueError
                else if negb (is_number major_tick_intervals)
                        || negb (is_number minor_tick_intervals)
                then Raise TypeError
                else if num_ge minor_tick_intervals major_tick_intervals
                then Raise ValueError
                else Ok ints
            | _, _ => Raise TypeError
            end
      | None => Raise TypeError
      end
  | _ => Raise TypeError
  end.

(** [plt.subplots(n_rows, n_cols, layout="constrained")] followed by lines
    118-121: a new figure and its axes as a 1D array of
    [n_rows * n_cols] entries. *)
Definition subplots (n_rows n_cols : Z) : Mpl (nat * list axes_id) := λ cv,
  if ((n_rows <? 1) || (n_cols <? 1))%Z then (cv, Raise ValueError)
  else
    let fig := n_figures cv in
    (mkCanvas A (S fig) (calls cv ++ [Subplots fig n_rows n_cols]),
     Ok (fig, (λ slot, (fig, slot)) <$> seq 0 (Z.to_nat (n_rows * n_cols)))).

(** Lines 114-125: one pass of the loop over [range(len(nodes))]; the
    state is [(figures, axes, plot_n)]. *)
Definition _create_plots_body (n_nodes_plotted : nat) (n_rows n_cols : Z)
    (node_i : nat) (s : list nat * list (list axes_id) * Z)
    : Mpl (list nat * list (list axes_id) * Z * bool) :=
  let '(figures, axes, plot_n) := s in
  s' ← (if (Z.of_nat node_i =? plot_n)%Z then
          '(fig, axs) ← subplots n_rows n_cols;
          mret (figures ++ [fig], axes ++ [axs],
                (plot_n + n_rows * n_cols)%Z)
        else mret s);
  mret (s', (Z.of_nat n_nodes_plotted <=? s'.2)%Z).

(** Lines 94-127. *)
Definition _create_plots (nodes : list Z) (n_rows n_cols : Z)
    : Mpl (list nat * list (list axes_id)) :=
  '(figures, axes, _) ←
    for_break (_create_plots_body (length nodes) n_rows n_cols)
              (seq 0 (length nodes)) ([], [], 0%Z);
  mret (figures, axes).
End PlotBase.
End PlotBase.

(** *** The class [_PlotCFC] (lines 138-407) *)

Module PlotCFC.
Section PlotCFC.
Context {A : Arith} {M : MixedOrder A}.

(** Lines 141-152. *)
Definition __init__ (data : list matrix) (indices : pyval)
    (f1s f2s : list float64) (name : string) : result plot_cfc :=
  n ← PlotBase.count_nodes indices;
  Ok (mkPlotCFC A data indices n name f1s f2s).

(** Lines 313-328: the colourbar limits, one entry per plotted node. *)
Definition sort_cbar_range (cbar_range : pyval) (n_plotted : nat)
    : result (list pyval) :=
  entries ←
    match cbar_range with
    | PyTuple entries =>
        if length entries =? n_plotted then Ok entries
        else Raise ValueError
    | PyList _ => Ok (replicate n_plotted cbar_range)
    | PyNone => Ok (replicate n_plotted (PyList [PyNone; PyNone]))
    | _ => Raise TypeError
    end;
  _ ← map_result (λ entry,
         n ← py_len entry;
         if n =? 2 then Ok tt else Raise ValueError) entries;
  Ok entries.

(** Lines 252-330.  [_fast_find_first] is imported from
    [pybispectra.utils._utils], which is missing: it is the first-match
    search [fast_find_first] of the kernel. *)
Definition _sort_plot_inputs (self : plot_cfc)
    (nodes q1 q2 n_rows n_cols major_tick_intervals minor_tick_intervals
       cbar_range : pyval) : result sorted_inputs :=
  nodes ← PlotBase._sort_plot_inputs self nodes n_rows n_cols
            major_tick_intervals minor_tick_intervals;
  let q1 :=
    match q1 with
    | PyNone => PyArray [length (f1s self)] (f1s self)
    | _ => q1
    end in
  let q2 :=
    match q2 with
    | PyNone => PyArray [length (f2s self)] (f2s self)
    | _ => q2
    end in
  match q1, q2 with
  | PyArray shape1 l1, PyArray shape2 l2 =>
      if negb (length shape1 =? 1) || negb (length shape2 =? 1)
      then Raise ValueError
      else if existsb (λ freq, negb (member (f1s self) freq)) l1
              || existsb (λ freq, negb (member (f2s self) freq)) l2
      then Raise ValueError
      else
        f1_idcs ← map_result (fast_find_first (f1s self)) l1;
        f2_idcs ← map_result (fast_find_first (f2s self)) l2;
        cbar ← sort_cbar_range cbar_range (length nodes);
        Ok (mkSorted A nodes l1 l2 f1_idcs f2_idcs cbar)
  | _, _ => Raise TypeError
  end.

(** [m[np.ix_(f1_idcs, f2_idcs)].T]: entry [[b, a]] is
    [m[f1_idcs[a], f2_idcs[b]]].  The subscripts are checked entry by
    entry, as NumPy does when both index lists are non-empty. *)
Definition ix_T (m : matrix) (f1_idcs f2_idcs : list nat) : result matrix :=
  map_result (λ b,
    map_result (λ a, of_option (get_item m a b) IndexError) f1_idcs)
    f2_idcs.

(** Lines 397-407. *)
Definition _set_axis_ticks (axis : axes_id)
    (major_tick_intervals minor_tick_intervals : pyval) : Mpl unit :=
  _ ← record (MajorLocator axis "x" major_tick_intervals);
  _ ← record (MinorLocator axis "x" minor_tick_intervals);
  _ ← record (MajorLocator axis "y" major_tick_intervals);
  record (MinorLocator axis "y" minor_tick_intervals).

(** Lines 354-395: the body of the two [for] loops. *)
Definition panel (self : plot_cfc) (figures : list nat)
    (axes : list (list axes_id)) (nodes : list Z) (q1 q2 : list float64)
    (f1_idcs f2_idcs : list nat) (n_rows n_cols : Z)
    (major_tick_intervals minor_tick_intervals : pyval)
    (cbar_range : list pyval) (c : cursor) : Mpl cursor :=
  node_i ← lift (at_counter nodes (plot_n c));
  fig_axes ← lift (at_counter axes (fig_i c));
  axis ← lift (at_counter fig_axes (fig_plot_n c));
  node_data ← lift (py_index (_data self) node_i);
  mesh ← lift (ix_T node_data f1_idcs f2_idcs);
  limits ← lift (at_counter cbar_range (plot_n c));
  vmin ← lift (py_getitem limits 0);
  limits' ← lift (at_counter cbar_range (plot_n c));
  vmax ← lift (py_getitem limits' 1);
  _ ← record (Pcolormesh axis q1 q2 mesh vmin vmax);
  _ ← record (Colorbar axis "Coupling (A.U.)");
  _ ← record (SetAspect axis "equal");
  _ ← _set_axis_ticks axis major_tick_intervals minor_tick_intervals;
  _ ← record (Grid axis);
  _ ← record (SetXlabel axis "$f_1$ (Hz)");
  _ ← record (SetYlabel axis "$f_2$ (Hz)");
  seeds ← lift (py_getitem (_indices self) 0);
  seed ← lift (py_getitem seeds node_i);
  targets ← lift (py_getitem (_indices self) 1);
  target ← lift (py_getitem targets node_i);
  _ ← record (SetTitle axis seed target);
  let plot_n' := S (plot_n c) in
  let fig_plot_n' := S (fig_plot_n c) in
  if (n_rows * n_cols <=? Z.of_nat fig_plot_n')%Z then
    fig ← lift (at_counter figures (fig_i c));
    _ ← record (Suptitle fig (name self));
    mret (mkCursor (S (fig_i c)) plot_n' 0)
  else mret (mkCursor (fig_i c) plot_n' fig_plot_n').

(** Lines 332-395. *)
Definition _plot_results (fuel : nat) (self : plot_cfc) (figures : list nat)
    (axes : list (list axes_id)) (nodes : list Z) (q1 q2 : list float64)
    (f1_idcs f2_idcs : list nat) (n_rows n_cols : Z)
    (major_tick_intervals minor_tick_intervals : pyval)
    (cbar_range : list pyval) : Mpl (option unit) :=
  c ← while_loop fuel (λ c, fig_i c <? length figures)
         (for_range (Z.to_nat n_rows)
            (for_range (Z.to_nat n_cols)
               (panel self figures axes nodes q1 q2 f1_idcs f2_idcs
                      n_rows n_cols major_tick_intervals
                      minor_tick_intervals cbar_range)))
         (mkCursor 0 0 0);
  mret (_ ← c; Some tt).

(** Lines 154-250. *)
Definition plot (fuel : nat) (self : plot_cfc)
    (nodes q1 q2 n_rows n_cols major_tick_intervals minor_tick_intervals
       cbar_range : pyval) (show : bool)
    : Mpl (option (list nat * list (list axes_id))) :=
  s ← lift (_sort_plot_inputs self nodes q1 q2 n_rows n_cols
              major_tick_intervals minor_tick_intervals cbar_range);
  r ← lift (of_option (as_int n_rows) TypeError);    (* an [int] by now *)
  c ← lift (of_option (as_int n_cols) TypeError);
  '(figures, axes) ← PlotBase._create_plots (s_nodes s) r c;
  finished ← _plot_results fuel self figures axes (s_nodes s) (s_f1s s) (s_f2s s)
           (s_f1_idcs s) (s_f2_idcs s) r c major_tick_intervals
           minor_tick_intervals (s_cbar_range s);
  match finished with
  | None => mret None
  | Some _ =>
      _ ← (if show then record PltShow else mret tt);
      mret (Some (figures, axes))
  end.
End PlotCFC.
End PlotCFC.

(** *** What a canvas shows *)

Section Observations.
Context {A : Arith} {M : MixedOrder A}.

(** The figures and axes of a layout of [j] figures with [k] axes each, on
    a canvas that held [n0] figures, and the calls that open them. *)
Definition figures_from (n0 j : nat) : list nat := seq n0 j.
Definition axes_from (n0 j k : nat) : list (list axes_id) :=
  (λ fig, (λ slot, (fig, slot)) <$> seq 0 k) <$> seq n0 j.
Definition subplots_calls (n0 j : nat) (n_rows n_cols : Z) : list call :=
  (λ fig, Subplots fig n_rows n_cols) <$> seq n0 j.

(** What a trace shows, in the order of the calls: the meshes drawn with
    their colour limits, the titles of the axes, the titles of the
    figures. *)
Definition meshes (cs : list call)
    : list (axes_id * matrix * pyval * pyval) :=
  omap (λ c, match c with
             | Pcolormesh axis _ _ c vmin vmax => Some (axis, c, vmin, vmax)
             | _ => None
             end) cs.
Definition titles (cs : list call) : list (axes_id * pyval * pyval) :=
  omap (λ c, match c with
             | SetTitle axis seed target => Some (axis, seed, target)
             | _ => None
             end) cs.
Definition suptitles (cs : list call) : list (nat * string) :=
  omap (λ c, match c with
             | Suptitle fig title => Some (fig, title)
             | _ => None
             end) cs.

(** The calls of lines 357-388 for one node. *)
Definition panel_calls (axis : axes_id) (q1 q2 : list float64)
    (mesh : matrix) (vmin vmax major minor seed target : pyval)
    : list call :=
  [Pcolormesh axis q1 q2 mesh vmin vmax; Colorbar axis "Coupling (A.U.)";
   SetAspect axis "equal"; MajorLocator axis "x" major;
   MinorLocator axis "x" minor; MajorLocator axis "y" major;
   MinorLocator axis "y" minor; Grid axis; SetXlabel axis "$f_1$ (Hz)";
   SetYlabel axis "$f_2$ (Hz)"; SetTitle axis seed target].

(** What the panel of node [z], the [p]-th node plotted, is made of: the
    transposed selection of [self._data[z]], the limits
    [cbar_range[p]] and the seed and target of connection [z]. *)
Definition panel_content (self : plot_cfc) (f1_idcs f2_idcs : list nat)
    (cbar_range : list pyval) (p : nat) (z : Z) (mesh : matrix)
    (vmin vmax seed target : pyval) : Prop :=
  (∃ node_data, py_index (_data self) z = Ok node_data
     ∧ PlotCFC.ix_T node_data f1_idcs f2_idcs = Ok mesh)
  ∧ (∃ limits, cbar_range !! p = Some limits
       ∧ py_getitem limits 0 = Ok vmin ∧ py_getitem limits 1 = Ok vmax)
  ∧ (∃ seeds, py_getitem (_indices self) 0 = Ok seeds
       ∧ py_getitem seeds z = Ok seed)
  ∧ (∃ targets, py_getitem (_indices self) 1 = Ok targets
       ∧ py_getitem targets z = Ok target).

(** Every node to plot has its data, its limits and its title. *)
Definition drawable (self : plot_cfc) (nodes : list Z)
    (f1_idcs f2_idcs : list nat) (cbar_range : list pyval) : Prop :=
  ∀ p z, nodes !! p = Some z →
    ∃ mesh vmin vmax seed target,
      panel_content self f1_idcs f2_idcs cbar_range p z mesh vmin vmax
                    seed target.

(** The first [m] nodes are drawn in [new], one panel each in the order
    of [nodes], on the axes of [axes] taken figure by figure. *)
Definition panels_drawn (self : plot_cfc) (axes : list (list axes_id))
    (nodes : list Z) (f1_idcs f2_idcs : list nat) (cbar_range : list pyval)
    (new : list call) (m : nat) : Prop :=
  length (meshes new) = m ∧ length (titles new) = m
  ∧ ∀ p z, p < m → nodes !! p = Some z →
      ∃ axis mesh vmin vmax seed target,
        meshes new !! p = Some (axis, mesh, vmin, vmax)
        ∧ titles new !! p = Some (axis, seed, target)
        ∧ mjoin axes !! p = Some axis
        ∧ panel_content self f1_idcs f2_idcs cbar_range p z mesh vmin vmax
                        seed target.
End Observations.

Section WellFormed.
Context {A : Arith} {M : MixedOrder A}.

(** The object holds one [len(f1s) x len(f2s)] array per node and, as
    [indices], a tuple of the seeds and the targets of the nodes. *)
Definition well_formed (self : plot_cfc) : Prop :=
  length (_data self) = n_nodes self
  ∧ Forall (λ m, has_shape m (length (f1s self)) (length (f2s self)))
           (_data self)
  ∧ ∃ seeds targets,
      _indices self = PyTuple [PyList seeds; PyList targets]
      ∧ length seeds = n_nodes self ∧ length targets = n_nodes self.

(** An entry of [cbar_range] that is a list or a tuple of two limits. *)
Definition pair_of_limits (entry : pyval) : Prop :=
  ∃ vmin vmax, entry = PyList [vmin; vmax] ∨ entry = PyTuple [vmin; vmax].
End WellFormed.
End Plot.

(** ** Coupling results to plot

    The plotting counterpart of the scenario: exact arithmetic with its
    comparison of integers and reals, and a [_PlotCFC] object. *)

Module Showcase.
Import Exact Plot.

(** Exact arithmetic compares an integer with a real number exactly. *)
#[export] Instance exact_order : MixedOrder exact_arith := {|
  int_ge_float z x :=
    match x with Xreal r => Rgeb (IZR z) r | Xnan => false end;
  float_ge_int x z :=
    match x with Xreal r => Rgeb r (IZR z) | Xnan => false end;
|}.

(** Coupling of three connections of two channels at [f1 = 5] Hz and
    [f2 = 10] Hz, ready for plotting, and a canvas without figures. *)
Definition shown : plot_cfc (A := exact_arith) :=
  mkPlotCFC exact_arith [[[Xreal 1]]; [[Xreal 0]]; [[Xnan]]]
    (PyTuple [PyList [PyInt 0; PyInt 0; PyInt 1];
              PyList [PyInt 0; PyInt 1; PyInt 1]])
    3 "PPC" [Xreal 5] [Xreal 10].
Definition blank : canvas (A := exact_arith) := mkCanvas exact_arith 0 [].
Definition automatic : list (pyval (A := exact_arith)) :=
  replicate 3 (PyList [PyNone; PyNone]).
End Showcase.

(** * Verification *)

(** ** Loops *)

Lemma result_bind_ok {A B} (m : result A) (f : A → result B) (b : B) :
  m ≫= f = Ok b ↔ ∃ a, m = Ok a ∧ f a = Ok b.
Proof.
  destruct m as [a|e]; simpl; split.
  - intros H. by exists a.
  - by intros (a' & [= ->] & H).
  - intros [=].
  - by intros (a' & [=] & _).
Qed.

Lemma result_bind_raise {A B} (m : result A) (f : A → result B) (e : exn) :
  m ≫= f = Raise e ↔ m = Raise e ∨ ∃ a, m = Ok a ∧ f a = Raise e.
Proof.
  destruct m as [a|e']; simpl; split.
  - intros H. right. by exists a.
  - intros [[=]|(a' & [= ->] & H)]. done.
  - intros [= ->]. by left.
  - intros [[= ->]|(a' & [=] & _)]. done.
Qed.

(** A loop that ends normally re-establishes, index by index, whatever its
    body preserves. *)
Lemma for_enumerate_ok {A St} (body : nat → A → St → result St)
    (P : nat → St → Prop) (xs : list A) :
  (∀ k x s s', xs !! k = Some x → P k s → body k x s = Ok s' → P (S k) s') →
  ∀ s r, P 0 s → for_enumerate body 0 xs s = Ok r → P (length xs) r.
Proof.
  intros Hstep.
  assert (Hgen : ∀ (ys : list A) (i : nat) s r,
    (∀ k x, ys !! k = Some x → xs !! (i + k) = Some x) →
    i + length ys = length xs →
    P i s → for_enumerate body i ys s = Ok r → P (length xs) r).
  { induction ys as [|y ys IH]; intros i s r Hsub Hlen HP Hrun; simpl in *.
    - injection Hrun as <-. by replace (length xs) with i by lia.
    - apply result_bind_ok in Hrun as (s' & Hbody & Hrest).
      apply (IH (S i) s' r); [| lia | | done].
      + intros k x Hk. replace (S i + k) with (i + S k) by lia.
        by apply Hsub.
      + apply (Hstep i y s s'); [| done | done].
        replace i with (i + 0) by lia. by apply Hsub. }
  intros s r HP Hrun. by apply (Hgen xs 0 s r).
Qed.

(** A loop that raises does so in the body, at some element it reached. *)
Lemma for_enumerate_raise {A St} (body : nat → A → St → result St)
    (xs : list A) (i : nat) (s : St) (e : exn) :
  for_enumerate body i xs s = Raise e →
  ∃ k x s0, xs !! k = Some x ∧ body (i + k) x s0 = Raise e.
Proof.
  revert i s. induction xs as [|x xs IH]; intros i s Hrun; simpl in *.
  - done.
  - apply result_bind_raise in Hrun as [Hbody|(s' & Hbody & Hrest)].
    + exists 0, x, s. split; [done|]. by replace (i + 0) with i by lia.
    + destruct (IH _ _ Hrest) as (k & y & s0 & Hk & Hraise).
      exists (S k), y, s0. split; [done|].
      by replace (i + S k) with (S i + k) by lia.
Qed.

Lemma map_result_ok {A B} (f : A → result B) (xs : list A) (ys : list B) :
  map_result f xs = Ok ys ↔ Forall2 (λ x y, f x = Ok y) xs ys.
Proof.
  revert ys. induction xs as [|x xs IH]; intros ys; simpl.
  - split.
    + intros [= <-]. constructor.
    + intros H. by inversion H.
  - rewrite result_bind_ok. split.
    + intros (y & Hy & Hrest). apply result_bind_ok in Hrest as (ys' & Hys & [= <-]).
      constructor; [done|]. by apply IH.
    + intros H. inversion H as [|? y ? ys' Hy Hys]; subst.
      exists y. split; [done|]. apply result_bind_ok.
      exists ys'. split; [by apply IH | done].
Qed.

Lemma map_result_replicate {A B} (f : A → result B) (n : nat) (x : A) (y : B) :
  f x = Ok y → map_result f (replicate n x) = Ok (replicate n y).
Proof.
  intros Hx. induction n as [|n IH]; simpl; [done|]. by rewrite Hx, IH.
Qed.

Lemma map_result_total {X Y} (f : X → result Y) (xs : list X) :
  Forall (λ x, ∃ y, f x = Ok y) xs → ∃ ys, map_result f xs = Ok ys.
Proof.
  induction 1 as [|x xs [y Hy] _ [ys Hys]]; [by exists []|].
  exists (y :: ys). simpl. by rewrite Hy, Hys.
Qed.

(** ** The result array *)

Section MatrixFacts.
Context {A : Arith}.
Implicit Types (m : matrix) (v : float64).

Lemma get_item_set_item_eq m r c v rows cols :
  has_shape m rows cols → r < rows → c < cols →
  get_item (set_item m r c v) r c = Some v.
Proof.
  intros [Hlen Hrows] Hr Hc. unfold get_item, set_item.
  rewrite list_lookup_alter. destruct (decide (r = r)); [|done].
  destruct (lookup_lt_is_Some_2 m r) as [row Hrow]; [lia|].
  rewrite Hrow. simpl. apply list_lookup_insert_eq.
  rewrite Forall_lookup in Hrows. by rewrite (Hrows r row Hrow).
Qed.

Lemma get_item_set_item_ne m r c v r' c' :
  r ≠ r' ∨ c ≠ c' →
  get_item (set_item m r c v) r' c' = get_item m r' c'.
Proof.
  intros Hne. unfold get_item, set_item. rewrite list_lookup_alter.
  destruct (decide (r = r')) as [<-|]; [|done].
  destruct (m !! r) as [row|]; simpl; [|done].
  apply list_lookup_insert_ne. by destruct Hne.
Qed.

Lemma has_shape_set_item m r c v rows cols :
  has_shape m rows cols → has_shape (set_item m r c v) rows cols.
Proof.
  intros [Hlen Hrows]. split; unfold set_item.
  - by rewrite length_alter.
  - apply Forall_alter; [done|]. intros row _ Hrow. by rewrite length_insert.
Qed.

Lemma has_shape_np_full rows cols v : has_shape (np_full rows cols v) rows cols.
Proof.
  split; unfold np_full.
  - by rewrite length_replicate.
  - apply Forall_replicate. by rewrite length_replicate.
Qed.

Lemma get_item_np_full rows cols v r c :
  r < rows → c < cols → get_item (np_full rows cols v) r c = Some v.
Proof.
  intros Hr Hc. unfold get_item, np_full.
  rewrite lookup_replicate_2; [|done]. simpl. by apply lookup_replicate_2.
Qed.

Lemma matrix_size_np_full rows cols v :
  matrix_size (np_full rows cols v) = rows * cols.
Proof.
  unfold matrix_size, np_full. induction rows as [|n IH]; simpl; [done|].
  rewrite length_replicate. unfold fmap in IH. by rewrite IH.
Qed.
End MatrixFacts.

(** ** The kernel loops *)

Section KernelFacts.
Context {A : Arith}.
Implicit Types (data : tensor) (freqs : list float64).
Implicit Types (results : matrix) (v : float64).

(** What the loops leave in [results[i, j]] for the pair [(f1, f2)]. *)
Lemma f1_loop_body_ok data freqs f2s j f1 cols results0 results :
  has_shape results0 (length f2s) cols → j < cols →
  f1_loop_body data freqs f2s j f1 results0 = Ok results →
  has_shape results (length f2s) cols
  ∧ (∀ i f2, f2s !! i = Some f2 →
       if f_lt f1 f2
       then ∃ v, ppc_entry data freqs f1 f2 = Ok v
                 ∧ get_item results i j = Some v
       else get_item results i j = get_item results0 i j)
  ∧ (∀ i c, c ≠ j → get_item results i c = get_item results0 i c).
Proof.
  intros Hshape Hj Hrun. unfold f1_loop_body in Hrun.
  pose (P := λ (n : nat) (s : matrix),
    has_shape s (length f2s) cols
    ∧ (∀ i f2, i < n → f2s !! i = Some f2 →
         if f_lt f1 f2
         then ∃ v, ppc_entry data freqs f1 f2 = Ok v
                   ∧ get_item s i j = Some v
         else get_item s i j = get_item results0 i j)
    ∧ (∀ i c, c ≠ j ∨ n ≤ i → get_item s i c = get_item results0 i c)).
  assert (HP : P (length f2s) results).
  { refine (for_enumerate_ok _ P f2s _ results0 results _ Hrun).
    - intros k f2 s s' Hk (Hs & Hdone & Hrest) Hbody.
      unfold f2_loop_body in Hbody.
      assert (Hklt : k < length f2s) by (by eapply lookup_lt_Some).
      destruct (f_lt f1 f2) eqn:Hlt.
      + apply result_bind_ok in Hbody as (v & Hv & [= <-]).
        split; [by apply has_shape_set_item|]. split.
        * intros i f2' Hi Hf2'. destruct (decide (i = k)) as [->|Hne].
          -- rewrite Hk in Hf2'. injection Hf2' as <-. rewrite Hlt.
             exists v. split; [done|]. by eapply get_item_set_item_eq.
          -- rewrite get_item_set_item_ne; [|by left].
             apply Hdone; [lia | done].
        * intros i c Hic. rewrite get_item_set_item_ne; [|lia].
          apply Hrest. lia.
      + injection Hbody as <-. split; [done|]. split.
        * intros i f2' Hi Hf2'. destruct (decide (i = k)) as [->|Hne].
          -- rewrite Hk in Hf2'. injection Hf2' as <-. rewrite Hlt.
             apply Hrest. lia.
          -- apply Hdone; [lia | done].
        * intros i c Hic. apply Hrest. lia.
    - split; [done|]. split; [intros; lia | done]. }
  destruct HP as (Hs & Hdone & Hrest). split; [done|]. split.
  - intros i f2 Hi. apply Hdone; [by eapply lookup_lt_Some | done].
  - intros i c Hc. apply Hrest. by left.
Qed.

(** Every entry of a returned array: the coupling value where [f1 < f2],
    the fill value elsewhere. *)
Lemma _compute_ppc_ok data freqs f1s f2s results :
  _compute_ppc data freqs f1s f2s = Ok results →
  has_shape results (length f2s) (length f1s)
  ∧ ∀ j i f1 f2, f1s !! j = Some f1 → f2s !! i = Some f2 →
      if f_lt f1 f2
      then ∃ v, ppc_entry data freqs f1 f2 = Ok v
                ∧ get_item results i j = Some v
      else get_item results i j = Some nan.
Proof.
  intros Hrun. unfold _compute_ppc in Hrun.
  set (init := np_full (length f2s) (length f1s) nan) in Hrun.
  pose (Q := λ (n : nat) (s : matrix),
    has_shape s (length f2s) (length f1s)
    ∧ (∀ j i f1 f2, j < n → f1s !! j = Some f1 → f2s !! i = Some f2 →
         if f_lt f1 f2
         then ∃ v, ppc_entry data freqs f1 f2 = Ok v
                   ∧ get_item s i j = Some v
         else get_item s i j = Some nan)
    ∧ (∀ i c, n ≤ c → get_item s i c = get_item init i c)).
  assert (HQ : Q (length f1s) results).
  { refine (for_enumerate_ok _ Q f1s _ init results _ Hrun).
    - intros k f1 s s' Hk (Hs & Hdone & Hrest) Hbody.
      assert (Hklt : k < length f1s) by (by eapply lookup_lt_Some).
      destruct (f1_loop_body_ok _ _ _ _ _ _ _ _ Hs Hklt Hbody)
        as (Hs' & Hcol & Hother).
      split; [done|]. split.
      + intros j i f1' f2 Hj Hf1' Hf2.
        destruct (decide (j = k)) as [->|Hne].
        * rewrite Hk in Hf1'. injection Hf1' as <-.
          specialize (Hcol i f2 Hf2). destruct (f_lt f1 f2); [done|].
          rewrite Hcol, Hrest; [|done].
          apply get_item_np_full; [by eapply lookup_lt_Some | done].
        * specialize (Hdone j i f1' f2). rewrite Hother; [|done].
          apply Hdone; [lia | done | done].
      + intros i c Hc. rewrite Hother; [|lia]. apply Hrest. lia.
    - split; [apply has_shape_np_full|]. split; [intros; lia | done]. }
  destruct HQ as (Hs & Hdone & _). split; [done|].
  intros j i f1 f2 Hf1. apply Hdone; [by eapply lookup_lt_Some | done].
Qed.

(** A kernel that raises re-raises the exception of one entry. *)
Lemma _compute_ppc_raise data freqs f1s f2s e :
  _compute_ppc data freqs f1s f2s = Raise e →
  ∃ j i f1 f2, f1s !! j = Some f1 ∧ f2s !! i = Some f2
    ∧ f_lt f1 f2 = true ∧ ppc_entry data freqs f1 f2 = Raise e.
Proof.
  intros Hrun. unfold _compute_ppc in Hrun.
  apply for_enumerate_raise in Hrun as (j & f1 & s0 & Hj & Hbody).
  unfold f1_loop_body in Hbody.
  apply for_enumerate_raise in Hbody as (i & f2 & s1 & Hi & Hbody).
  unfold f2_loop_body in Hbody. destruct (f_lt f1 f2) eqn:Hlt; [|done].
  apply result_bind_raise in Hbody as [Hentry|(v & _ & [=])].
  by exists j, i, f1, f2.
Qed.

(** The kernel returns as soon as no entry raises. *)
Lemma _compute_ppc_returns data freqs f1s f2s :
  (∀ f1 f2, f1 ∈ f1s → f2 ∈ f2s → f_lt f1 f2 = true →
     ∃ v, ppc_entry data freqs f1 f2 = Ok v) →
  ∃ results, _compute_ppc data freqs f1s f2s = Ok results.
Proof.
  intros Hentries.
  destruct (_compute_ppc data freqs f1s f2s) as [results|e] eqn:Hrun.
  - by exists results.
  - apply _compute_ppc_raise in Hrun as (j & i & f1 & f2 & Hj & Hi & Hlt & He).
    destruct (Hentries f1 f2) as [v Hv]; [| |done|].
    + apply list_elem_of_lookup. by exists j.
    + apply list_elem_of_lookup. by exists i.
    + rewrite Hv in He. done.
Qed.
End KernelFacts.

(** ** One entry of the kernel *)

Section EntryFacts.
Context {A : Arith}.
Implicit Types (data : tensor) (freqs : list float64) (v : float64).
Implicit Types (seed target : list complex128).

Lemma scalar_div_ok (x y q : float64) :
  scalar_div x y = Ok q ↔ f_eq y f_zero = false ∧ q = f_div x y.
Proof.
  unfold scalar_div. destruct (f_eq y f_zero); split.
  - done.
  - by intros [[=] _].
  - by intros [= <-].
  - by intros [_ ->].
Qed.

Lemma scalar_div_raise (x y : float64) (e : exn) :
  scalar_div x y = Raise e ↔ f_eq y f_zero = true ∧ e = ZeroDivisionError.
Proof.
  unfold scalar_div. destruct (f_eq y f_zero); split.
  - by intros [= <-].
  - by intros [_ ->].
  - done.
  - by intros [[=] _].
Qed.

(** The running sums of [mean()] are the totals over the epochs. *)
Lemma f_sum_epochs (xs : list float64) : f_sum xs = epoch_total_f f_zero xs.
Proof.
  unfold f_sum. generalize f_zero.
  induction xs as [|x xs IH]; intros total; simpl; [done|]. apply IH.
Qed.

Lemma c_sum_epochs (zs : list complex128) :
  c_sum zs = epoch_total_c c_zero zs.
Proof.
  unfold c_sum. generalize c_zero.
  induction zs as [|z zs IH]; intros total; simpl; [done|]. apply IH.
Qed.

Lemma f_mean_ok (xs : list float64) (m : float64) :
  f_mean xs = Ok m → xs ≠ [] ∧ m = epoch_average_f xs.
Proof.
  unfold f_mean, epoch_average_f. rewrite f_sum_epochs.
  destruct xs as [|x xs]; [done|]. by intros [= <-].
Qed.

Lemma c_mean_ok (zs : list complex128) (m : complex128) :
  c_mean zs = Ok m → zs ≠ [] ∧ m = epoch_average_c zs.
Proof.
  unfold c_mean, epoch_average_c. rewrite c_sum_epochs.
  destruct zs as [|z zs]; [done|]. by intros [= <-].
Qed.

Lemma f_mean_raise (xs : list float64) (e : exn) :
  f_mean xs = Raise e → e = ZeroDivisionError.
Proof. unfold f_mean. destruct (length xs); [by intros [= <-] | done]. Qed.

Lemma c_mean_raise (zs : list complex128) (e : exn) :
  c_mean zs = Raise e → e = ZeroDivisionError.
Proof. unfold c_mean. destruct (length zs); [by intros [= <-] | done]. Qed.

Lemma zip_with_zip_with {X Y Z1 Z2 W} (h : Z1 → Z2 → W) (f : X → Y → Z1)
    (g : X → Y → Z2) (l : list X) (k : list Y) :
  zip_with h (zip_with f l k) (zip_with g l k)
  = zip_with (λ x y, h (f x y) (g x y)) l k.
Proof.
  revert k. induction l as [|x l IH]; intros [|y k]; simpl; [done..|].
  by rewrite IH.
Qed.

Lemma zip_with_fmap_both {X Y X' Y' Z} (h : X' → Y' → Z) (f : X → X')
    (g : Y → Y') (l : list X) (k : list Y) :
  zip_with h (f <$> l) (g <$> k) = zip_with (λ x y, h (f x) (g y)) l k.
Proof.
  revert k. induction l as [|x l IH]; intros [|y k]; simpl; [done..|].
  by rewrite IH.
Qed.

(** The arrays of lines 183-191, epoch by epoch. *)
Lemma amplitude_products_zip seed target :
  amplitude_products seed target
  = zip_with (λ s t, f_mul (c_abs s) (c_abs t)) seed target.
Proof. apply zip_with_fmap_both. Qed.

Lemma weighted_phasors_zip seed target (f1 f2 : float64) :
  weighted_phasors (amplitude_products seed target)
                   (phase_differences seed target (f_div f2 f1))
  = zip_with (λ s t, c_scale (f_mul (c_abs s) (c_abs t))
                             (phase_term f1 f2 s t)) seed target.
Proof.
  unfold weighted_phasors, phase_differences.
  rewrite amplitude_products_zip, <- !list_fmap_compose.
  rewrite zip_with_fmap_both.
  rewrite <- (list_fmap_id (zip_with (λ s t, f_mul (c_abs s) (c_abs t)) _ _)).
  rewrite zip_with_fmap_both, zip_with_zip_with. done.
Qed.

(** A value computed by lines 181-195 is the one of the formula. *)
Lemma ppc_value_ok seed target (f1 f2 : float64) v :
  ppc_value seed target f1 f2 = Ok v → v = ppc_formula seed target f1 f2.
Proof.
  unfold ppc_value. intros Hrun.
  apply result_bind_ok in Hrun as (ratio & [_ ->]%scalar_div_ok & Hrun).
  apply result_bind_ok in Hrun as (mp & [_ ->]%c_mean_ok & Hrun).
  apply result_bind_ok in Hrun as (den & [_ ->]%f_mean_ok & Hrun).
  apply scalar_div_ok in Hrun as [_ ->]. unfold ppc_formula.
  by rewrite weighted_phasors_zip, amplitude_products_zip.
Qed.

(** Lines 181-195 raise nothing but [ZeroDivisionError]. *)
Lemma ppc_value_raise seed target (f1 f2 : float64) e :
  ppc_value seed target f1 f2 = Raise e → e = ZeroDivisionError.
Proof.
  unfold ppc_value. intros Hrun.
  apply result_bind_raise in Hrun as [[_ ->]%scalar_div_raise|(? & _ & Hrun)];
    [done|].
  apply result_bind_raise in Hrun as [?%c_mean_raise|(? & _ & Hrun)]; [done|].
  apply result_bind_raise in Hrun as [?%f_mean_raise|(? & _ & Hrun)]; [done|].
  by apply scalar_div_raise in Hrun as [_ ->].
Qed.

(** [f2 / f1] with [f1 == 0]. *)
Lemma ppc_value_zero_f1 seed target (f1 f2 : float64) :
  f_eq f1 f_zero = true →
  ppc_value seed target f1 f2 = Raise ZeroDivisionError.
Proof. intros Hz. unfold ppc_value, scalar_div. by rewrite Hz. Qed.

Lemma f_sum_zero `{!ArithLaws A} (xs : list float64) :
  Forall (λ x, f_eq x f_zero = true) xs → f_eq (f_sum xs) f_zero = true.
Proof.
  unfold f_sum. intros Hxs.
  assert (Hgen : ∀ acc, f_eq acc f_zero = true →
            f_eq (foldl f_add acc xs) f_zero = true).
  { induction Hxs as [|x xs Hx _ IH]; intros acc Hacc; simpl; [done|].
    apply IH. by apply f_add_zero. }
  apply Hgen, f_zero_eq_zero.
Qed.

(** [numerator / denominator] when every amplitude product is zero. *)
Lemma ppc_value_zero_amplitudes `{!ArithLaws A} seed target
    (f1 f2 : float64) :
  Forall (λ x, f_eq x f_zero = true) (amplitude_products seed target) →
  ppc_value seed target f1 f2 = Raise ZeroDivisionError.
Proof.
  intros Hzero.
  destruct (ppc_value seed target f1 f2) as [v|e] eqn:Hrun.
  - exfalso. unfold ppc_value in Hrun.
    apply result_bind_ok in Hrun as (ratio & _ & Hrun).
    apply result_bind_ok in Hrun as (mp & _ & Hrun).
    apply result_bind_ok in Hrun as (den & Hden & Hrun).
    apply scalar_div_ok in Hrun as [Hnz _].
    unfold f_mean in Hden.
    destruct (length (amplitude_products seed target)) as [|n]; [done|].
    injection Hden as <-.
    rewrite f_div_zero in Hnz; [done|]. by apply f_sum_zero.
  - by rewrite (ppc_value_raise _ _ _ _ _ Hrun).
Qed.

Lemma find_first_from_ok (vector : list float64) (value : float64) i k :
  find_first_from i vector value = Ok k →
  i ≤ k
  ∧ (∃ x, vector !! (k - i) = Some x ∧ f_eq x value = true)
  ∧ ∀ k' x', k' < k - i → vector !! k' = Some x' → f_eq x' value = false.
Proof.
  revert i. induction vector as [|x vector IH]; intros i; simpl; [done|].
  destruct (f_eq x value) eqn:Hx.
  - intros [= <-]. replace (i - i) with 0 by lia.
    split; [lia|]. split; [by exists x | intros; lia].
  - intros (Hle & (y & Hy & Hyv) & Hfirst)%IH.
    replace (k - i) with (S (k - S i)) by lia.
    split; [lia|]. split; [by exists y|].
    intros [|k'] x' Hk' Hx'; simpl in Hx'.
    + by injection Hx' as <-.
    + apply (Hfirst k'); [lia | done].
Qed.

Lemma fast_find_first_ok (vector : list float64) (value : float64) k :
  fast_find_first vector value = Ok k → first_index vector value k.
Proof.
  intros (_ & Hk & Hfirst)%find_first_from_ok.
  rewrite Nat.sub_0_r in Hk, Hfirst. by split.
Qed.

Lemma fast_find_first_raise (vector : list float64) (value : float64) e :
  fast_find_first vector value = Raise e → member vector value = false.
Proof.
  unfold fast_find_first, member. generalize 0.
  induction vector as [|x vector IH]; intros i; simpl; [done|].
  destruct (f_eq x value); [done|]. apply IH.
Qed.

Lemma fast_find_first_member (vector : list float64) (value : float64) :
  member vector value = true →
  ∃ k, fast_find_first vector value = Ok k ∧ k < length vector.
Proof.
  intros Hmem.
  destruct (fast_find_first vector value) as [k|e] eqn:Hfind.
  - exists k. split; [done|].
    apply fast_find_first_ok in Hfind as [(x & Hx & _) _].
    by eapply lookup_lt_Some.
  - apply fast_find_first_raise in Hfind. congruence.
Qed.

(** A column of a well-shaped connection slice exists. *)
Lemma take_column_shaped data (n ch k : nat) :
  connection_shaped data n → ch < 2 → k < n →
  ∃ col, take_column data ch k = Ok col ∧ length col = length data.
Proof.
  intros Hshape Hch Hk. unfold take_column.
  induction Hshape as [|epoch data (s & t & rest & -> & Hs & Ht) _ IH]; simpl.
  - by exists [].
  - destruct IH as (col & -> & Hlen).
    destruct ch as [|[|ch]]; simpl; [| |lia].
    + destruct (lookup_lt_is_Some_2 s k) as [z ->]; [lia|]. simpl.
      exists (z :: col). split; [done|]. simpl. by rewrite Hlen.
    + destruct (lookup_lt_is_Some_2 t k) as [z ->]; [lia|]. simpl.
      exists (z :: col). split; [done|]. simpl. by rewrite Hlen.
Qed.

(** With query values on the axis and a well-shaped slice, an entry can
    only fail by a division by zero. *)
Lemma ppc_entry_columns data freqs (f1 f2 : float64) :
  connection_shaped data (length freqs) →
  member freqs f1 = true → member freqs f2 = true →
  ∃ k1 k2 seed target,
    fast_find_first freqs f1 = Ok k1 ∧ take_column data 0 k1 = Ok seed
    ∧ fast_find_first freqs f2 = Ok k2 ∧ take_column data 1 k2 = Ok target
    ∧ ppc_entry data freqs f1 f2 = ppc_value seed target f1 f2.
Proof.
  intros Hshape (k1 & Hk1 & Hlt1)%fast_find_first_member
                (k2 & Hk2 & Hlt2)%fast_find_first_member.
  destruct (take_column_shaped data _ 0 k1 Hshape) as (seed & Hseed & _);
    [lia | done |].
  destruct (take_column_shaped data _ 1 k2 Hshape) as (target & Htarget & _);
    [lia | done |].
  exists k1, k2, seed, target. repeat (split; [done|]).
  unfold ppc_entry. rewrite Hk1. simpl. rewrite Hseed. simpl.
  rewrite Hk2. simpl. by rewrite Htarget.
Qed.

Lemma ppc_entry_raise data freqs (f1 f2 : float64) e :
  connection_shaped data (length freqs) →
  member freqs f1 = true → member freqs f2 = true →
  ppc_entry data freqs f1 f2 = Raise e → e = ZeroDivisionError.
Proof.
  intros Hshape Hf1 Hf2 Hrun.
  destruct (ppc_entry_columns data freqs f1 f2)
    as (k1 & k2 & seed & target & _ & _ & _ & _ & Heq); [done..|].
  rewrite Heq in Hrun. by eapply ppc_value_raise.
Qed.

(** [data[:, ch, k]] entry by entry: one coefficient per epoch, the one of
    channel [ch] at the frequency index [k]. *)
Lemma take_column_lookups data (ch k : nat) (col : list complex128) :
  take_column data ch k = Ok col
  ↔ Forall2 (λ epoch z, ∃ chan, epoch !! ch = Some chan ∧ chan !! k = Some z)
            data col.
Proof.
  unfold take_column. rewrite map_result_ok.
  split; intros Hcol; (eapply Forall2_impl; [exact Hcol|]); intros epoch z.
  - intros Hz. cbn beta in Hz.
    destruct (epoch !! ch) as [chan|]; simpl in Hz; [|done].
    destruct (chan !! k) as [z'|] eqn:Hz'; simpl in Hz; [|done].
    injection Hz as <-. by exists chan.
  - intros (chan & -> & Hz). simpl. by rewrite Hz.
Qed.

(** The first position of a value on the axis is unique. *)
Lemma first_index_unique (vector : list float64) (value : float64)
    (k k' : nat) :
  first_index vector value k → first_index vector value k' → k = k'.
Proof.
  intros [(v & Hv & Heq) Hfirst] [(v' & Hv' & Heq') Hfirst'].
  destruct (lt_eq_lt_dec k k') as [[Hlt|Hkk]|Hlt]; [|done|].
  - specialize (Hfirst' k v Hlt Hv). congruence.
  - specialize (Hfirst k' v' Hlt Hv'). congruence.
Qed.

(** An entry that was computed is the formula on the two columns. *)
Lemma ppc_entry_ok data freqs (f1 f2 : float64) v :
  ppc_entry data freqs f1 f2 = Ok v →
  ∃ k1 k2 seed_f1 target_f2,
    first_index freqs f1 k1 ∧ first_index freqs f2 k2
    ∧ take_column data 0 k1 = Ok seed_f1
    ∧ take_column data 1 k2 = Ok target_f2
    ∧ ppc_value seed_f1 target_f2 f1 f2 = Ok v
    ∧ v = ppc_formula seed_f1 target_f2 f1 f2.
Proof.
  unfold ppc_entry. intros Hrun.
  apply result_bind_ok in Hrun as (k1 & Hk1 & Hrun).
  apply result_bind_ok in Hrun as (seed & Hseed & Hrun).
  apply result_bind_ok in Hrun as (k2 & Hk2 & Hrun).
  apply result_bind_ok in Hrun as (target & Htarget & Hrun).
  exists k1, k2, seed, target.
  split; [by apply fast_find_first_ok|].
  split; [by apply fast_find_first_ok|].
  repeat (split; [done|]). by apply ppc_value_ok.
Qed.
End EntryFacts.

(** ** Kernel outcomes *)

Section KernelOutcomes.
Context {A : Arith}.
Implicit Types (data : tensor) (freqs : list float64).

(** With valid inputs the kernel fails by a division by zero or not at
    all. *)
Lemma _compute_ppc_only_zero_division data freqs f1s f2s e :
  connection_shaped data (length freqs) →
  on_axis freqs f1s → on_axis freqs f2s →
  _compute_ppc data freqs f1s f2s = Raise e → e = ZeroDivisionError.
Proof.
  intros Hshape Hf1s Hf2s Hrun.
  apply _compute_ppc_raise in Hrun as (j & i & f1 & f2 & Hj & Hi & _ & He).
  apply (ppc_entry_raise data freqs f1 f2); [done| | |done].
  - eapply (proj1 (Forall_lookup _ _) Hf1s); eauto.
  - eapply (proj1 (Forall_lookup _ _) Hf2s); eauto.
Qed.

(** One entry that raises makes the whole kernel raise. *)
Lemma _compute_ppc_entry_raises data freqs f1s f2s j i
    (f1 f2 : float64) e :
  connection_shaped data (length freqs) →
  on_axis freqs f1s → on_axis freqs f2s →
  f1s !! j = Some f1 → f2s !! i = Some f2 → f_lt f1 f2 = true →
  ppc_entry data freqs f1 f2 = Raise e →
  _compute_ppc data freqs f1s f2s = Raise ZeroDivisionError.
Proof.
  intros Hshape Hf1s Hf2s Hj Hi Hlt He.
  destruct (_compute_ppc data freqs f1s f2s) as [results|e'] eqn:Hrun.
  - apply _compute_ppc_ok in Hrun as [_ Hentries].
    specialize (Hentries j i f1 f2 Hj Hi). rewrite Hlt in Hentries.
    destruct Hentries as (v & Hv & _). congruence.
  - by rewrite (_compute_ppc_only_zero_division _ _ _ _ _ Hshape Hf1s Hf2s Hrun).
Qed.

(** An empty grid: the loops never reach an entry. *)
Lemma _compute_ppc_empty data freqs f1s f2s :
  f1s = [] ∨ f2s = [] →
  _compute_ppc data freqs f1s f2s = Ok (np_full (length f2s) (length f1s) nan).
Proof.
  intros [-> | ->]; unfold _compute_ppc; simpl; [done|].
  assert (Hgen : ∀ n (m : matrix),
            for_enumerate (f1_loop_body data freqs []) n f1s m = Ok m).
  { induction f1s as [|f1 f1s IH]; intros n m; simpl; [done|]. apply IH. }
  apply Hgen.
Qed.
(** Lines 181-195 return when neither division is by zero. *)
Lemma ppc_value_returns (seed target : list complex128) (f1 f2 : float64) :
  seed ≠ [] → target ≠ [] →
  f_eq f1 f_zero = false →
  f_eq (epoch_average_f (amplitude_products seed target)) f_zero = false →
  ∃ v, ppc_value seed target f1 f2 = Ok v.
Proof.
  intros Hseed Htarget Hf1 Hden.
  destruct seed as [|s seed]; [done|]. destruct target as [|t target]; [done|].
  unfold ppc_value.
  rewrite (proj2 (scalar_div_ok f2 f1 _) (conj Hf1 eq_refl)).
  cbn [mbind result_bind]. unfold c_mean, f_mean. simpl length.
  cbn [mbind result_bind]. eexists. apply scalar_div_ok. by split.
Qed.

(** The kernel returns when, for every pair [f1 < f2] of the grids, [f1] is
    not zero and the mean amplitude product is not zero. *)
Lemma _compute_ppc_total (data : tensor) (freqs f1s f2s : list float64) :
  connection_shaped data (length freqs) → data ≠ [] →
  on_axis freqs f1s → on_axis freqs f2s →
  (∀ f1 f2 k1 k2 seed target,
     f1 ∈ f1s → f2 ∈ f2s → f_lt f1 f2 = true →
     fast_find_first freqs f1 = Ok k1 → take_column data 0 k1 = Ok seed →
     fast_find_first freqs f2 = Ok k2 → take_column data 1 k2 = Ok target →
     f_eq f1 f_zero = false
     ∧ f_eq (epoch_average_f (amplitude_products seed target)) f_zero
       = false) →
  ∃ results, _compute_ppc data freqs f1s f2s = Ok results.
Proof.
  intros Hshape Hdata Hf1s Hf2s Hsafe. apply _compute_ppc_returns.
  intros f1 f2 Hf1 Hf2 Hlt.
  destruct (ppc_entry_columns data freqs f1 f2 Hshape)
    as (k1 & k2 & seed & target & Hk1 & Hseed & Hk2 & Htarget & ->).
  - by apply (proj1 (Forall_forall _ _) Hf1s).
  - by apply (proj1 (Forall_forall _ _) Hf2s).
  - destruct (Hsafe f1 f2 k1 k2 seed target) as [Hnz Hden]; try done.
    assert (Hlen : ∀ ch k col, take_column data ch k = Ok col → col ≠ []).
    { intros ch k col Hcol%map_result_ok Hnil. subst col.
      inversion Hcol. by subst. }
    apply ppc_value_returns; eauto.
Qed.
End KernelOutcomes.
(** ** The method [compute] *)

Section ComputeFacts.
Context {A : Arith}.
Implicit Types (w : world) (o : ppc_object).

(** The dispatch applies the kernel to the arguments in order and counts
    one invocation per argument reached. *)
Lemma pqdm_run (args : list PPC.kwargs) (n : nat) w :
  PPC.pqdm args n w
  = (mkWorld A (self w) (kernel_calls w + PPC.invocations args) (stdout w)
             (cpu_count w),
     map_result PPC.apply_kernel args).
Proof.
  revert w. induction args as [|a args IH]; intros w; simpl.
  - unfold mret, Py_ret. destruct w; simpl. by rewrite Nat.add_0_r.
  - unfold mbind, Py_bind, call_kernel. fold (PPC.apply_kernel a).
    destruct (PPC.apply_kernel a) as [m|e] eqn:Hm; simpl.
    + rewrite IH. simpl.
      replace (S (kernel_calls w + PPC.invocations args))
        with (kernel_calls w + S (PPC.invocations args)) by lia.
      by destruct (map_result PPC.apply_kernel args).
    + by replace (kernel_calls w + 1) with (S (kernel_calls w)) by lia.
Qed.

Lemma invocations_ok (args : list PPC.kwargs) (ms : list matrix) :
  map_result PPC.apply_kernel args = Ok ms →
  PPC.invocations args = length args.
Proof.
  revert ms. induction args as [|a args IH]; intros ms; simpl; [done|].
  destruct (PPC.apply_kernel a); simpl; [|done].
  destruct (map_result PPC.apply_kernel args) as [ms'|] eqn:Hms; [|done].
  intros _. by rewrite (IH ms').
Qed.

(** [compute], statement by statement. *)
Lemma compute_run ix q1 q2 n w :
  PPC.compute ix q1 q2 n w =
  let o := self w in
  match Process.normalise_indices (_n_chans o) ix with
  | Raise e => (with_self w (PPC.after_reset o), Raise e)
  | Ok sel =>
    let o1 := set_selection (Some sel) (Some sel.1) (Some sel.2)
                            (PPC.after_reset o) in
    match Process.sort_freq (freqs o) q1 with
    | Raise e => (with_self w o1, Raise e)
    | Ok l1 =>
      match Process.sort_freq (freqs o) q2 with
      | Raise e => (with_self w o1, Raise e)
      | Ok l2 =>
        let jobs := Process.cap_jobs (cpu_count w) n in
        let o2 := PPC.after_validation o sel l1 l2 jobs in
        let out := stdout w ++ said o "Computing PPC..." in
        match PPC.make_args (data o) (freqs o) sel.1 sel.2 l1 l2 with
        | Raise e => (mkWorld A o2 (kernel_calls w) out (cpu_count w), Raise e)
        | Ok args =>
          let calls := kernel_calls w + PPC.invocations args in
          match map_result PPC.apply_kernel args with
          | Raise e => (mkWorld A o2 calls out (cpu_count w), Raise e)
          | Ok stacked =>
            (mkWorld A (PPC.after_compute o sel l1 l2 jobs stacked) calls
               (out ++ said o "    [PPC computation finished]")
               (cpu_count w), Ok tt)
          end
        end
      end
    end
  end.
Proof.
  unfold PPC.compute, PPC._reset_attrs, Process._reset_attrs,
    Process._sort_indices, Process._sort_freqs,
    Process._sort_parallelisation, PPC.report, PPC._compute_ppc,
    PPC._store_results, modify_self, get_self, get_cpu_count, lift,
    print, said, mbind, mret, Py_bind, Py_ret, with_self,
    PPC.after_compute, PPC.after_validation, PPC.after_reset.
  cbn.
  destruct (Process.normalise_indices _ ix) as [sel|e]; cbn; [|done].
  destruct (Process.sort_freq _ q1) as [l1|e]; cbn; [|done].
  destruct (Process.sort_freq _ q2) as [l2|e]; cbn; [|done].
  destruct (verbose (self w)) eqn:Hv; cbn.
  - destruct (PPC.make_args _ _ _ _ _ _) as [args|e]; cbn; [|done].
    rewrite pqdm_run. cbn.
    destruct (map_result PPC.apply_kernel args) as [stacked|e]; cbn; [|done].
    by rewrite Hv.
  - rewrite !app_nil_r.
    destruct (PPC.make_args _ _ _ _ _ _) as [args|e]; cbn; [|done].
    rewrite pqdm_run. cbn.
    destruct (map_result PPC.apply_kernel args) as [stacked|e]; cbn; [|done].
    by rewrite Hv.
Qed.
End ComputeFacts.
(** ** Selections and dispatch *)

Section SelectionFacts.
Context {A : Arith}.



Lemma elem_of_all_pairs (n s t : nat) :
  (s, t) ∈ Process.all_pairs n ↔ s < n ∧ t < n.
Proof.
  unfold Process.all_pairs. rewrite list_elem_of_bind. split.
  - intros (s' & (t' & Hst & Ht)%list_elem_of_bind & Hs).
    apply list_elem_of_singleton in Hst as [= -> ->].
    apply elem_of_seq in Hs, Ht. lia.
  - intros [Hs Ht]. exists s. split; [|apply elem_of_seq; lia].
    apply list_elem_of_bind. exists t.
    split; [by apply list_elem_of_singleton | apply elem_of_seq; lia].
Qed.

(** A normalised connection set: equally long, within the channels. *)
Lemma normalise_indices_ok (n : nat) ix (sel : list nat * list nat) :
  Process.normalise_indices n ix = Ok sel →
  length sel.1 = length sel.2
  ∧ Forall (λ s, s < n) sel.1 ∧ Forall (λ t, t < n) sel.2.
Proof.
  unfold Process.normalise_indices. destruct ix as [[seeds targets]|].
  - destruct (Process.valid_indices n seeds targets) eqn:Hvalid; [|done].
    intros [= <-]. simpl. unfold Process.valid_indices in Hvalid.
    apply andb_prop in Hvalid as [[Hlen Hs]%andb_prop Ht].
    apply bool_decide_eq_true in Hlen.
    assert (Hrange : ∀ l, forallb (Process.in_range n) l = true →
              Forall (λ s, s < n) (Z.to_nat <$> l)).
    { intros l Hl. apply Forall_fmap, Forall_forall. intros z Hz.
      rewrite forallb_forall in Hl.
      specialize (Hl z (proj1 (list_elem_of_In _ _) Hz)).
      apply bool_decide_eq_true in Hl. simpl. lia. }
    rewrite !length_fmap. auto.
  - intros [= <-]. simpl. rewrite !length_fmap. split; [done|].
    split; apply Forall_fmap, Forall_forall; intros [s t] Hst;
      apply elem_of_all_pairs in Hst; simpl; lia.
Qed.

Lemma select_connection_total (d : tensor) (n s t : nat) :
  Forall (λ epoch, length epoch = n) d → s < n → t < n →
  ∃ slice, PPC.select_connection d s t = Ok slice.
Proof.
  intros Hd Hs Ht. unfold PPC.select_connection.
  induction Hd as [|epoch d Hlen _ IH]; simpl; [by exists []|].
  destruct (lookup_lt_is_Some_2 epoch s) as [x ->]; [lia|].
  destruct (lookup_lt_is_Some_2 epoch t) as [y ->]; [lia|]. simpl.
  destruct IH as [slice ->]. simpl. by eexists.
Qed.


(** Lines 115-123 build one argument per connection, all with the same
    axis and grids. *)
Lemma make_args_ok (d : tensor) fs seeds targets l1 l2 args :
  PPC.make_args d fs seeds targets l1 l2 = Ok args →
  length args = length (zip seeds targets)
  ∧ Forall (λ a, PPC.kw_freqs a = fs ∧ PPC.kw_f1s a = l1
                 ∧ PPC.kw_f2s a = l2) args.
Proof.
  unfold PPC.make_args. intros Hargs%map_result_ok. split.
  - symmetry. by eapply Forall2_length.
  - induction Hargs as [|st a sts args Ha _ IH]; constructor; [|done].
    apply result_bind_ok in Ha as (slice & _ & [= <-]). done.
Qed.

Lemma make_args_total (d : tensor) (n : nat) fs seeds targets l1 l2 :
  Forall (λ epoch, length epoch = n) d →
  Forall (λ s, s < n) seeds → Forall (λ t, t < n) targets →
  ∃ args, PPC.make_args d fs seeds targets l1 l2 = Ok args.
Proof.
  intros Hd Hs. revert targets. unfold PPC.make_args.
  induction Hs as [|s seeds Hs _ IH]; intros targets Ht; simpl.
  - by exists [].
  - destruct Ht as [|t targets Ht Hts]; simpl; [by exists []|].
    destruct (select_connection_total d n s t Hd Hs Ht) as [slice ->].
    simpl. destruct (IH targets Hts) as [args ->]. simpl. by eexists.
Qed.


(** With an empty grid every invocation returns the untouched fill. *)
Lemma dispatch_empty (args : list PPC.kwargs) fs l1 l2 :
  l1 = [] ∨ l2 = [] →
  Forall (λ a, PPC.kw_freqs a = fs ∧ PPC.kw_f1s a = l1
               ∧ PPC.kw_f2s a = l2) args →
  map_result PPC.apply_kernel args
  = Ok (replicate (length args) (np_full (length l2) (length l1) nan)).
Proof.
  intros Hempty Hargs.
  induction Hargs as [|a args (_ & Ha1 & Ha2) _ IH]; simpl; [done|].
  assert (PPC.apply_kernel a = Ok (np_full (length l2) (length l1) nan))
    as ->.
  { unfold PPC.apply_kernel. rewrite Ha1, Ha2. by apply _compute_ppc_empty. }
  simpl. by rewrite IH.
Qed.
End SelectionFacts.
(** ** Outcomes of [compute] *)

Section ComputeOutcomes.
Context {A : Arith}.
Implicit Types (w : world).

Lemma normalise_indices_raise (n : nat) ix e :
  Process.normalise_indices n ix = Raise e → e = ValueError.
Proof.
  unfold Process.normalise_indices. destruct ix as [[seeds targets]|]; [|done].
  destruct (Process.valid_indices n seeds targets); [done|]. by intros [= <-].
Qed.

Lemma sort_freq_raise (axis : list float64) q e :
  Process.sort_freq axis q = Raise e → e = ValueError.
Proof.
  unfold Process.sort_freq. destruct q as [l|]; [|done].
  destruct (Process.valid_freqs axis l); [done|]. by intros [= <-].
Qed.

(** A request that fails validation: [ValueError], no kernel invocation,
    and the result array already cleared. *)
Lemma compute_rejects ix q1 q2 n w :
  (∃ e, Process.normalise_indices (_n_chans (self w)) ix = Raise e)
  ∨ (∃ e, Process.sort_freq (freqs (self w)) q1 = Raise e)
  ∨ (∃ e, Process.sort_freq (freqs (self w)) q2 = Raise e) →
  ∃ w', PPC.compute ix q1 q2 n w = (w', Raise ValueError)
    ∧ kernel_calls w' = kernel_calls w
    ∧ _ppc (self w') = None.
Proof.
  intros Hbad. rewrite compute_run. cbn zeta.
  destruct (Process.normalise_indices _ ix) as [sel|e] eqn:Hix.
  - destruct (Process.sort_freq _ q1) as [l1|e] eqn:Hq1.
    + destruct (Process.sort_freq _ q2) as [l2|e] eqn:Hq2.
      * by destruct Hbad as [[? ?]|[[? ?]|[? ?]]].
      * rewrite (sort_freq_raise _ _ _ Hq2). by eexists.
    + rewrite (sort_freq_raise _ _ _ Hq1). by eexists.
  - rewrite (normalise_indices_raise _ _ _ Hix). by eexists.
Qed.

(** What a call that returns has done. *)
Lemma compute_ok_inv ix q1 q2 n w w' u :
  PPC.compute ix q1 q2 n w = (w', Ok u) →
  ∃ sel l1 l2 args stacked,
    Process.normalise_indices (_n_chans (self w)) ix = Ok sel
    ∧ Process.sort_freq (freqs (self w)) q1 = Ok l1
    ∧ Process.sort_freq (freqs (self w)) q2 = Ok l2
    ∧ PPC.make_args (data (self w)) (freqs (self w)) sel.1 sel.2 l1 l2
      = Ok args
    ∧ map_result PPC.apply_kernel args = Ok stacked
    ∧ self w' = PPC.after_compute (self w) sel l1 l2
                  (Process.cap_jobs (cpu_count w) n) stacked
    ∧ kernel_calls w' = kernel_calls w + length args.
Proof.
  rewrite compute_run. cbn zeta.
  destruct (Process.normalise_indices _ ix) as [sel|?]; [|done].
  destruct (Process.sort_freq _ q1) as [l1|?]; [|done].
  destruct (Process.sort_freq _ q2) as [l2|?]; [|done].
  destruct (PPC.make_args _ _ _ _ _ _) as [args|?] eqn:Hargs; [|done].
  destruct (map_result PPC.apply_kernel args) as [stacked|?] eqn:Hrun;
    [|done].
  intros [= <- _]. exists sel, l1, l2, args, stacked. simpl.
  repeat (split; [done|]). by rewrite (invocations_ok _ _ Hrun).
Qed.

(** A validated request whose kernel invocations all return, returns. *)
Lemma compute_ok_intro ix q1 q2 n w sel l1 l2 args stacked :
  Process.normalise_indices (_n_chans (self w)) ix = Ok sel →
  Process.sort_freq (freqs (self w)) q1 = Ok l1 →
  Process.sort_freq (freqs (self w)) q2 = Ok l2 →
  PPC.make_args (data (self w)) (freqs (self w)) sel.1 sel.2 l1 l2
    = Ok args →
  map_result PPC.apply_kernel args = Ok stacked →
  ∃ w', PPC.compute ix q1 q2 n w = (w', Ok tt)
    ∧ self w' = PPC.after_compute (self w) sel l1 l2
                  (Process.cap_jobs (cpu_count w) n) stacked
    ∧ kernel_calls w' = kernel_calls w + length args.
Proof.
  intros Hix Hq1 Hq2 Hargs Hrun. rewrite compute_run. cbn zeta.
  rewrite Hix, Hq1, Hq2, Hargs, Hrun. eexists. split; [done|]. simpl.
  by rewrite (invocations_ok _ _ Hrun).
Qed.

(** The fill value survives stacking: where [f1[j] >= f2[i]] every
    connection holds NaN. *)
Lemma stacked_nan `{!ArithLaws A} (args : list PPC.kwargs)
    (stacked : list matrix) fs l1 l2 c (m : matrix) j i (v1 v2 : float64) :
  Forall (λ a, PPC.kw_freqs a = fs ∧ PPC.kw_f1s a = l1
               ∧ PPC.kw_f2s a = l2) args →
  map_result PPC.apply_kernel args = Ok stacked →
  stacked !! c = Some m → l1 !! j = Some v1 → l2 !! i = Some v2 →
  f_ge v1 v2 = true → get_item m i j = Some nan.
Proof.
  intros Hargs Hrun%map_result_ok Hm Hj Hi Hge.
  destruct (Forall2_lookup_r _ _ _ _ _ Hrun Hm) as (a & Ha & Hkernel).
  rewrite Forall_lookup in Hargs.
  destruct (Hargs c a Ha) as (_ & Ha1 & Ha2).
  unfold PPC.apply_kernel in Hkernel. rewrite Ha1, Ha2 in Hkernel.
  apply _compute_ppc_ok in Hkernel as [_ Hentries].
  specialize (Hentries j i v1 v2 Hj Hi).
  by rewrite (f_ge_not_lt _ _ Hge) in Hentries.
Qed.
End ComputeOutcomes.
(** ** Exact arithmetic: laws and the real-number reading of an entry *)

Section ExactFacts.
Import Exact.
Local Open Scope R_scope.

Lemma Rltb_true_iff (a b : R) : Rltb a b = true ↔ a < b.
Proof. unfold Rltb. destruct (Rlt_dec a b); split; (done || lra). Qed.
Lemma Rgeb_true_iff (a b : R) : Rgeb a b = true ↔ a >= b.
Proof. unfold Rgeb. destruct (Rge_dec a b); split; (done || lra). Qed.
Lemma Reqb_true_iff (a b : R) : Reqb a b = true ↔ a = b.
Proof. unfold Reqb. destruct (Req_dec_T a b); split; (done || lra). Qed.
Lemma Reqb_false_iff (a b : R) : Reqb a b = false ↔ a ≠ b.
Proof. unfold Reqb. destruct (Req_dec_T a b); split; (done || lra). Qed.

(** In exact arithmetic a comparison that holds is one of two reals. *)
Lemma f_lt_exact (x y : xreal) :
  f_lt x y = true ↔ ∃ a b, x = Xreal a ∧ y = Xreal b ∧ a < b.
Proof.
  destruct x as [|a], y as [|b]; simpl; split;
    try done; try (by intros (? & ? & [=] & _)); try (by intros (? & ? & _ & [=] & _)).
  - intros H%Rltb_true_iff. by exists a, b.
  - intros (? & ? & [= <-] & [= <-] & H). by apply Rltb_true_iff.
Qed.

Lemma f_eq_zero_exact (x : xreal) :
  f_eq x f_zero = true ↔ x = Xreal 0.
Proof.
  destruct x as [|a]; simpl; split; try done.
  - intros ->%Reqb_true_iff. done.
  - intros [= ->]. by apply Reqb_true_iff.
Qed.

Lemma INR_S_neq_0 (n : nat) : INR (S n) ≠ 0.
Proof. apply not_0_INR. lia. Qed.

Lemma x_div_INR (a : R) (n : nat) :
  x_div (Xreal a) (Xreal (INR (S n))) = Xreal (a / INR (S n)).
Proof.
  unfold x_div. destruct (Req_dec_T (INR (S n)) 0) as [H|_]; [|done].
  by apply INR_S_neq_0 in H.
Qed.

Lemma exact_laws : ArithLaws exact_arith.
Proof.
  split.
  - intros [|a] [|b]; simpl; try done.
    intros H%Rgeb_true_iff. unfold Rltb. destruct (Rlt_dec a b); [lra|done].
  - intros x y ->%f_eq_zero_exact (a & b & [= <-] & -> & Hlt)%f_lt_exact.
    apply f_lt_exact. by exists 0, b.
  - by apply f_eq_zero_exact.
  - intros x y ->%f_eq_zero_exact ->%f_eq_zero_exact.
    apply f_eq_zero_exact. simpl. f_equal. lra.
  - intros x n ->%f_eq_zero_exact. apply f_eq_zero_exact.
    change (x_div (Xreal 0) (Xreal (INR (S n))) = Xreal 0).
    rewrite x_div_INR. f_equal. unfold Rdiv. by rewrite Rmult_0_l.
Qed.

(** *** Sums of finite values *)

Lemma f_sum_exact (l : list R) : f_sum (Xreal <$> l) = Xreal (Rsum l).
Proof.
  unfold f_sum, Rsum. change f_zero with (Xreal 0). generalize 0.
  induction l as [|a l IH]; intros acc; simpl; [done|]. apply IH.
Qed.

Lemma c_sum_exact (l : list (R * R)) :
  c_sum (cx <$> l) = cx (Rsum l.*1, Rsum l.*2).
Proof.
  unfold c_sum, Rsum. change c_zero with (cx (0, 0)).
  generalize 0 at 1 3. generalize 0.
  induction l as [|[a b] l IH]; intros acc1 acc2; simpl; [done|].
  apply (IH (acc1 + b) (acc2 + a)).
Qed.

(** *** One epoch *)

Lemma c_abs_exact (z : R * R) : c_abs (cx z) = Xreal (modulus z).
Proof. done. Qed.

Lemma weighted_phasor_exact (m θ : R) :
  c_scale (Xreal m) (c_exp (j_mul (Xreal θ)))
  = cx (m * cos θ, m * sin θ).
Proof.
  simpl. unfold cx_mul, cx_exp, cx_of_real, cx. simpl. f_equal; f_equal.
  - replace (0 * θ - 1 * 0) with 0 by lra.
    replace (0 * 0 + 1 * θ) with θ by lra. rewrite exp_0. lra.
  - replace (0 * θ - 1 * 0) with 0 by lra.
    replace (0 * 0 + 1 * θ) with θ by lra. rewrite exp_0. lra.
Qed.

Lemma amplitude_products_exact (ss ts : list (R * R)) :
  amplitude_products (cx <$> ss) (cx <$> ts)
  = Xreal <$> zip_with weight ss ts.
Proof.
  rewrite amplitude_products_zip. revert ts.
  induction ss as [|s ss IH]; intros [|t ts]; simpl; [done..|].
  f_equal. apply IH.
Qed.

Lemma weighted_phasors_exact (ss ts : list (R * R)) (ratio : R) :
  weighted_phasors (amplitude_products (cx <$> ss) (cx <$> ts))
                   (phase_differences (cx <$> ss) (cx <$> ts) (Xreal ratio))
  = cx <$> zip_with (λ s t, (weight s t * cos (phase ratio s t),
                              weight s t * sin (phase ratio s t))) ss ts.
Proof.
  unfold weighted_phasors, phase_differences, amplitude_products.
  revert ts. induction ss as [|s ss IH]; intros [|t ts]; [done..|].
  cbn [fmap list_fmap zip_with]. rewrite IH. f_equal.
  apply (weighted_phasor_exact (weight s t) (phase ratio s t)).
Qed.

(** *** The bound *)

Lemma weight_nonneg (s t : R * R) : 0 <= weight s t.
Proof.
  unfold weight, modulus. apply Rmult_le_pos; apply sqrt_pos.
Qed.

(** Triangle inequality for the running sums of the weighted phasors. *)
Lemma phasor_sums_bound (ss ts : list (R * R)) (ratio aX aY aS : R) :
  aX * aX + aY * aY <= aS * aS → 0 <= aS →
  let X := foldl Rplus aX
    (zip_with (λ s t, weight s t * cos (phase ratio s t)) ss ts) in
  let Y := foldl Rplus aY
    (zip_with (λ s t, weight s t * sin (phase ratio s t)) ss ts) in
  let S := foldl Rplus aS (zip_with weight ss ts) in
  X * X + Y * Y <= S * S ∧ aS <= S.
Proof.
  revert ts aX aY aS.
  induction ss as [|s ss IH]; intros [|t ts] aX aY aS Hacc HaS;
    simpl; [lra..|].
  pose proof (weight_nonneg s t) as Hm.
  pose proof (sin2_cos2 (phase ratio s t)) as Hunit. unfold Rsqr in Hunit.
  set (m := weight s t) in *. set (c := cos (phase ratio s t)) in *.
  set (d := sin (phase ratio s t)) in *.
  assert (Hcs : (aX * c + aY * d) * (aX * c + aY * d) <= aS * aS).
  { pose proof (Rle_0_sqr (aX * d - aY * c)) as Hsq. unfold Rsqr in Hsq.
    nra. }
  assert (Hproj : aX * c + aY * d <= aS) by nra.
  destruct (IH ts (aX + m * c) (aY + m * d) (aS + m)) as [Hbound Hmono];
    [nra | lra |].
  split; [done | lra].
Qed.

Lemma weights_sum_grows (ss ts : list (R * R)) (acc : R) :
  acc <= foldl Rplus acc (zip_with weight ss ts)
  ∧ (Exists (λ p, p ≠ 0) (zip_with weight ss ts) →
     acc < foldl Rplus acc (zip_with weight ss ts)).
Proof.
  revert ts acc. induction ss as [|s ss IH]; intros [|t ts] acc; simpl;
    try (split; [lra | by intros ?%Exists_nil]).
  pose proof (weight_nonneg s t) as Hm.
  destruct (IH ts (acc + weight s t)) as [Hle Hlt].
  split; [lra|]. intros [Hnz|Hex]%Exists_cons.
  - lra.
  - specialize (Hlt Hex). lra.
Qed.

Lemma scalar_div_exact (a b : R) :
  b ≠ 0 → scalar_div (A := exact_arith) (Xreal a) (Xreal b) = Ok (Xreal (a / b)).
Proof.
  intros Hb. unfold scalar_div. simpl.
  rewrite (proj2 (Reqb_false_iff b 0) Hb). unfold x_div.
  by destruct (Req_dec_T b 0).
Qed.

Lemma f_mean_exact (l : list R) :
  l ≠ [] →
  f_mean (A := exact_arith) (Xreal <$> l)
  = Ok (Xreal (Rsum l / INR (length l))).
Proof.
  intros Hl. unfold f_mean. rewrite length_fmap.
  destruct l as [|a l]; [done|]. cbn [length].
  change (f_div ?x ?y) with (x_div x y).
  change (f_of_nat ?k) with (Xreal (INR k)).
  rewrite f_sum_exact. by rewrite x_div_INR.
Qed.

Lemma c_mean_exact (l : list (R * R)) :
  l ≠ [] →
  c_mean (A := exact_arith) (cx <$> l)
  = Ok (cx (Rsum l.*1 / INR (length l), Rsum l.*2 / INR (length l))).
Proof.
  intros Hl. unfold c_mean. rewrite length_fmap.
  destruct l as [|a l]; [done|]. cbn [length].
  rewrite c_sum_exact.
  change (c_div_f ?z ?y) with (x_div z.1 y, x_div z.2 y).
  cbn [fst snd cx]. change (f_of_nat ?k) with (Xreal (INR k)).
  by rewrite !x_div_INR.
Qed.

(** The value of lines 181-195 on finite columns, and its bound. *)
Lemma ppc_value_bounded (ss ts : list (R * R)) (f1 f2 : R) :
  f1 ≠ 0 → Exists (λ p, p ≠ 0) (zip_with weight ss ts) →
  ∃ r, ppc_value (cx <$> ss) (cx <$> ts) (Xreal f1) (Xreal f2)
       = Ok (Xreal r) ∧ 0 <= r <= 1.
Proof.
  intros Hf1 Hex. unfold ppc_value.
  rewrite (scalar_div_exact f2 f1 Hf1). cbn [mbind result_bind].
  rewrite weighted_phasors_exact, amplitude_products_exact.
  set (ratio := f2 / f1).
  set (ws := zip_with weight ss ts) in *.
  set (zs := zip_with (λ s t, (weight s t * cos (phase ratio s t),
                               weight s t * sin (phase ratio s t))) ss ts).
  assert (Hlen : length zs = length ws).
  { unfold zs, ws. by rewrite !length_zip_with. }
  assert (Hws : ws ≠ []) by (intros Heq; rewrite Heq in Hex; by apply Exists_nil in Hex).
  assert (Hzs : zs ≠ []).
  { intros Heq. rewrite Heq in Hlen. by destruct ws. }
  rewrite (c_mean_exact zs Hzs), (f_mean_exact ws Hws), Hlen.
  cbn [mbind result_bind]. rewrite c_abs_exact.
  assert (Hfst : zs.*1
            = zip_with (λ s t, weight s t * cos (phase ratio s t)) ss ts).
  { unfold zs. clear. revert ts.
    induction ss as [|s ss IH]; intros [|t ts]; simpl; [done..|].
    f_equal. apply IH. }
  assert (Hsnd : zs.*2
            = zip_with (λ s t, weight s t * sin (phase ratio s t)) ss ts).
  { unfold zs. clear. revert ts.
    induction ss as [|s ss IH]; intros [|t ts]; simpl; [done..|].
    f_equal. apply IH. }
  rewrite Hfst, Hsnd. unfold Rsum.
  destruct (phasor_sums_bound ss ts ratio 0 0 0) as [Hbound _]; [lra..|].
  destruct (weights_sum_grows ss ts 0) as [_ Hpos]. specialize (Hpos Hex).
  fold ws in Hbound, Hpos.
  set (X := foldl Rplus 0
    (zip_with (λ s t, weight s t * cos (phase ratio s t)) ss ts)) in *.
  set (Y := foldl Rplus 0
    (zip_with (λ s t, weight s t * sin (phase ratio s t)) ss ts)) in *.
  set (S := foldl Rplus 0 ws) in *.
  assert (Hn : 0 < INR (length ws)).
  { apply lt_0_INR. destruct ws; [done | simpl; lia]. }
  set (n := INR (length ws)) in *.
  assert (Hin : 0 < / n) by (by apply Rinv_0_lt_compat).
  assert (HD : 0 < S / n) by (unfold Rdiv; nra).
  rewrite scalar_div_exact; [|lra]. eexists. split; [done|].
  unfold modulus. cbn [fst snd].
  assert (Hnum : sqrt (X / n * (X / n) + Y / n * (Y / n)) <= S / n).
  { replace (S / n) with (sqrt (S / n * (S / n)))
      by (apply sqrt_square; lra).
    apply sqrt_le_1_alt. unfold Rdiv.
    replace (X * / n * (X * / n) + Y * / n * (Y * / n))
      with ((X * X + Y * Y) * (/ n * / n)) by ring.
    replace (S * / n * (S * / n)) with (S * S * (/ n * / n)) by ring.
    apply Rmult_le_compat_r; [nra | done]. }
  pose proof (sqrt_pos (X / n * (X / n) + Y / n * (Y / n))) as Hnonneg.
  set (N := sqrt _) in *. set (D := S / n) in *.
  assert (HiD : 0 < / D) by (by apply Rinv_0_lt_compat).
  assert (HDiD : D * / D = 1) by (apply Rinv_r; lra).
  unfold Rdiv. split; nra.
Qed.
End ExactFacts.

(** ** Columns of a connection slice *)

Section ColumnFacts.
Context {A : Arith}.

(** What holds for every coefficient holds along a column. *)
Lemma take_column_Forall (P : complex128 → Prop) (data : tensor)
    (ch k : nat) (col : list complex128) :
  Forall (Forall (Forall P)) data → take_column data ch k = Ok col →
  Forall P col ∧ length col = length data.
Proof.
  unfold take_column. intros Hdata Hcol%map_result_ok.
  induction Hcol as [|epoch z data col Hz _ IH]; [done|].
  apply Forall_cons_1 in Hdata as [Hepoch Hdata].
  destruct (IH Hdata) as [Hcol Hlen]. split; [|simpl; by rewrite Hlen].
  constructor; [|done].
  destruct (epoch !! ch) as [row|] eqn:Hrow; simpl in Hz; [|done].
  destruct (row !! k) as [z'|] eqn:Hz'; simpl in Hz; [|done].
  injection Hz as <-.
  rewrite Forall_lookup in Hepoch. specialize (Hepoch ch row Hrow).
  rewrite Forall_lookup in Hepoch. by apply (Hepoch k).
Qed.
End ColumnFacts.

(** ** Exact arithmetic: a bounded score *)

Section ExactEntry.
Import Exact.
Local Open Scope R_scope.

Lemma finite_column (col : list xcomplex) :
  Forall finite_c col → ∃ zs : list (R * R), col = cx <$> zs.
Proof.
  induction 1 as [|z col [ab ->] _ [zs ->]]; [by exists []|].
  by exists (ab :: zs).
Qed.

Lemma Exists_nonzero_exact (ws : list R) :
  Exists (λ p : xreal, f_eq p f_zero = false) (Xreal <$> ws) →
  Exists (λ p, p ≠ 0) ws.
Proof.
  induction ws as [|w ws IH]; simpl; [by intros ?%Exists_nil|].
  intros [Hw|Hws]%Exists_cons.
  - left. by apply Reqb_false_iff.
  - right. by apply IH.
Qed.

(** In exact arithmetic a computed entry is a real number of [[0, 1]]. *)
Lemma ppc_entry_bounded (data : tensor) (freqs : list xreal)
    (f1 f2 : xreal) :
  finite_data data → f_lt f1 f2 = true → f_eq f1 f_zero = false →
  amplitudes_nonzero data freqs f1 f2 →
  ∃ r, ppc_entry data freqs f1 f2 = Ok (Xreal r) ∧ 0 <= r <= 1.
Proof.
  intros Hfin (a & b & -> & -> & Hlt)%f_lt_exact Hnz
    (k1 & k2 & seed & target & Hk1 & Hseed & Hk2 & Htarget & Hex).
  destruct (take_column_Forall (A := exact_arith) finite_c _ _ _ _
              Hfin Hseed) as [Hfs _].
  destruct (take_column_Forall (A := exact_arith) finite_c _ _ _ _
              Hfin Htarget) as [Hft _].
  apply finite_column in Hfs as [ss ->]. apply finite_column in Hft as [ts ->].
  rewrite amplitude_products_exact in Hex. apply Exists_nonzero_exact in Hex.
  apply Reqb_false_iff in Hnz.
  destruct (ppc_value_bounded ss ts a b Hnz Hex) as (r & Hr & Hbound).
  exists r. split; [|done]. unfold ppc_entry.
  rewrite Hk1. cbn [mbind result_bind]. rewrite Hseed.
  cbn [mbind result_bind]. rewrite Hk2. cbn [mbind result_bind].
  by rewrite Htarget.
Qed.
End ExactEntry.

(** ** The scenario *)

Section ScenarioFacts.
Import Exact Scenario.
Local Open Scope R_scope.

Lemma modulus_one : modulus (1, 0) = 1.
Proof.
  unfold modulus. simpl. replace (1 * 1 + 0 * 0) with 1 by lra.
  apply sqrt_1.
Qed.

Lemma modulus_zero : modulus (0, 0) = 0.
Proof.
  unfold modulus. simpl. replace (0 * 0 + 0 * 0) with 0 by lra.
  apply sqrt_0.
Qed.

(** Membership on an axis of reals. *)
Lemma member_exact (l : list R) (a : R) :
  member (A := exact_arith) (Xreal <$> l) (Xreal a) = true ↔ a ∈ l.
Proof.
  unfold member. induction l as [|b l IH]; simpl.
  - split; [done | by intros ?%elem_of_nil].
  - rewrite orb_true_iff, IH, Reqb_true_iff, elem_of_cons.
    split; (intros [H|H]; [left | right]); done.
Qed.

Lemma not_member_exact (l : list R) (a : R) :
  Forall (λ b, b ≠ a) l →
  member (A := exact_arith) (Xreal <$> l) (Xreal a) = false.
Proof.
  intros Hl. destruct (member _ _) eqn:Hmem; [|done].
  apply member_exact in Hmem.
  by destruct (proj1 (Forall_forall _ _) Hl a Hmem).
Qed.

Lemma on_axis_exact (l q : list R) :
  q ⊆ l → on_axis (A := exact_arith) (Xreal <$> l) (Xreal <$> q).
Proof.
  intros Hq. apply Forall_fmap, Forall_forall. intros a Ha.
  apply member_exact. by apply Hq.
Qed.

Lemma uniform_shaped (z : xcomplex) :
  connection_shaped (A := exact_arith)
    (replicate 4 (replicate 2 (replicate 5 z))) 5.
Proof.
  apply Forall_replicate. exists (replicate 5 z), (replicate 5 z), []. done.
Qed.

Lemma recording_finite : finite_data recording.
Proof.
  unfold recording. do 3 apply Forall_replicate. by exists (1, 0).
Qed.

(** The columns of a recording with one coefficient throughout. *)
Lemma uniform_columns (z : xcomplex) (fs : list xreal) (f1 f2 : xreal) :
  length fs = 5%nat →
  member (A := exact_arith) fs f1 = true →
  member (A := exact_arith) fs f2 = true →
  ∃ k1 k2,
    fast_find_first (A := exact_arith) fs f1 = Ok k1
    ∧ take_column (A := exact_arith)
        (replicate 4 (replicate 2 (replicate 5 z))) 0 k1
      = Ok (replicate 4 z)
    ∧ fast_find_first (A := exact_arith) fs f2 = Ok k2
    ∧ take_column (A := exact_arith)
        (replicate 4 (replicate 2 (replicate 5 z))) 1 k2
      = Ok (replicate 4 z).
Proof.
  intros Hlen (k1 & Hk1 & Hlt1)%fast_find_first_member
              (k2 & Hk2 & Hlt2)%fast_find_first_member.
  exists k1, k2.
  assert (Hk1' : (k1 < 5)%nat) by (rewrite <- Hlen; exact Hlt1).
  assert (Hk2' : (k2 < 5)%nat) by (rewrite <- Hlen; exact Hlt2).
  assert (Hcol : ∀ ch k, (ch < 2)%nat → (k < 5)%nat →
    take_column (A := exact_arith)
      (replicate 4 (replicate 2 (replicate 5 z))) ch k
    = Ok (replicate 4 z)).
  { intros ch k Hch Hk.
    destruct ch as [|[|ch]]; [| |lia];
      destruct k as [|[|[|[|[|k]]]]]; try lia; reflexivity. }
  repeat split; auto.
Qed.

(** Every pair on the axis has a nonzero amplitude product. *)
Lemma recording_amplitudes (fs : list xreal) (f1 f2 : xreal) :
  length fs = 5%nat →
  member (A := exact_arith) fs f1 = true →
  member (A := exact_arith) fs f2 = true →
  amplitudes_nonzero (A := exact_arith) recording fs f1 f2.
Proof.
  intros Hlen Hf1 Hf2.
  destruct (uniform_columns one fs f1 f2 Hlen Hf1 Hf2)
    as (k1 & k2 & Hk1 & Hseed & Hk2 & Htarget).
  exists k1, k2, (replicate 4 one), (replicate 4 one).
  repeat (split; [done|]).
  left. change (Reqb (modulus (1, 0) * modulus (1, 0)) 0 = false).
  rewrite modulus_one. apply Reqb_false_iff. lra.
Qed.

(** In the silent recording every amplitude product is zero. *)
Lemma silence_amplitudes (fs : list xreal) (f1 f2 : xreal) :
  length fs = 5%nat →
  member (A := exact_arith) fs f1 = true →
  member (A := exact_arith) fs f2 = true →
  amplitudes_zero (A := exact_arith) silence fs f1 f2.
Proof.
  intros Hlen Hf1 Hf2.
  destruct (uniform_columns zero fs f1 f2 Hlen Hf1 Hf2)
    as (k1 & k2 & Hk1 & Hseed & Hk2 & Htarget).
  exists k1, k2, (replicate 4 zero), (replicate 4 zero).
  repeat (split; [done|]).
  repeat constructor;
    change (Reqb (modulus (0, 0) * modulus (0, 0)) 0 = true);
    rewrite modulus_zero; apply Reqb_true_iff; lra.
Qed.

(** The kernel returns on the recording for any grids on the axis. *)
Lemma recording_kernel_returns (q1 q2 : list R) :
  q1 ⊆ [1; 2; 3; 4; 5] → q2 ⊆ [1; 2; 3; 4; 5] →
  ∃ results,
    _compute_ppc (A := exact_arith) recording axis
      (Xreal <$> q1) (Xreal <$> q2) = Ok results.
Proof.
  intros Hq1 Hq2. apply _compute_ppc_returns.
  intros f1 f2 (a & -> & Ha)%list_elem_of_fmap
    (b & -> & Hb)%list_elem_of_fmap Hlt.
  destruct (ppc_entry_bounded recording axis (Xreal a) (Xreal b))
    as (r & Hr & _).
  - apply recording_finite.
  - done.
  - apply Reqb_false_iff. apply Hq1 in Ha.
    assert (Hpos : Forall (λ x, x ≠ 0) [1; 2; 3; 4; 5])
      by (repeat constructor; lra).
    by apply (proj1 (Forall_forall _ _) Hpos).
  - apply recording_amplitudes; [done | |]; apply member_exact; auto.
  - by exists (Xreal r).
Qed.

(** [compute()] with all defaults returns on the scenario. *)
Lemma start_compute_returns :
  ∃ w' stacked,
    PPC.compute None None None 1 start = (w', Ok tt)
    ∧ self w' = PPC.after_compute (self start)
                  ((Process.all_pairs 2).*1, (Process.all_pairs 2).*2)
                  axis axis 1 stacked
    ∧ kernel_calls w' = 4%nat.
Proof.
  destruct (recording_kernel_returns [1; 2; 3; 4; 5] [1; 2; 3; 4; 5])
    as [m Hm]; [done..|].
  destruct (compute_ok_intro (A := exact_arith) None None None 1 start
              ((Process.all_pairs 2).*1, (Process.all_pairs 2).*2)
              axis axis
              (replicate 4 (PPC.mkKwargs (A := exact_arith)
                              recording axis axis axis))
              (replicate 4 m))
    as (w' & Hrun & Hself & Hcalls); [done.. | |].
  - apply map_result_replicate. exact Hm.
  - exists w', (replicate 4 m). by repeat split.
Qed.

(** The first position of a value on an axis of reals. *)
Lemma first_index_exact (l : list R) (a : R) (k : nat) :
  l !! k = Some a → Forall (λ b, b ≠ a) (take k l) →
  first_index (A := exact_arith) (Xreal <$> l) (Xreal a) k.
Proof.
  intros Hk Hbefore. split.
  - exists (Xreal a). rewrite list_lookup_fmap, Hk. split; [done|].
    by apply Reqb_true_iff.
  - intros k' v' Hlt Hv'. rewrite list_lookup_fmap in Hv'.
    destruct (l !! k') as [b|] eqn:Hb; [|done]. injection Hv' as <-.
    apply Reqb_false_iff. rewrite Forall_lookup in Hbefore.
    apply (Hbefore k'). by rewrite lookup_take_lt.
Qed.

(** *** Real coefficients *)

Lemma modulus_real (a : R) : modulus (a, 0) = Rabs a.
Proof.
  unfold modulus. cbn [fst snd].
  replace (a * a + 0 * 0) with (a²) by (unfold Rsqr; lra).
  apply sqrt_Rsqr_abs.
Qed.

(** [np.angle(a + 0j, True)] is 0 for [a > 0] and 180 for [a < 0]. *)
Lemma angle_deg_positive (a : R) : 0 < a → angle_deg (a, 0) = 0.
Proof.
  intros Ha. unfold angle_deg, atan2. cbn [fst snd].
  destruct (Rlt_dec 0 a); [|lra].
  unfold Rdiv. by rewrite Rmult_0_l, atan_0, !Rmult_0_l.
Qed.

Lemma angle_deg_negative (a : R) : a < 0 → angle_deg (a, 0) = 180.
Proof.
  intros Ha. unfold angle_deg, atan2. cbn [fst snd].
  destruct (Rlt_dec 0 a); [lra|]. destruct (Rlt_dec a 0); [|lra].
  destruct (Rle_dec 0 0); [|lra].
  unfold Rdiv. rewrite Rmult_0_l, atan_0, Rplus_0_l.
  field. apply PI_neq0.
Qed.

Lemma real_nonzero (a : R) : a ≠ 0 → nonzero_c (real_c a).
Proof.
  intros Ha. exists (a, 0). split; [done|]. rewrite modulus_real.
  by apply Rabs_no_R0.
Qed.

(** *** Recordings without a silent coefficient *)

Lemma nonzero_column (col : list xcomplex) :
  Forall nonzero_c col →
  ∃ ss : list (R * R), col = cx <$> ss ∧ Forall (λ s, modulus s ≠ 0) ss.
Proof.
  induction 1 as [|z col (ab & -> & Hab) _ (ss & -> & Hss)]; [by exists []|].
  exists (ab :: ss). split; [done | by constructor].
Qed.

Lemma nonzero_data_shaped (n : nat) (data : list (list (list xcomplex))) :
  nonzero_data n data →
  connection_shaped (A := exact_arith) data n
  ∧ Forall (Forall (Forall nonzero_c)) data.
Proof.
  intros Hdata. split.
  - eapply Forall_impl; [exact Hdata|]. intros epoch [Hlen Hchans].
    destruct epoch as [|seed [|target [|? ?]]]; try done.
    apply Forall_cons_1 in Hchans as [[Hs _] Hchans].
    apply Forall_cons_1 in Hchans as [[Ht _] _].
    by exists seed, target, [].
  - eapply Forall_impl; [exact Hdata|]. intros epoch [_ Hchans].
    eapply Forall_impl; [exact Hchans|]. by intros chan [_ Hchan].
Qed.

(** On such data every entry of a pair on the axis is computed. *)
Lemma nonzero_entry_returns (data : list (list (list xcomplex)))
    (l : list R) (a b : R) :
  nonzero_data (length l) data → data ≠ [] → a ∈ l → b ∈ l → a ≠ 0 →
  ∃ r, ppc_entry (A := exact_arith) data (Xreal <$> l) (Xreal a) (Xreal b)
       = Ok (Xreal r).
Proof.
  intros Hdata Hne Ha Hb Hnz.
  destruct (nonzero_data_shaped _ _ Hdata) as [Hshape Hpos].
  destruct (ppc_entry_columns (A := exact_arith) data (Xreal <$> l)
              (Xreal a) (Xreal b))
    as (k1 & k2 & seed & target & _ & Hseed & _ & Htarget & ->).
  - by rewrite length_fmap.
  - by apply member_exact.
  - by apply member_exact.
  - destruct (take_column_Forall (A := exact_arith) nonzero_c _ _ _ _
                Hpos Hseed) as [Hs Hls].
    destruct (take_column_Forall (A := exact_arith) nonzero_c _ _ _ _
                Hpos Htarget) as [Ht Hlt].
    apply nonzero_column in Hs as (ss & -> & Hss).
    apply nonzero_column in Ht as (ts & -> & Hts).
    rewrite length_fmap in Hls, Hlt.
    destruct (ppc_value_bounded ss ts a b Hnz) as (r & Hr & _);
      [|by exists r].
    destruct ss as [|s ss]; [by destruct data|].
    destruct ts as [|t ts]; [by destruct data|].
    apply Forall_cons_1 in Hss as [Hs _]. apply Forall_cons_1 in Hts as [Ht _].
    left. unfold weight. by apply Rmult_integral_contrapositive.
Qed.

Lemma nonzero_kernel_returns (data : list (list (list xcomplex)))
    (l q1 q2 : list R) :
  nonzero_data (length l) data → data ≠ [] → Forall (λ x, x ≠ 0) l →
  q1 ⊆ l → q2 ⊆ l →
  ∃ results,
    _compute_ppc (A := exact_arith) data (Xreal <$> l)
      (Xreal <$> q1) (Xreal <$> q2) = Ok results.
Proof.
  intros Hdata Hne Hl Hq1 Hq2. apply _compute_ppc_returns.
  intros f1 f2 (a & -> & Ha)%list_elem_of_fmap
    (b & -> & Hb)%list_elem_of_fmap _.
  destruct (nonzero_entry_returns data l a b) as [r Hr]; auto.
  - by apply (proj1 (Forall_forall _ _) Hl), Hq1.
  - by exists (Xreal r).
Qed.



(** *** The second recording *)

Lemma ramp_channels : Forall (Forall (nonzero_channel 3)) ramp.
Proof.
  repeat constructor; apply real_nonzero; lra.
Qed.

Lemma ramp_axis_nonzero : Forall (λ x, x ≠ 0) [1; 2; 3].
Proof. repeat constructor; lra. Qed.

Lemma ramp_nonzero : nonzero_data 3 ramp.
Proof.
  pose proof ramp_channels as Hchans. unfold ramp in *.
  apply Forall_cons_1 in Hchans as [H0 Hchans].
  apply Forall_cons_1 in Hchans as [H1 _].
  constructor; [by split|]. constructor; [by split | constructor].
Qed.

(** The entry of the pair [(2, 3)]: the seed coefficients [2, 8] have the
    phase 0, the target coefficients [6, -12] the phases 0 and 180, so the
    weights 12 and 96 meet the phasors [exp(0j)] and [exp(-180j)]. *)
Lemma ramp_entry_value :
  ppc_value (A := exact_arith) (real_c <$> [2; 8]) (real_c <$> [6; -12])
    (Xreal 2) (Xreal 3)
  = Ok (Xreal (modulus ((12 + 96 * cos 180) / 2, - (96 * sin 180) / 2)
               / 54)).
Proof.
  change (real_c <$> [2; 8]) with (cx <$> [(2, 0); (8, 0)]).
  change (real_c <$> [6; -12]) with (cx <$> [(6, 0); (-12, 0)]).
  assert (Hw1 : weight (2, 0) (6, 0) = 12).
  { unfold weight. rewrite !modulus_real, !Rabs_pos_eq; lra. }
  assert (Hw2 : weight (8, 0) (-12, 0) = 96).
  { unfold weight. rewrite !modulus_real, Rabs_pos_eq, Rabs_left; lra. }
  assert (Hp1 : phase (3 / 2) (2, 0) (6, 0) = 0).
  { unfold phase. rewrite !angle_deg_positive; lra. }
  assert (Hp2 : phase (3 / 2) (8, 0) (-12, 0) = Ropp 180).
  { unfold phase. rewrite angle_deg_positive, angle_deg_negative; lra. }
  unfold ppc_value.
  rewrite (scalar_div_exact 3 2); [|lra]. cbn [mbind result_bind].
  rewrite weighted_phasors_exact, amplitude_products_exact.
  cbn [zip_with]. rewrite Hw1, Hw2, Hp1, Hp2.
  rewrite c_mean_exact, f_mean_exact; [|done..].
  cbn [mbind result_bind]. rewrite c_abs_exact.
  unfold Rsum. cbn [fmap list_fmap foldl fst snd length].
  rewrite cos_0, sin_0, cos_neg, sin_neg.
  replace (INR 2) with 2 by (simpl; lra).
  rewrite scalar_div_exact; [|lra]. do 2 f_equal.
  unfold Rdiv. f_equal; [|lra]. f_equal. f_equal; lra.
Qed.

End ScenarioFacts.

(** ** Divisions by zero *)

Section ZeroDivisions.
Context {A : Arith}.

(** A pair [f1 < f2] with [f1 == 0] stops the kernel. *)
Lemma _compute_ppc_zero_f1 (data : tensor) (freqs f1s f2s : list float64)
    (j i : nat) (f1 f2 : float64) :
  connection_shaped data (length freqs) →
  on_axis freqs f1s → on_axis freqs f2s →
  f1s !! j = Some f1 → f2s !! i = Some f2 →
  f_eq f1 f_zero = true → f_lt f1 f2 = true →
  _compute_ppc data freqs f1s f2s = Raise ZeroDivisionError.
Proof.
  intros Hshape Hf1s Hf2s Hj Hi Hzero Hlt.
  apply (_compute_ppc_entry_raises data freqs f1s f2s j i f1 f2
           ZeroDivisionError); try done.
  destruct (ppc_entry_columns data freqs f1 f2)
    as (k1 & k2 & seed & target & _ & _ & _ & _ & ->); [done| | |].
  - eapply (proj1 (Forall_lookup _ _) Hf1s); eauto.
  - eapply (proj1 (Forall_lookup _ _) Hf2s); eauto.
  - by apply ppc_value_zero_f1.
Qed.

(** A pair [f1 < f2] whose amplitude products all vanish stops it too. *)
Lemma _compute_ppc_zero_amplitudes `{!ArithLaws A} (data : tensor)
    (freqs f1s f2s : list float64) (j i : nat) (f1 f2 : float64) :
  connection_shaped data (length freqs) →
  on_axis freqs f1s → on_axis freqs f2s →
  f1s !! j = Some f1 → f2s !! i = Some f2 → f_lt f1 f2 = true →
  amplitudes_zero data freqs f1 f2 →
  _compute_ppc data freqs f1s f2s = Raise ZeroDivisionError.
Proof.
  intros Hshape Hf1s Hf2s Hj Hi Hlt
    (k1 & k2 & seed & target & Hk1 & Hseed & Hk2 & Htarget & Hzero).
  apply (_compute_ppc_entry_raises data freqs f1s f2s j i f1 f2
           ZeroDivisionError); try done.
  unfold ppc_entry. rewrite Hk1. cbn [mbind result_bind]. rewrite Hseed.
  cbn [mbind result_bind]. rewrite Hk2. cbn [mbind result_bind].
  rewrite Htarget. cbn [mbind result_bind].
  by apply ppc_value_zero_amplitudes.
Qed.
End ZeroDivisions.

(** ** Requests *)

Section Requests.
Context {A : Arith}.

Lemma valid_freqs_false (axis l : list float64) (v : float64) :
  v ∈ l → member axis v = false → Process.valid_freqs axis l = false.
Proof.
  intros Hv Hmem. unfold Process.valid_freqs.
  destruct (forallb (member axis) l) eqn:Hall; [|done].
  rewrite forallb_forall in Hall.
  rewrite (Hall v) in Hmem; [done|]. by apply list_elem_of_In.
Qed.

Lemma sort_freq_rejects (axis l : list float64) (v : float64) :
  v ∈ l → member axis v = false →
  Process.sort_freq axis (Some l) = Raise ValueError.
Proof.
  intros Hv Hmem. unfold Process.sort_freq.
  by rewrite (valid_freqs_false axis l v).
Qed.

End Requests.

Lemma subseteq_Forall {X} (l k : list X) : Forall (λ a, a ∈ k) l → l ⊆ k.
Proof. intros H a Ha. by apply (proj1 (Forall_forall _ _) H). Qed.

(** * The claims *)

Import Exact Scenario.

(** C1: for a connection slice [data] of shape [[epochs, 2, len(freqs)]]
    and query grids whose values are on the axis, whenever the kernel
    returns [results], for a pair [f1 = f1s[j]], [f2 = f2s[i]] with [f1 < f2]
    the entry [results[i, j]] is the magnitude of the epoch-average of
    [|seed_f1| * |target_f2| * exp(i * (angle_deg(seed_f1) * (f2/f1) - angle_deg(target_f2)))]
    divided by the epoch-average of [|seed_f1| * |target_f2|], where
    [seed_f1] holds, for every epoch, the coefficient of channel 0 (the
    seed) at the first index of [f1] on the axis and [target_f2] the
    coefficient of channel 1 (the target) at the first index of [f2]. *)
Theorem kernel_entry_is_formula {A : Arith} (data : tensor)
    (freqs f1s f2s : list float64) (results : matrix) (j i : nat)
    (f1 f2 : float64) :
  connection_shaped data (length freqs) →
  on_axis freqs f1s → on_axis freqs f2s →
  _compute_ppc data freqs f1s f2s = Ok results →
  f1s !! j = Some f1 → f2s !! i = Some f2 → f_lt f1 f2 = true →
  ∃ k1 k2 seed_f1 target_f2,
    first_index freqs f1 k1 ∧ first_index freqs f2 k2
    ∧ Forall2 (λ epoch s, ∃ seed, epoch !! 0 = Some seed ∧ seed !! k1 = Some s)
              data seed_f1
    ∧ Forall2 (λ epoch t, ∃ target,
                 epoch !! 1 = Some target ∧ target !! k2 = Some t)
              data target_f2
    ∧ get_item results i j = Some (ppc_formula seed_f1 target_f2 f1 f2).
Proof.
  intros Hshape Hf1s Hf2s Hrun Hj Hi Hlt.
  apply _compute_ppc_ok in Hrun as [_ Hentries].
  specialize (Hentries j i f1 f2 Hj Hi). rewrite Hlt in Hentries.
  destruct Hentries as (v & Hv & Hget).
  destruct (ppc_entry_columns data freqs f1 f2 Hshape)
    as (k1 & k2 & seed & target & Hk1 & Hseed & Hk2 & Htarget & Heq).
  - by apply (proj1 (Forall_lookup _ _) Hf1s j).
  - by apply (proj1 (Forall_lookup _ _) Hf2s i).
  - rewrite Heq in Hv. apply ppc_value_ok in Hv as ->.
    exists k1, k2, seed, target.
    split; [by apply fast_find_first_ok|].
    split; [by apply fast_find_first_ok|].
    split; [by apply take_column_lookups|].
    split; [by apply take_column_lookups | done].
Qed.

(** The second recording, [f1 = [1, 2]], [f2 = [2, 3]]: the entry of the
    pair [(2, 3)] is the formula on the seed coefficients [2, 8] (channel 0
    at 2 Hz, both epochs) and the target coefficients [6, -12] (channel 1
    at 3 Hz); with the weights 12 and 96 and the phase differences 0 and
    -180 its value is [|12 + 96 exp(-180j)| / 108], about 0.83. *)
Lemma kernel_entry_is_formula_witness :
  ∃ results,
    _compute_ppc (A := exact_arith) ramp ramp_axis
      (Xreal <$> [1; 2]%R) (Xreal <$> [2; 3]%R) = Ok results
    ∧ get_item (A := exact_arith) results 1 1
      = Some (ppc_formula (A := exact_arith) (real_c <$> [2; 8]%R)
                (real_c <$> [6; -12]%R) (Xreal 2) (Xreal 3))
    ∧ get_item (A := exact_arith) results 1 1
      = Some (Xreal (modulus ((12 + 96 * cos 180) / 2,
                              - (96 * sin 180) / 2) / 54)%R).
Proof.
  destruct (nonzero_kernel_returns ramp [1; 2; 3]%R [1; 2]%R [2; 3]%R)
    as [results Hrun].
  - apply ramp_nonzero.
  - discriminate.
  - apply ramp_axis_nonzero.
  - apply subseteq_Forall. repeat constructor.
  - apply subseteq_Forall. repeat constructor.
  - exists results. split; [exact Hrun|].
    destruct (kernel_entry_is_formula (A := exact_arith) ramp ramp_axis
                (Xreal <$> [1; 2]%R) (Xreal <$> [2; 3]%R) results 1 1
                (Xreal 2) (Xreal 3))
      as (k1 & k2 & seed & target & Hk1 & Hk2 & Hseed & Htarget & Hget).
    + exact (proj1 (nonzero_data_shaped 3 ramp ramp_nonzero)).
    + apply (on_axis_exact [1; 2; 3]%R [1; 2]%R).
      apply subseteq_Forall. repeat constructor.
    + apply (on_axis_exact [1; 2; 3]%R [2; 3]%R).
      apply subseteq_Forall. repeat constructor.
    + exact Hrun.
    + reflexivity.
    + reflexivity.
    + apply Rltb_true_iff. lra.
    + assert (k1 = 1) as ->.
      { apply (first_index_unique (A := exact_arith) ramp_axis (Xreal 2));
          [exact Hk1|].
        apply (first_index_exact [1; 2; 3]%R 2%R 1); [reflexivity|].
        repeat constructor. simpl. lra. }
      assert (k2 = 2) as ->.
      { apply (first_index_unique (A := exact_arith) ramp_axis (Xreal 3));
          [exact Hk2|].
        apply (first_index_exact [1; 2; 3]%R 3%R 2); [reflexivity|].
        repeat constructor; simpl; lra. }
      apply (proj2 (take_column_lookups (A := exact_arith) _ _ _ _)) in Hseed.
      apply (proj2 (take_column_lookups (A := exact_arith) _ _ _ _))
        in Htarget.
      change (Ok (real_c <$> [2; 8]%R) = Ok seed) in Hseed.
      change (Ok (real_c <$> [6; -12]%R) = Ok target) in Htarget.
      injection Hseed as <-. injection Htarget as <-.
      split; [exact Hget|]. rewrite Hget. f_equal. symmetry.
      apply (ppc_value_ok (A := exact_arith)). exact ramp_entry_value.
Defined.

(** C2: whenever the kernel returns, every entry with [f1s[j] >= f2s[i]] is
    NaN; and after a [compute] that returned, for every connection [c] the
    stacked array holds NaN at [[c, i, j]] whenever [f1[j] >= f2[i]]. *)
Theorem invalid_pairs_are_nan {A : Arith} `{!ArithLaws A} :
  (∀ (data : tensor) (freqs f1s f2s : list float64) (results : matrix)
     (j i : nat) (f1 f2 : float64),
     _compute_ppc data freqs f1s f2s = Ok results →
     f1s !! j = Some f1 → f2s !! i = Some f2 → f_ge f1 f2 = true →
     get_item results i j = Some nan)
  ∧ (∀ ix q1 q2 n (w w' : world) (l1 l2 : list float64)
       (stacked : list matrix) (c : nat) (m : matrix) (j i : nat)
       (v1 v2 : float64),
       PPC.compute ix q1 q2 n w = (w', Ok tt) →
       f1 (self w') = Some l1 → f2 (self w') = Some l2 →
       _ppc (self w') = Some stacked → stacked !! c = Some m →
       l1 !! j = Some v1 → l2 !! i = Some v2 → f_ge v1 v2 = true →
       get_item m i j = Some nan).
Proof.
  split.
  - intros data freqs f1s f2s results j i f1 f2 Hrun Hj Hi Hge.
    apply _compute_ppc_ok in Hrun as [_ Hentries].
    specialize (Hentries j i f1 f2 Hj Hi).
    by rewrite (f_ge_not_lt _ _ Hge) in Hentries.
  - intros ix q1 q2 n w w' l1 l2 stacked c m j i v1 v2 Hrun Hl1 Hl2 Hppc
      Hm Hj Hi Hge.
    apply compute_ok_inv in Hrun
      as (sel & g1 & g2 & args & st & _ & _ & _ & Hargs & Hst & Hself & _).
    rewrite Hself in Hl1, Hl2, Hppc. simpl in Hl1, Hl2, Hppc.
    injection Hl1 as <-. injection Hl2 as <-. injection Hppc as <-.
    apply make_args_ok in Hargs as [_ Hargs].
    by eapply stacked_nan.
Qed.

(** Scenario of spec 8 with the full axis as both grids: the pair
    [(f1, f2) = (3, 2)], for the kernel and for every connection of
    [compute()]. *)
Lemma invalid_pairs_are_nan_witness :
  (∃ results,
     _compute_ppc (A := exact_arith) recording axis axis axis = Ok results
     ∧ get_item results 1 2 = Some Xnan)
  ∧ (∃ w' stacked,
       PPC.compute None None None 1 start = (w', Ok tt)
       ∧ _ppc (self w') = Some stacked
       ∧ ∀ c m, stacked !! c = Some m → get_item m 1 2 = Some Xnan).
Proof.
  destruct (invalid_pairs_are_nan (A := exact_arith) (ArithLaws0 := exact_laws))
    as [Hkernel Hstack].
  split.
  - destruct (recording_kernel_returns [1; 2; 3; 4; 5]%R [1; 2; 3; 4; 5]%R)
      as [results Hrun]; [done..|].
    exists results. split; [exact Hrun|].
    apply (Hkernel recording axis axis axis results 2 1 (Xreal 3) (Xreal 2));
      [exact Hrun | reflexivity | reflexivity |].
    apply Rgeb_true_iff. lra.
  - destruct start_compute_returns as (w' & stacked & Hrun & Hself & _).
    exists w', stacked. split; [exact Hrun|].
    split; [by rewrite Hself|].
    intros c m Hm.
    apply (Hstack None None None 1%Z start w' axis axis stacked c m 2 1
             (Xreal 3) (Xreal 2));
      [exact Hrun | by rewrite Hself | by rewrite Hself | by rewrite Hself
      | exact Hm | reflexivity | reflexivity |].
    apply Rgeb_true_iff. lra.
Defined.




(** C7, as stated, fails on a silent recording: all amplitude products of
    the pair [(1, 2)] are zero and the kernel raises instead of returning an
    array with a NaN entry. *)
Lemma silent_recording_raises :
  amplitudes_zero (A := exact_arith) silence axis (Xreal 1) (Xreal 2)
  ∧ f_lt (Xreal 1) (Xreal 2) = true
  ∧ _compute_ppc (A := exact_arith) silence axis [Xreal 1] [Xreal 2]
    = Raise ZeroDivisionError
  ∧ ¬ ∃ results,
        _compute_ppc (A := exact_arith) silence axis [Xreal 1] [Xreal 2]
          = Ok results
        ∧ get_item results 0 0 = Some Xnan.
Proof.
  assert (Hzero : amplitudes_zero (A := exact_arith) silence axis
                    (Xreal 1) (Xreal 2)).
  { apply silence_amplitudes; [reflexivity | |];
      apply (member_exact [1; 2; 3; 4; 5]%R); repeat constructor. }
  assert (Hrun : _compute_ppc (A := exact_arith) silence axis
                   [Xreal 1] [Xreal 2] = Raise ZeroDivisionError).
  { apply (_compute_ppc_zero_amplitudes (A := exact_arith)
             (ArithLaws0 := exact_laws) silence axis
             [Xreal 1] [Xreal 2] 0 0 (Xreal 1) (Xreal 2)).
    - apply uniform_shaped.
    - apply (on_axis_exact [1; 2; 3; 4; 5]%R [1%R]).
      apply subseteq_Forall. repeat constructor.
    - apply (on_axis_exact [1; 2; 3; 4; 5]%R [2%R]).
      apply subseteq_Forall. repeat constructor.
    - reflexivity.
    - reflexivity.
    - apply Rltb_true_iff. lra.
    - exact Hzero. }
  split; [exact Hzero|]. split; [apply Rltb_true_iff; lra|].
  split; [exact Hrun|].
  intros (results & Hok & _). rewrite Hrun in Hok. discriminate.
Qed.

(** C7 (amended): for valid inputs and a pair [f1 < f2] all of whose
    amplitude products [|seed_f1| * |target_f2|] are exactly zero, the
    kernel raises [ZeroDivisionError] at [numerator / denominator]; no
    array, hence no NaN entry, is returned. *)
Theorem zero_amplitudes_raise {A : Arith} `{!ArithLaws A} (data : tensor)
    (freqs f1s f2s : list float64) (j i : nat) (f1 f2 : float64) :
  connection_shaped data (length freqs) →
  on_axis freqs f1s → on_axis freqs f2s →
  f1s !! j = Some f1 → f2s !! i = Some f2 → f_lt f1 f2 = true →
  amplitudes_zero data freqs f1 f2 →
  _compute_ppc data freqs f1s f2s = Raise ZeroDivisionError
  ∧ ∀ results, _compute_ppc data freqs f1s f2s ≠ Ok results.
Proof.
  intros Hshape Hf1s Hf2s Hj Hi Hlt Hzero.
  assert (Hrun : _compute_ppc data freqs f1s f2s = Raise ZeroDivisionError)
    by (by eapply _compute_ppc_zero_amplitudes).
  split; [done|]. intros results. by rewrite Hrun.
Qed.

(** The silent recording queried on its whole axis. *)
Lemma zero_amplitudes_raise_witness :
  _compute_ppc (A := exact_arith) silence axis axis axis
  = Raise ZeroDivisionError
  ∧ ∀ results,
      _compute_ppc (A := exact_arith) silence axis axis axis ≠ Ok results.
Proof.
  apply (zero_amplitudes_raise (A := exact_arith) (ArithLaws0 := exact_laws)
           silence axis axis axis 0 1 (Xreal 1) (Xreal 2)).
  - apply uniform_shaped.
  - apply (on_axis_exact [1; 2; 3; 4; 5]%R [1; 2; 3; 4; 5]%R). done.
  - apply (on_axis_exact [1; 2; 3; 4; 5]%R [1; 2; 3; 4; 5]%R). done.
  - reflexivity.
  - reflexivity.
  - apply Rltb_true_iff. lra.
  - apply silence_amplitudes; [reflexivity | |];
      apply (member_exact [1; 2; 3; 4; 5]%R); repeat constructor.
Defined.

(** C9, as stated, fails on the recording with a DC bin queried on its
    whole axis: the pair [(0, 1)] is reached and the kernel raises. *)
Lemma dc_bin_raises :
  _compute_ppc (A := exact_arith) recording axis_with_dc
    axis_with_dc axis_with_dc = Raise ZeroDivisionError
  ∧ ¬ ∃ results,
        _compute_ppc (A := exact_arith) recording axis_with_dc
          axis_with_dc axis_with_dc = Ok results.
Proof.
  assert (Hrun : _compute_ppc (A := exact_arith) recording axis_with_dc
                   axis_with_dc axis_with_dc = Raise ZeroDivisionError).
  { apply (_compute_ppc_zero_f1 (A := exact_arith) recording axis_with_dc
             axis_with_dc axis_with_dc 0 1 (Xreal 0) (Xreal 1)).
    - apply uniform_shaped.
    - apply (on_axis_exact [0; 1; 2; 3; 4]%R [0; 1; 2; 3; 4]%R). done.
    - apply (on_axis_exact [0; 1; 2; 3; 4]%R [0; 1; 2; 3; 4]%R). done.
    - reflexivity.
    - reflexivity.
    - apply Reqb_true_iff. lra.
    - apply Rltb_true_iff. lra. }
  split; [exact Hrun|].
  intros (results & Hok). rewrite Hrun in Hok. discriminate.
Qed.

(** C9 (amended): for valid inputs and a pair with [f1 = 0] and [f2 > 0],
    the factor [f2 / f1] is an unguarded division by zero at which the
    kernel raises [ZeroDivisionError]: it returns no array, so the pair gets
    no entry, bounded or not. *)
Theorem zero_f1_raises {A : Arith} `{!ArithLaws A} (data : tensor)
    (freqs f1s f2s : list float64) (j i : nat) (f1 f2 : float64) :
  connection_shaped data (length freqs) →
  on_axis freqs f1s → on_axis freqs f2s →
  f1s !! j = Some f1 → f2s !! i = Some f2 →
  f_eq f1 f_zero = true → f_lt f_zero f2 = true →
  f_lt f1 f2 = true
  ∧ _compute_ppc data freqs f1s f2s = Raise ZeroDivisionError
  ∧ ∀ results, _compute_ppc data freqs f1s f2s ≠ Ok results.
Proof.
  intros Hshape Hf1s Hf2s Hj Hi Hzero Hpos.
  assert (Hlt : f_lt f1 f2 = true) by (by apply f_lt_zero_eq).
  assert (Hrun : _compute_ppc data freqs f1s f2s = Raise ZeroDivisionError)
    by (by eapply _compute_ppc_zero_f1).
  split; [done|]. split; [done|]. intros results. by rewrite Hrun.
Qed.

(** The recording with a DC bin, [f1 = [0]], [f2 = [3, 4]]. *)
Lemma zero_f1_raises_witness :
  f_lt (Xreal 0) (Xreal 4) = true
  ∧ _compute_ppc (A := exact_arith) recording axis_with_dc
      (Xreal <$> [0]%R) (Xreal <$> [3; 4]%R) = Raise ZeroDivisionError
  ∧ ∀ results,
      _compute_ppc (A := exact_arith) recording axis_with_dc
        (Xreal <$> [0]%R) (Xreal <$> [3; 4]%R) ≠ Ok results.
Proof.
  apply (zero_f1_raises (A := exact_arith) (ArithLaws0 := exact_laws)
           recording axis_with_dc (Xreal <$> [0]%R) (Xreal <$> [3; 4]%R)
           0 1 (Xreal 0) (Xreal 4)).
  - apply uniform_shaped.
  - apply (on_axis_exact [0; 1; 2; 3; 4]%R [0%R]).
    apply subseteq_Forall. repeat constructor.
  - apply (on_axis_exact [0; 1; 2; 3; 4]%R [3; 4]%R).
    apply subseteq_Forall. repeat constructor.
  - reflexivity.
  - reflexivity.
  - apply Reqb_true_iff. lra.
  - apply Rltb_true_iff. lra.
Defined.

(** C4, as stated, fails: after [compute()] has stored a result on the
    scenario, a call with [f1 = [2.5]] is rejected by validation and the
    stored array is gone. *)
Lemma failed_compute_clears_result :
  ∃ w1 stacked w2,
    PPC.compute None None None 1 start = (w1, Ok tt)
    ∧ _ppc (self w1) = Some stacked
    ∧ PPC.compute None (Some [Xreal (5 / 2)]) None 1 w1
      = (w2, Raise ValueError)
    ∧ _ppc (self w2) = None.
Proof.
  destruct start_compute_returns as (w1 & stacked & Hrun & Hself & _).
  destruct (compute_rejects (A := exact_arith) None
              (Some [Xreal (5 / 2)]) None 1 w1) as (w2 & Hfail & _ & Hnone).
  { right. left. exists ValueError.
    replace (freqs (self w1)) with axis by (by rewrite Hself).
    apply (sort_freq_rejects (A := exact_arith) axis _ (Xreal (5 / 2)));
      [by left|].
    apply (not_member_exact [1; 2; 3; 4; 5]%R (5 / 2)%R).
    repeat constructor; lra. }
  exists w1, stacked, w2. split; [exact Hrun|].
  split; [by rewrite Hself|]. by split.
Qed.

(** C4 (amended): [compute] clears the result array as its first
    statement, before any validation: whenever a call fails, in validation
    or later, the object's result array is [None] afterwards, whatever an
    earlier call had stored. *)
Theorem failed_compute_leaves_no_result {A : Arith}
    (ix : option (list Z * list Z)) (q1 q2 : option (list float64)) (n : Z)
    (w w' : world) (e : exn) :
  PPC.compute ix q1 q2 n w = (w', Raise e) → _ppc (self w') = None.
Proof.
  rewrite compute_run. cbn zeta.
  destruct (Process.normalise_indices _ ix) as [sel|?];
    [|by intros [= <- _]].
  destruct (Process.sort_freq _ q1) as [l1|?]; [|by intros [= <- _]].
  destruct (Process.sort_freq _ q2) as [l2|?]; [|by intros [= <- _]].
  destruct (PPC.make_args _ _ _ _ _ _) as [args|?]; [|by intros [= <- _]].
  destruct (map_result PPC.apply_kernel args) as [stacked|?];
    [done | by intros [= <- _]].
Qed.

(** The rejected request [f1 = [2.5]] on the scenario. *)
Lemma failed_compute_leaves_no_result_witness :
  ∃ w',
    PPC.compute None (Some [Xreal (5 / 2)]) None 1 start
    = (w', Raise ValueError)
    ∧ _ppc (self w') = None.
Proof.
  destruct (compute_rejects (A := exact_arith) None
              (Some [Xreal (5 / 2)]) None 1 start) as (w' & Hfail & _ & _).
  { right. left. exists ValueError.
    apply (sort_freq_rejects (A := exact_arith) axis _ (Xreal (5 / 2)));
      [by left|].
    apply (not_member_exact [1; 2; 3; 4; 5]%R (5 / 2)%R).
    repeat constructor; lra. }
  exists w'. split; [exact Hfail|].
  exact (failed_compute_leaves_no_result (A := exact_arith) None
           (Some [Xreal (5 / 2)]) None 1 start w' ValueError Hfail).
Defined.

(** C5: a request whose connections are invalid, or whose [f1] or [f2]
    holds a value that is not an exact member of the frequency axis, makes
    [compute] raise a validation error with the kernel never invoked. *)
Theorem invalid_request_never_reaches_kernel {A : Arith}
    (ix : option (list Z * list Z)) (q1 q2 : option (list float64)) (n : Z)
    (w : world) :
  (∃ seeds targets, ix = Some (seeds, targets)
     ∧ Process.valid_indices (_n_chans (self w)) seeds targets = false)
  ∨ (∃ l v, q1 = Some l ∧ v ∈ l ∧ member (freqs (self w)) v = false)
  ∨ (∃ l v, q2 = Some l ∧ v ∈ l ∧ member (freqs (self w)) v = false) →
  ∃ w', PPC.compute ix q1 q2 n w = (w', Raise ValueError)
    ∧ kernel_calls w' = kernel_calls w.
Proof.
  intros Hbad.
  destruct (compute_rejects ix q1 q2 n w) as (w' & Hrun & Hcalls & _).
  - destruct Hbad as [(seeds & targets & -> & Hix)
                     |[(l & v & -> & Hv & Hmem)|(l & v & -> & Hv & Hmem)]].
    + left. exists ValueError. simpl. by rewrite Hix.
    + right. left. exists ValueError. by apply (sort_freq_rejects _ _ v).
    + right. right. exists ValueError. by apply (sort_freq_rejects _ _ v).
  - by exists w'.
Qed.

(** Validation scenario of spec 8: [f1 = [2.5]] on the axis
    [1, 2, 3, 4, 5]. *)
Lemma invalid_request_never_reaches_kernel_witness :
  ∃ w',
    PPC.compute None (Some [Xreal (5 / 2)]) None 1 start
    = (w', Raise ValueError)
    ∧ kernel_calls w' = 0.
Proof.
  apply (invalid_request_never_reaches_kernel (A := exact_arith) None
           (Some [Xreal (5 / 2)]) None 1 start).
  right. left. exists [Xreal (5 / 2)], (Xreal (5 / 2)).
  split; [reflexivity|]. split; [by left|].
  apply (not_member_exact [1; 2; 3; 4; 5]%R (5 / 2)%R).
  repeat constructor; lra.
Defined.



(** C10: with an empty grid the kernel returns, for any data, an array of
    shape [[len(f2s), len(f1s)]] without elements; and a [compute] call
    whose connections and grids pass validation, one grid being empty,
    returns and stores a result whose array has that empty matrix for every
    connection. *)
Theorem empty_grid_gives_empty_result {A : Arith}
    (ix : option (list Z * list Z)) (q1 q2 : option (list float64)) (n : Z)
    (w : world) (sel : list nat * list nat) (l1 l2 : list float64) :
  channels_agree (self w) →
  Process.normalise_indices (_n_chans (self w)) ix = Ok sel →
  Process.sort_freq (freqs (self w)) q1 = Ok l1 →
  Process.sort_freq (freqs (self w)) q2 = Ok l2 →
  l1 = [] ∨ l2 = [] →
  (∀ (d : tensor) (fs : list float64),
     ∃ results, _compute_ppc d fs l1 l2 = Ok results
       ∧ has_shape results (length l2) (length l1)
       ∧ matrix_size results = 0)
  ∧ ∃ w' stacked r,
      PPC.compute ix q1 q2 n w = (w', Ok tt)
      ∧ _ppc (self w') = Some stacked
      ∧ _results (self w') = Some r ∧ res_data r = Some stacked
      ∧ res_f1 r = Some l1 ∧ res_f2 r = Some l2
      ∧ length stacked = length sel.1
      ∧ Forall (λ m, has_shape m (length l2) (length l1)
                     ∧ matrix_size m = 0) stacked.
Proof.
  intros Hchans Hix Hq1 Hq2 Hempty.
  assert (Hsize : matrix_size (np_full (length l2) (length l1) nan) = 0).
  { rewrite matrix_size_np_full. destruct Hempty as [-> | ->]; simpl; lia. }
  split.
  - intros d fs. exists (np_full (length l2) (length l1) nan).
    split; [by apply _compute_ppc_empty|].
    split; [apply has_shape_np_full | done].
  - destruct (normalise_indices_ok _ _ _ Hix) as (Hlen & Hs & Ht).
    destruct (make_args_total (data (self w)) (_n_chans (self w))
                (freqs (self w)) sel.1 sel.2 l1 l2 Hchans Hs Ht)
      as [args Hargs].
    destruct (make_args_ok _ _ _ _ _ _ _ Hargs) as [Hnargs Hforall].
    pose proof (dispatch_empty args _ l1 l2 Hempty Hforall) as Hst.
    destruct (compute_ok_intro ix q1 q2 n w sel l1 l2 args _
                Hix Hq1 Hq2 Hargs Hst) as (w' & Hrun & Hself & _).
    eexists w', _, _. split; [exact Hrun|]. rewrite Hself. simpl.
    repeat (split; [done|]).
    split; [rewrite length_replicate, Hnargs, length_zip; lia|].
    apply Forall_replicate. split; [apply has_shape_np_full | done].
Qed.

(** The scenario queried with [f1 = []]. *)
Lemma empty_grid_gives_empty_result_witness :
  (∀ (d : list (list (list xcomplex))) (fs : list xreal),
     ∃ results, _compute_ppc (A := exact_arith) d fs [] axis = Ok results
       ∧ has_shape (A := exact_arith) results 5 0
       ∧ matrix_size (A := exact_arith) results = 0)
  ∧ ∃ w' stacked r,
      PPC.compute None (Some []) None 1 start = (w', Ok tt)
      ∧ _ppc (self w') = Some stacked
      ∧ _results (self w') = Some r ∧ res_data r = Some stacked
      ∧ res_f1 r = Some [] ∧ res_f2 r = Some axis
      ∧ length stacked = 4
      ∧ Forall (λ m, has_shape (A := exact_arith) m 5 0
                     ∧ matrix_size (A := exact_arith) m = 0) stacked.
Proof.
  assert (Hchans : channels_agree (self start))
    by (unfold channels_agree; simpl; repeat constructor).
  exact (empty_grid_gives_empty_result (A := exact_arith) None (Some [])
           None 1 start ((Process.all_pairs 2).*1, (Process.all_pairs 2).*2)
           [] axis Hchans eq_refl eq_refl eq_refl (or_introl eq_refl)).
Defined.

(** * Further properties of the kernel and of the dispatch *)

(** ** Loops and comprehensions *)

Lemma for_enumerate_ext {X St} (body body' : nat → X → St → result St)
    (xs : list X) :
  (∀ i x s, x ∈ xs → body i x s = body' i x s) →
  ∀ i s, for_enumerate body i xs s = for_enumerate body' i xs s.
Proof.
  induction xs as [|x xs IH]; intros Hext i s; simpl; [done|].
  rewrite (Hext i x s); [|by left].
  destruct (body' i x s) as [s'|e]; simpl; [|done].
  apply IH. intros k y s0 Hy. apply Hext. by right.
Qed.

Lemma map_result_ext {X Y} (f g : X → result Y) (xs : list X) :
  (∀ x, x ∈ xs → f x = g x) → map_result f xs = map_result g xs.
Proof.
  induction xs as [|x xs IH]; intros Hext; simpl; [done|].
  rewrite (Hext x); [|by left]. rewrite IH; [done|].
  intros y Hy. apply Hext. by right.
Qed.

Lemma map_result_fmap {X Y Z} (g : X → Y) (f : Y → result Z) (xs : list X) :
  map_result f (g <$> xs) = map_result (λ x, f (g x)) xs.
Proof.
  induction xs as [|x xs IH]; [done|].
  cbn [fmap list_fmap map_result]. by rewrite <- IH.
Qed.

Lemma Rltb_false_iff (a b : R) : Rltb a b = false ↔ ¬ (a < b)%R.
Proof. unfold Rltb. destruct (Rlt_dec a b); split; (done || lra). Qed.

(** ** The array that the kernel returns *)

Section KernelArray.
Context {A : Arith}.

Lemma matrix_size_shaped (m : matrix) (rows cols : nat) :
  has_shape m rows cols → matrix_size m = rows * cols.
Proof.
  intros [<- Hrows]. unfold matrix_size.
  induction Hrows as [|row m Hrow _ IH]; simpl; [done|].
  unfold fmap in IH. by rewrite Hrow, IH.
Qed.

Lemma get_item_shaped (m : matrix) (rows cols i j : nat) :
  has_shape m rows cols → i < rows → j < cols → is_Some (get_item m i j).
Proof.
  intros [Hlen Hrows] Hi Hj. unfold get_item.
  destruct (lookup_lt_is_Some_2 m i) as [row Hrow]; [lia|].
  rewrite Hrow. simpl. apply lookup_lt_is_Some_2.
  rewrite Forall_lookup in Hrows. by rewrite (Hrows i row Hrow).
Qed.

(** The inner loop leaves the array alone when no [f2] exceeds [f1]. *)
Lemma f1_loop_body_skips (data : tensor) (freqs f2s : list float64)
    (j : nat) (f1 : float64) (results : matrix) :
  (∀ f2, f2 ∈ f2s → f_lt f1 f2 = false) →
  f1_loop_body data freqs f2s j f1 results = Ok results.
Proof.
  unfold f1_loop_body. generalize 0.
  induction f2s as [|f2 f2s IH]; intros i Hskip; [done|].
  cbn [for_enumerate].
  assert (f2_loop_body data freqs j f1 i f2 results = Ok results) as ->.
  { unfold f2_loop_body. rewrite (Hskip f2); [done | by left]. }
  cbn [mbind result_bind].
  apply IH. intros f2' Hf2'. apply Hskip. by right.
Qed.

(** The kernel's entry is a function of the two columns it selects. *)
Lemma ppc_entry_ext (data data' : tensor) (freqs : list float64)
    (f1 f2 : float64) :
  (∀ k, take_column data 0 k = take_column data' 0 k) →
  (∀ k, take_column data 1 k = take_column data' 1 k) →
  ppc_entry data freqs f1 f2 = ppc_entry data' freqs f1 f2.
Proof.
  intros H0 H1. unfold ppc_entry.
  destruct (fast_find_first freqs f1) as [k1|]; simpl; [|done].
  rewrite H0. destruct (take_column data' 0 k1); simpl; [|done].
  destruct (fast_find_first freqs f2) as [k2|]; simpl; [|done].
  by rewrite H1.
Qed.

Lemma take_column_take (data : tensor) (n ch k : nat) :
  ch < n → take_column (take n <$> data) ch k = take_column data ch k.
Proof.
  intros Hch. unfold take_column. rewrite map_result_fmap.
  apply map_result_ext. intros epoch _. by rewrite lookup_take_lt.
Qed.

(** Channels [0] and [1] of [data[:, (seed, target)]] are channels [seed]
    and [target] of [data]. *)
Lemma select_connection_columns (d slice : tensor) (seed target : nat) :
  PPC.select_connection d seed target = Ok slice →
  ∀ k, take_column slice 0 k = take_column d seed k
       ∧ take_column slice 1 k = take_column d target k.
Proof.
  unfold PPC.select_connection. intros Hsel%map_result_ok k.
  unfold take_column.
  induction Hsel as [|epoch pair d slice Hpair _ [IH0 IH1]]; [done|].
  apply result_bind_ok in Hpair as (s & Hs & Hpair).
  apply result_bind_ok in Hpair as (t & Ht & [= <-]).
  destruct (epoch !! seed) as [s'|] eqn:Hs'; [|done].
  destruct (epoch !! target) as [t'|] eqn:Ht'; [|done].
  injection Hs as ->. injection Ht as ->.
  cbn [map_result]. rewrite IH0, IH1, Hs', Ht'. done.
Qed.


(** A value returned by lines 181-195 went through both divisions. *)
Lemma ppc_value_divisors (seed target : list complex128)
    (f1 f2 v : float64) :
  ppc_value seed target f1 f2 = Ok v →
  f_eq f1 f_zero = false
  ∧ f_eq (epoch_average_f (amplitude_products seed target)) f_zero = false.
Proof.
  unfold ppc_value. intros Hrun.
  apply result_bind_ok in Hrun as (ratio & [Hf1 _]%scalar_div_ok & Hrun).
  apply result_bind_ok in Hrun as (mp & _ & Hrun).
  apply result_bind_ok in Hrun as (den & [_ ->]%f_mean_ok & Hrun).
  by apply scalar_div_ok in Hrun as [Hden _].
Qed.
End KernelArray.

Section ExactEpochs.
Local Open Scope R_scope.


End ExactEpochs.

(** ** Properties *)

(** X1.  Whatever the data and the grids, an array that the kernel returns
    has shape [(len(f2s), len(f1s))]: it holds [len(f2s) * len(f1s)]
    elements and every position [[i, j]] inside that shape is filled. *)
Theorem kernel_result_shape {A : Arith} (data : tensor)
    (freqs f1s f2s : list float64) (results : matrix) :
  _compute_ppc data freqs f1s f2s = Ok results →
  has_shape results (length f2s) (length f1s)
  ∧ matrix_size results = length f2s * length f1s
  ∧ ∀ i j, i < length f2s → j < length f1s →
      is_Some (get_item results i j).
Proof.
  intros Hrun. apply _compute_ppc_ok in Hrun as [Hshape _]. split; [done|].
  split; [by apply matrix_size_shaped|].
  intros i j Hi Hj. by eapply get_item_shaped.
Qed.

(** The scenario queried with [f1 = [1, 2]] and [f2 = [3, 4, 5]]. *)
Lemma kernel_result_shape_witness :
  ∃ results,
    _compute_ppc (A := exact_arith) recording axis
      (Xreal <$> [1; 2]%R) (Xreal <$> [3; 4; 5]%R) = Ok results
    ∧ has_shape (A := exact_arith) results 3 2
    ∧ matrix_size (A := exact_arith) results = 6
    ∧ ∀ i j, i < 3 → j < 2 →
        is_Some (get_item (A := exact_arith) results i j).
Proof.
  destruct (recording_kernel_returns [1; 2]%R [3; 4; 5]%R) as [results Hrun].
  - apply subseteq_Forall. repeat constructor.
  - apply subseteq_Forall. repeat constructor.
  - exists results. split; [exact Hrun|].
    exact (kernel_result_shape (A := exact_arith) recording axis
             (Xreal <$> [1; 2]%R) (Xreal <$> [3; 4; 5]%R) results Hrun).
Defined.

(** X2.  When no pair of the grids has [f1 < f2], the kernel returns the
    array of NaN it started from, for every [data] and every [freqs]: it
    looks up no frequency and reads no coefficient, so it cannot raise. *)
Theorem kernel_without_valid_pair {A : Arith} (data : tensor)
    (freqs f1s f2s : list float64) :
  (∀ f1 f2, f1 ∈ f1s → f2 ∈ f2s → f_lt f1 f2 = false) →
  _compute_ppc data freqs f1s f2s
  = Ok (np_full (length f2s) (length f1s) nan).
Proof.
  intros Hskip. unfold _compute_ppc.
  generalize (np_full (length f2s) (length f1s) nan). generalize 0.
  induction f1s as [|f1 f1s IH]; intros j results; [done|].
  cbn [for_enumerate]. rewrite f1_loop_body_skips.
  - cbn [mbind result_bind]. apply IH.
    intros f1' f2 Hf1' Hf2. apply Hskip; [by right | done].
  - intros f2 Hf2. apply Hskip; [by left | done].
Qed.

(** Grids the wrong way round, on no data and an empty axis. *)
Lemma kernel_without_valid_pair_witness :
  _compute_ppc (A := exact_arith) [] []
    (Xreal <$> [3; 4]%R) (Xreal <$> [1; 2; 3]%R)
  = Ok [[Xnan; Xnan]; [Xnan; Xnan]; [Xnan; Xnan]].
Proof.
  change (_compute_ppc (A := exact_arith) [] []
            (Xreal <$> [3; 4]%R) (Xreal <$> [1; 2; 3]%R)
          = Ok (np_full (A := exact_arith)
                  (length (Xreal <$> [1; 2; 3]%R))
                  (length (Xreal <$> [3; 4]%R)) (nan (Arith := exact_arith)))).
  apply (kernel_without_valid_pair (A := exact_arith) [] []
           (Xreal <$> [3; 4]%R) (Xreal <$> [1; 2; 3]%R)).
  intros f1 f2 (a & -> & Ha)%list_elem_of_fmap (b & -> & Hb)%list_elem_of_fmap.
  apply Rltb_false_iff.
  assert (Ha' : Forall (λ x, 3 <= x)%R [3; 4]%R) by (repeat constructor; lra).
  assert (Hb' : Forall (λ x, x <= 3)%R [1; 2; 3]%R)
    by (repeat constructor; lra).
  pose proof (proj1 (Forall_forall _ _) Ha' a Ha).
  pose proof (proj1 (Forall_forall _ _) Hb' b Hb). simpl in *. lra.
Defined.

(** X3.  The entry that the kernel computes on the slice
    [data[:, (seed, target)]] handed to it by [PPC._compute_ppc] is computed
    from channel [seed] of [data] at [f1] and channel [target] of [data] at
    [f2], and fails exactly as those lookups would. *)
Theorem connection_entry_reads_seed_and_target {A : Arith}
    (d slice : tensor) (seed target : nat) (freqs : list float64)
    (f1 f2 : float64) :
  PPC.select_connection d seed target = Ok slice →
  ppc_entry slice freqs f1 f2
  = (k1 ← fast_find_first freqs f1;
     fft_f1 ← take_column d seed k1;
     k2 ← fast_find_first freqs f2;
     fft_f2 ← take_column d target k2;
     ppc_value fft_f1 fft_f2 f1 f2).
Proof.
  intros Hsel. unfold ppc_entry.
  destruct (fast_find_first freqs f1) as [k1|]; simpl; [|done].
  rewrite (proj1 (select_connection_columns d slice seed target Hsel k1)).
  destruct (take_column d seed k1); simpl; [|done].
  destruct (fast_find_first freqs f2) as [k2|]; simpl; [|done].
  by rewrite (proj2 (select_connection_columns d slice seed target Hsel k2)).
Qed.

(** Connection (1, 0) of the scenario at [f1 = 2], [f2 = 3]. *)
Lemma connection_entry_reads_seed_and_target_witness :
  ppc_entry (A := exact_arith)
    (replicate 4 [replicate 5 one; replicate 5 one]) axis (Xreal 2) (Xreal 3)
  = (k1 ← fast_find_first (A := exact_arith) axis (Xreal 2);
     fft_f1 ← take_column (A := exact_arith) recording 1 k1;
     k2 ← fast_find_first (A := exact_arith) axis (Xreal 3);
     fft_f2 ← take_column (A := exact_arith) recording 0 k2;
     ppc_value fft_f1 fft_f2 (Xreal 2) (Xreal 3)).
Proof.
  apply (connection_entry_reads_seed_and_target (A := exact_arith)
           recording (replicate 4 [replicate 5 one; replicate 5 one]) 1 0
           axis (Xreal 2) (Xreal 3)).
  reflexivity.
Defined.

(** X4.  The kernel reads channels 0 and 1 of its [data] argument and no
    other: dropping every channel from index [n >= 2] on changes neither
    the array it returns nor the exception it raises. *)
Theorem kernel_reads_two_channels {A : Arith} (data : tensor)
    (freqs f1s f2s : list float64) (n : nat) :
  2 ≤ n →
  _compute_ppc (take n <$> data) freqs f1s f2s
  = _compute_ppc data freqs f1s f2s.
Proof.
  intros Hn. unfold _compute_ppc. apply for_enumerate_ext.
  intros j f1 results _. unfold f1_loop_body. apply for_enumerate_ext.
  intros i f2 results' _. unfold f2_loop_body.
  destruct (f_lt f1 f2); [|done].
  rewrite (ppc_entry_ext (take n <$> data) data freqs f1 f2); [done| |].
  - intros k. apply take_column_take. lia.
  - intros k. apply take_column_take. lia.
Qed.

(** The scenario with a third channel in every epoch. *)
Lemma kernel_reads_two_channels_witness :
  _compute_ppc (A := exact_arith)
    (take 2 <$> replicate 4 (replicate 3 (replicate 5 one)))
    axis axis axis
  = _compute_ppc (A := exact_arith)
      (replicate 4 (replicate 3 (replicate 5 one))) axis axis axis.
Proof.
  apply (kernel_reads_two_channels (A := exact_arith)
           (replicate 4 (replicate 3 (replicate 5 one))) axis axis axis 2).
  lia.
Defined.



(** X6.  On a connection slice of shape [[epochs, 2, len(freqs)]] with at
    least one epoch and grids whose values are on the axis, the kernel
    returns if and only if, for every pair [f1 < f2] of the grids, [f1] is
    not zero and the epoch-average of the amplitude products
    [|seed_f1| * |target_f2|] is not zero: the two divisors are the only
    values that decide between a result and an exception. *)
Theorem kernel_returns_iff {A : Arith} (data : tensor)
    (freqs f1s f2s : list float64) :
  connection_shaped data (length freqs) → data ≠ [] →
  on_axis freqs f1s → on_axis freqs f2s →
  (∃ results, _compute_ppc data freqs f1s f2s = Ok results)
  ↔ ∀ f1 f2, f1 ∈ f1s → f2 ∈ f2s → f_lt f1 f2 = true →
      divisors_nonzero data freqs f1 f2.
Proof.
  intros Hshape Hdata Hf1s Hf2s. split.
  - intros [results Hrun] f1 f2 Hf1 Hf2 Hlt.
    apply _compute_ppc_ok in Hrun as [_ Hentries].
    apply list_elem_of_lookup in Hf1 as [j Hj].
    apply list_elem_of_lookup in Hf2 as [i Hi].
    specialize (Hentries j i f1 f2 Hj Hi). rewrite Hlt in Hentries.
    destruct Hentries as (v & Hv & _).
    apply ppc_entry_ok in Hv
      as (k1' & k2' & seed' & target' & Hk1' & Hk2' & Hseed' & Htarget'
          & Hv & _).
    destruct (ppc_value_divisors seed' target' f1 f2 v Hv) as [Hnz Hden].
    split; [done|]. intros k1 k2 seed target Hk1 Hk2 Hseed Htarget.
    rewrite (first_index_unique _ _ _ _ Hk1 Hk1') in Hseed.
    rewrite (first_index_unique _ _ _ _ Hk2 Hk2') in Htarget.
    apply take_column_lookups in Hseed, Htarget.
    assert (seed = seed') as -> by congruence.
    assert (target = target') as -> by congruence.
    by rewrite <- amplitude_products_zip.
  - intros Hsafe. apply _compute_ppc_total; try done.
    intros f1 f2 k1 k2 seed target Hf1 Hf2 Hlt Hk1 Hseed Hk2 Htarget.
    destruct (Hsafe f1 f2 Hf1 Hf2 Hlt) as [Hnz Hden]. split; [done|].
    rewrite amplitude_products_zip. apply (Hden k1 k2).
    + by apply fast_find_first_ok.
    + by apply fast_find_first_ok.
    + by apply take_column_lookups.
    + by apply take_column_lookups.
Qed.

(** The scenario queried with [f1 = [1, 2]] and [f2 = [3]]: the kernel
    returns, and neither divisor of the pairs [(1, 3)] and [(2, 3)] is
    zero. *)
Lemma kernel_returns_iff_witness :
  (∃ results, _compute_ppc (A := exact_arith) recording axis
                (Xreal <$> [1; 2]%R) (Xreal <$> [3]%R) = Ok results)
  ∧ ∀ f1 f2, f1 ∈ Xreal <$> [1; 2]%R → f2 ∈ Xreal <$> [3]%R →
      f_lt (Arith := exact_arith) f1 f2 = true →
      divisors_nonzero (A := exact_arith) recording axis f1 f2.
Proof.
  assert (Hreturns : ∃ results,
            _compute_ppc (A := exact_arith) recording axis
              (Xreal <$> [1; 2]%R) (Xreal <$> [3]%R) = Ok results).
  { apply (recording_kernel_returns [1; 2]%R [3]%R);
      apply subseteq_Forall; repeat constructor. }
  split; [exact Hreturns|].
  apply (kernel_returns_iff (A := exact_arith) recording axis
           (Xreal <$> [1; 2]%R) (Xreal <$> [3]%R)).
  - exact (uniform_shaped one).
  - discriminate.
  - apply (on_axis_exact [1; 2; 3; 4; 5]%R [1; 2]%R).
    apply subseteq_Forall. repeat constructor.
  - apply (on_axis_exact [1; 2; 3; 4; 5]%R [3]%R).
    apply subseteq_Forall. repeat constructor.
  - exact Hreturns.
Defined.

(** * Plotting: [_PlotBase] and [_PlotCFC]

    Properties of [utils/_plot.py] over the model of the module [Plot].
    [_PlotTDE] and [_PlotWaveShape] are not modelled: their panels read
    the axis limits that Matplotlib computes, search the nearest time with
    [argmin], and take real and imaginary parts and angles of complex
    data, none of which the arithmetic interface provides. *)

Import Plot Showcase.

(** ** The layout loop *)

Section Layout.
Context {A : Arith} {M : MixedOrder A}.

Lemma for_break_cons {St} (body : nat → St → Mpl (St * bool)) (i : nat)
    (idx : list nat) (s : St) (cv : canvas) :
  for_break body (i :: idx) s cv
  = match body i s cv with
    | (cv', Ok (s', true)) => (cv', Ok s')
    | (cv', Ok (s', false)) => for_break body idx s' cv'
    | (cv', Raise e) => (cv', Raise e)
    end.
Proof.
  cbn [for_break]. unfold mbind, Mpl_bind.
  destruct (body i s cv) as [cv' [[s' []]|e]]; done.
Qed.

Lemma create_plots_body_new (N : nat) (n_rows n_cols : Z) (i : nat)
    (figures : list nat) (axes : list (list axes_id)) (cv : canvas) :
  (1 ≤ n_rows)%Z → (1 ≤ n_cols)%Z →
  PlotBase._create_plots_body N n_rows n_cols i
    (figures, axes, Z.of_nat i) cv
  = (mkCanvas A (S (n_figures cv))
       (calls cv ++ [Subplots (n_figures cv) n_rows n_cols]),
     Ok (figures ++ [n_figures cv],
         axes ++ [(λ slot, (n_figures cv, slot))
                    <$> seq 0 (Z.to_nat (n_rows * n_cols))],
         (Z.of_nat i + n_rows * n_cols)%Z,
         (Z.of_nat N <=? Z.of_nat i + n_rows * n_cols)%Z)).
Proof.
  intros Hr Hc. unfold PlotBase._create_plots_body.
  rewrite Z.eqb_refl. unfold mbind, Mpl_bind, PlotBase.subplots.
  assert (((n_rows <? 1) || (n_cols <? 1))%Z = false) as ->; [|done].
  apply orb_false_iff. split; apply Z.ltb_ge; lia.
Qed.

Lemma create_plots_body_old (N : nat) (n_rows n_cols : Z) (i : nat)
    (figures : list nat) (axes : list (list axes_id)) (plot_n : Z)
    (cv : canvas) :
  Z.of_nat i ≠ plot_n →
  PlotBase._create_plots_body N n_rows n_cols i (figures, axes, plot_n) cv
  = (cv, Ok (figures, axes, plot_n, (Z.of_nat N <=? plot_n)%Z)).
Proof.
  intros Hne. unfold PlotBase._create_plots_body.
  by rewrite (proj2 (Z.eqb_neq _ _) Hne).
Qed.

Lemma create_plots_loop (N : nat) (n_rows n_cols : Z) (n0 : nat)
    (calls0 : list call) :
  (1 ≤ n_rows)%Z → (1 ≤ n_cols)%Z →
  let k := Z.to_nat (n_rows * n_cols) in
  ∀ n i j,
    i + n = N →
    (i = 0 ∧ j = 0) ∨ (0 < i ∧ i ≤ j * k ∧ j * k < N) →
    ∃ j',
      for_break (PlotBase._create_plots_body N n_rows n_cols) (seq i n)
        (figures_from n0 j, axes_from n0 j k, Z.of_nat (j * k))
        (mkCanvas A (n0 + j) (calls0 ++ subplots_calls n0 j n_rows n_cols))
      = (mkCanvas A (n0 + j')
           (calls0 ++ subplots_calls n0 j' n_rows n_cols),
         Ok (figures_from n0 j', axes_from n0 j' k, Z.of_nat (j' * k)))
      ∧ ((N = 0 ∧ j' = 0) ∨ (1 ≤ j' ∧ (j' - 1) * k < N ∧ N ≤ j' * k)).
Proof.
  intros Hr Hc k.
  assert (Hk : 1 ≤ k) by (unfold k; nia).
  assert (HK : (n_rows * n_cols)%Z = Z.of_nat k) by (unfold k; nia).
  induction n as [|n IH]; intros i j Hi Hhead.
  - exists j. split; [done|].
    destruct Hhead as [[Hi0 Hj0]|(? & ? & ?)]; [left; lia | lia].
  - cbn [seq]. rewrite for_break_cons.
    destruct (decide (i = j * k)) as [Hij|Hij].
    + rewrite <- Hij, create_plots_body_new by done. cbn [n_figures calls].
      assert ((Z.of_nat i + n_rows * n_cols)%Z = Z.of_nat (S j * k))
        as -> by lia.
      assert (figures_from n0 j ++ [n0 + j] = figures_from n0 (S j)) as ->.
      { unfold figures_from. by rewrite seq_S. }
      assert (axes_from n0 j k
                ++ [(λ slot, (n0 + j, slot))
                      <$> seq 0 (Z.to_nat (n_rows * n_cols))]
              = axes_from n0 (S j) k) as ->.
      { unfold axes_from. by rewrite seq_S, fmap_app. }
      assert ((calls0 ++ subplots_calls n0 j n_rows n_cols)
                ++ [Subplots (n0 + j) n_rows n_cols]
              = calls0 ++ subplots_calls n0 (S j) n_rows n_cols) as ->.
      { unfold subplots_calls. by rewrite seq_S, fmap_app, app_assoc. }
      replace (S (n0 + j)) with (n0 + S j) by lia.
      destruct (Z.of_nat N <=? Z.of_nat (S j * k))%Z eqn:Hbreak.
      * apply Z.leb_le in Hbreak. exists (S j). split; [done|].
        right. replace (S j - 1) with j by lia. lia.
      * apply Z.leb_gt in Hbreak.
        apply (IH (S i) (S j)); [lia|]. right. lia.
    + destruct Hhead as [[Hi0 Hj0]|(Hpos & Hle & Hlt)]; [subst; lia|].
      rewrite create_plots_body_old by lia.
      assert ((Z.of_nat N <=? Z.of_nat (j * k))%Z = false) as ->
        by (apply Z.leb_gt; lia).
      apply (IH (S i) j); [lia|]. right. lia.
Qed.
End Layout.

(** ** The canvas monad and one panel *)

Section MplFacts.
Context {A : Arith}.

Lemma bind_lift_ok {T U} (r : result T) (f : T → Mpl U) (t : T)
    (cv : canvas) :
  r = Ok t → (lift r ≫= f) cv = f t cv.
Proof. by intros ->. Qed.

Lemma bind_lift_raise {T U} (r : result T) (f : T → Mpl U) (e : exn)
    (cv : canvas) :
  r = Raise e → (lift r ≫= f) cv = (cv, Raise e).
Proof. by intros ->. Qed.

Lemma bind_record {U} (c : call) (f : unit → Mpl U) (cv : canvas) :
  (record c ≫= f) cv = f tt (mkCanvas A (n_figures cv) (calls cv ++ [c])).
Proof. done. Qed.

Lemma at_counter_ok {X} (l : list X) (i : nat) (x : X) :
  l !! i = Some x → at_counter l i = Ok x.
Proof. unfold at_counter. by intros ->. Qed.

Lemma for_range_S {St} (n : nat) (body : St → Mpl St) (s : St)
    (cv : canvas) :
  for_range (S n) body s cv
  = match body s cv with
    | (cv', Ok s') => for_range n body s' cv'
    | (cv', Raise e) => (cv', Raise e)
    end.
Proof. done. Qed.

Lemma for_range_add {St} (a b : nat) (body : St → Mpl St) (s : St)
    (cv : canvas) :
  for_range (a + b) body s cv
  = match for_range a body s cv with
    | (cv', Ok s') => for_range b body s' cv'
    | (cv', Raise e) => (cv', Raise e)
    end.
Proof.
  revert s cv. induction a as [|a IH]; intros s cv; [done|].
  cbn [Nat.add]. rewrite !for_range_S.
  destruct (body s cv) as [cv' [s'|e]]; [apply IH | done].
Qed.

(** Two nested [for] loops over ranges run their body as one loop over
    the product. *)
Lemma for_range_nested {St} (r c : nat) (body : St → Mpl St) (s : St)
    (cv : canvas) :
  for_range r (for_range c body) s cv = for_range (r * c) body s cv.
Proof.
  revert s cv. induction r as [|r IH]; intros s cv; [done|].
  cbn [Nat.mul]. rewrite for_range_S, for_range_add.
  destruct (for_range c body s cv) as [cv' [s'|e]]; [apply IH | done].
Qed.

Lemma while_loop_S {St} (fuel : nat) (cond : St → bool)
    (body : St → Mpl St) (s : St) (cv : canvas) :
  while_loop (S fuel) cond body s cv
  = if cond s then
      match body s cv with
      | (cv', Ok s') => while_loop fuel cond body s' cv'
      | (cv', Raise e) => (cv', Raise e)
      end
    else (cv, Ok (Some s)).
Proof. cbn [while_loop]. by destruct (cond s). Qed.
End MplFacts.

Section Panels.
Context {A : Arith} {M : MixedOrder A}.
Variables (self : plot_cfc) (figures : list nat) (axes : list (list axes_id))
  (nodes : list Z) (q1 q2 : list float64) (f1_idcs f2_idcs : list nat)
  (n_rows n_cols : Z) (major minor : pyval) (cbar_range : list pyval).

Let body : cursor → Mpl cursor :=
  PlotCFC.panel self figures axes nodes q1 q2 f1_idcs f2_idcs n_rows n_cols
                major minor cbar_range.

(** One pass of the loop body on a node that has its data. *)
Lemma panel_ok (f p t : nat) (cv : canvas) (z : Z) (fig_axes : list axes_id)
    (axis : axes_id) (mesh : matrix) (vmin vmax seed target : pyval) :
  nodes !! p = Some z → axes !! f = Some fig_axes →
  fig_axes !! t = Some axis →
  panel_content self f1_idcs f2_idcs cbar_range p z mesh vmin vmax seed
                target →
  body (mkCursor f p t) cv
  = if (n_rows * n_cols <=? Z.of_nat (S t))%Z then
      match figures !! f with
      | Some fig =>
          (mkCanvas A (n_figures cv)
             (calls cv ++ panel_calls axis q1 q2 mesh vmin vmax major minor
                                      seed target
                       ++ [Suptitle fig (name self)]),
           Ok (mkCursor (S f) (S p) 0))
      | None =>
          (mkCanvas A (n_figures cv)
             (calls cv ++ panel_calls axis q1 q2 mesh vmin vmax major minor
                                      seed target),
           Raise IndexError)
      end
    else
      (mkCanvas A (n_figures cv)
         (calls cv ++ panel_calls axis q1 q2 mesh vmin vmax major minor
                                  seed target),
       Ok (mkCursor f (S p) (S t))).
Proof.
  intros Hz Hfa Hax
    ((d & Hd & Hmesh) & (lim & Hlim & Hmin & Hmax)
     & (seeds & Hseeds & Hseed) & (targets & Htargets & Htarget)).
  unfold body, PlotCFC.panel. cbn [fig_i plot_n fig_plot_n].
  rewrite (bind_lift_ok _ _ z cv (at_counter_ok _ _ _ Hz)).
  rewrite (bind_lift_ok _ _ fig_axes cv (at_counter_ok _ _ _ Hfa)).
  rewrite (bind_lift_ok _ _ axis cv (at_counter_ok _ _ _ Hax)).
  rewrite (bind_lift_ok _ _ d cv Hd).
  rewrite (bind_lift_ok _ _ mesh cv Hmesh).
  rewrite (bind_lift_ok _ _ lim cv (at_counter_ok _ _ _ Hlim)).
  rewrite (bind_lift_ok _ _ vmin cv Hmin).
  rewrite (bind_lift_ok _ _ lim cv (at_counter_ok _ _ _ Hlim)).
  rewrite (bind_lift_ok _ _ vmax cv Hmax).
  rewrite !bind_record. unfold PlotCFC._set_axis_ticks.
  unfold mbind at 1, Mpl_bind at 1. rewrite !bind_record.
  unfold record at 1. cbn [n_figures calls].
  rewrite !bind_record. cbn [n_figures calls].
  rewrite (bind_lift_ok _ _ seeds _ Hseeds).
  rewrite (bind_lift_ok _ _ seed _ Hseed).
  rewrite (bind_lift_ok _ _ targets _ Htargets).
  rewrite (bind_lift_ok _ _ target _ Htarget).
  rewrite bind_record. cbn [n_figures calls].
  rewrite <- !app_assoc. cbn [app].
  destruct (n_rows * n_cols <=? Z.of_nat (S t))%Z; [|done].
  unfold at_counter. destruct (figures !! f) as [fig|]; [|done].
  cbn [of_option]. rewrite (bind_lift_ok _ _ fig _ eq_refl).
  rewrite bind_record. cbn [n_figures calls].
  by rewrite <- !app_assoc.
Qed.

(** Past the last node the subscript [nodes[plot_n]] raises. *)
Lemma panel_raise (f p t : nat) (cv : canvas) :
  length nodes ≤ p → body (mkCursor f p t) cv = (cv, Raise IndexError).
Proof.
  intros Hp. unfold body, PlotCFC.panel. cbn [plot_n].
  apply bind_lift_raise. unfold at_counter.
  by rewrite (lookup_ge_None_2 nodes p).
Qed.
End Panels.

(** ** The plotting loops *)

Lemma rows_cols (n_rows n_cols : Z) :
  (1 ≤ n_rows)%Z → (1 ≤ n_cols)%Z →
  Z.to_nat n_rows * Z.to_nat n_cols = Z.to_nat (n_rows * n_cols).
Proof. nia. Qed.

Section Drawn.
Context {A : Arith} {M : MixedOrder A}.
Variables (self : plot_cfc) (axes : list (list axes_id)) (nodes : list Z)
  (q1 q2 : list float64) (f1_idcs f2_idcs : list nat) (major minor : pyval)
  (cbar_range : list pyval).

Lemma panels_drawn_nil :
  panels_drawn self axes nodes f1_idcs f2_idcs cbar_range [] 0.
Proof. repeat split; [done..|]. intros p z Hp. lia. Qed.

Lemma meshes_snoc (new : list call) (axis : axes_id) (mesh : matrix)
    (vmin vmax seed target : pyval) :
  meshes (new ++ panel_calls axis q1 q2 mesh vmin vmax major minor seed
                             target)
  = meshes new ++ [(axis, mesh, vmin, vmax)].
Proof. unfold meshes. by rewrite omap_app. Qed.

Lemma titles_snoc (new : list call) (axis : axes_id) (mesh : matrix)
    (vmin vmax seed target : pyval) :
  titles (new ++ panel_calls axis q1 q2 mesh vmin vmax major minor seed
                             target)
  = titles new ++ [(axis, seed, target)].
Proof. unfold titles. by rewrite omap_app. Qed.

Lemma panels_drawn_snoc (new : list call) (p : nat) (z : Z)
    (axis : axes_id) (mesh : matrix) (vmin vmax seed target : pyval) :
  panels_drawn self axes nodes f1_idcs f2_idcs cbar_range new p →
  nodes !! p = Some z → mjoin axes !! p = Some axis →
  panel_content self f1_idcs f2_idcs cbar_range p z mesh vmin vmax seed
                target →
  panels_drawn self axes nodes f1_idcs f2_idcs cbar_range
    (new ++ panel_calls axis q1 q2 mesh vmin vmax major minor seed target)
    (S p).
Proof.
  intros (Hm & Ht & Hall) Hz Hax Hcontent.
  unfold panels_drawn. rewrite meshes_snoc, titles_snoc.
  rewrite !length_app, Hm, Ht. cbn [length].
  split; [lia|]. split; [lia|]. intros p' z' Hp' Hz'.
  destruct (decide (p' = p)) as [->|Hne].
  - rewrite Hz in Hz'. injection Hz' as <-.
    exists axis, mesh, vmin, vmax, seed, target.
    rewrite !lookup_app_r by lia. rewrite Hm, Ht, Nat.sub_diag. done.
  - destruct (Hall p' z') as (ax' & m' & lo & hi & s' & t' & H1 & H2 & H3);
      [lia | done |].
    exists ax', m', lo, hi, s', t'.
    rewrite !lookup_app_l by lia. done.
Qed.

Lemma panels_drawn_suptitle (new : list call) (p fig : nat)
    (title : string) :
  panels_drawn self axes nodes f1_idcs f2_idcs cbar_range new p →
  panels_drawn self axes nodes f1_idcs f2_idcs cbar_range
    (new ++ [Suptitle fig title]) p.
Proof.
  unfold panels_drawn, meshes, titles. rewrite !omap_app. cbn [omap].
  by rewrite !app_nil_r.
Qed.

Lemma suptitles_panel (new : list call) (axis : axes_id) (mesh : matrix)
    (vmin vmax seed target : pyval) :
  suptitles
    (new ++ panel_calls axis q1 q2 mesh vmin vmax major minor seed target)
  = suptitles new.
Proof. unfold suptitles. rewrite omap_app. cbn. by rewrite app_nil_r. Qed.

End Drawn.

Section Figures.
Context {A : Arith} {M : MixedOrder A}.
Variables (self : plot_cfc) (figures : list nat) (axes : list (list axes_id))
  (nodes : list Z) (q1 q2 : list float64) (f1_idcs f2_idcs : list nat)
  (n_rows n_cols : Z) (major minor : pyval) (cbar_range : list pyval).
Hypothesis Hrows : (1 ≤ n_rows)%Z.
Hypothesis Hcols : (1 ≤ n_cols)%Z.
Hypothesis Haxes_len : length axes = length figures.
Hypothesis Haxes :
  Forall (λ a, length a = Z.to_nat (n_rows * n_cols)) axes.
Hypothesis Hdraw : drawable self nodes f1_idcs f2_idcs cbar_range.

Let k : nat := Z.to_nat (n_rows * n_cols).
Let body : cursor → Mpl cursor :=
  PlotCFC.panel self figures axes nodes q1 q2 f1_idcs f2_idcs n_rows n_cols
                major minor cbar_range.

(** Invariant of the loops: [p] panels are drawn and the first [f] figures
    have their title. *)
Let inv (new : list call) (p f : nat) : Prop :=
  panels_drawn self axes nodes f1_idcs f2_idcs cbar_range new p
  ∧ suptitles new = (λ fig, (fig, name self)) <$> take f figures.

(** The data of the panel at position [t] of figure [f]. *)
Lemma panel_ready (f t : nat) :
  f < length figures → t < k → f * k + t < length nodes →
  ∃ z fig_axes axis fig mesh vmin vmax seed target,
    nodes !! (f * k + t) = Some z ∧ axes !! f = Some fig_axes
    ∧ fig_axes !! t = Some axis ∧ figures !! f = Some fig
    ∧ mjoin axes !! (f * k + t) = Some axis
    ∧ panel_content self f1_idcs f2_idcs cbar_range (f * k + t) z mesh
                    vmin vmax seed target.
Proof using Hrows Hcols Haxes_len Haxes Hdraw.
  intros Hf Ht Hp.
  destruct (lookup_lt_is_Some_2 nodes (f * k + t) Hp) as [z Hz].
  destruct (lookup_lt_is_Some_2 axes f) as [fa Hfa]; [lia|].
  destruct (lookup_lt_is_Some_2 figures f Hf) as [fig Hfig].
  assert (Hlen : length fa = k)
    by exact (proj1 (Forall_lookup _ _) Haxes f fa Hfa).
  destruct (lookup_lt_is_Some_2 fa t) as [axis Hax]; [lia|].
  destruct (Hdraw _ _ Hz) as (mesh & vmin & vmax & seed & target & Hc).
  exists z, fa, axis, fig, mesh, vmin, vmax, seed, target.
  repeat (split; [done|]). split; [|done].
  apply (join_lookup_Some_same_length' k); [done | done |]. by exists fa.
Qed.

(** [n] passes of the body inside figure [f], none past the last node. *)
Lemma figure_run (nf : nat) (calls0 : list call) (f n : nat) :
  f < length figures →
  ∀ t new,
    t < k → t + n ≤ k → f * k + t + n ≤ length nodes →
    inv new (f * k + t) f →
    ∃ new',
      for_range n body (mkCursor f (f * k + t) t)
                (mkCanvas A nf (calls0 ++ new))
      = (mkCanvas A nf (calls0 ++ new'),
         Ok (if t + n =? k then mkCursor (S f) (f * k + t + n) 0
             else mkCursor f (f * k + t + n) (t + n)))
      ∧ inv new' (f * k + t + n) (if t + n =? k then S f else f).
Proof using Hrows Hcols Haxes_len Haxes Hdraw.
  intros Hf. induction n as [|n IH]; intros t new Ht Hn Hnodes [Hpan Hsup].
  - exists new. rewrite !Nat.add_0_r.
    rewrite (proj2 (Nat.eqb_neq t k)) by lia. done.
  - destruct (panel_ready f t)
      as (z & fa & axis & fig & mesh & vmin & vmax & seed & target
          & Hz & Hfa & Hax & Hfig & Hjoin & Hcontent); [done | done | lia |].
    rewrite for_range_S. unfold body at 1.
    rewrite (panel_ok self figures axes nodes q1 q2 f1_idcs f2_idcs n_rows
               n_cols major minor cbar_range f (f * k + t) t _ z fa axis
               mesh vmin vmax seed target Hz Hfa Hax Hcontent).
    cbn [n_figures calls]. rewrite Hfig.
    pose proof (panels_drawn_snoc self axes nodes q1 q2 f1_idcs f2_idcs major
                  minor cbar_range new _ z axis mesh vmin vmax seed target
                  Hpan Hz Hjoin Hcontent) as Hpan'.
    destruct (decide (S t = k)) as [Hlast|Hmore].
    + assert (n = 0) as -> by lia.
      assert ((n_rows * n_cols <=? Z.of_nat (S t))%Z = true) as ->
        by (apply Z.leb_le; unfold k in Hlast; lia).
      rewrite (proj2 (Nat.eqb_eq (t + 1) k)) by lia.
      eexists. rewrite <- app_assoc. split.
      * cbn [for_range]. unfold mret, Mpl_ret.
        by replace (f * k + t + 1) with (S (f * k + t)) by lia.
      * replace (f * k + t + 1) with (S (f * k + t)) by lia. split.
        -- rewrite app_assoc. by apply panels_drawn_suptitle.
        -- rewrite app_assoc. unfold suptitles. rewrite omap_app.
           fold (suptitles (new ++ panel_calls axis q1 q2 mesh vmin vmax
                                     major minor seed target)).
           rewrite suptitles_panel, Hsup. cbn [omap].
           by rewrite (take_S_r figures f fig Hfig), fmap_app.
    + assert ((n_rows * n_cols <=? Z.of_nat (S t))%Z = false) as ->
        by (apply Z.leb_gt; unfold k in *; lia).
      rewrite <- app_assoc.
      replace (S (f * k + t)) with (f * k + S t) by lia.
      destruct (IH (S t)
                  (new ++ panel_calls axis q1 q2 mesh vmin vmax major minor
                                      seed target))
        as (new' & Hrun & Hinv); [lia | lia | lia | |].
      { split.
        - by replace (f * k + S t) with (S (f * k + t)) by lia.
        - by rewrite suptitles_panel. }
      exists new'. rewrite Hrun.
      replace (S t + n) with (t + S n) in * by lia.
      replace (f * k + S t + n) with (f * k + t + S n) in * by lia.
      done.
Qed.

(** ... and when the nodes end inside the figure. *)
Lemma figure_fail (nf : nat) (calls0 : list call) (f n : nat) :
  f < length figures →
  ∀ t new,
    t < k → t + n ≤ k → f * k + t ≤ length nodes →
    length nodes < f * k + t + n →
    inv new (f * k + t) f →
    ∃ new',
      for_range n body (mkCursor f (f * k + t) t)
                (mkCanvas A nf (calls0 ++ new))
      = (mkCanvas A nf (calls0 ++ new'), Raise IndexError)
      ∧ inv new' (length nodes) f.
Proof using Hrows Hcols Haxes_len Haxes Hdraw.
  intros Hf. induction n as [|n IH]; intros t new Ht Hn Hle Hgt [Hpan Hsup].
  - lia.
  - rewrite for_range_S.
    destruct (decide (f * k + t = length nodes)) as [Hend|Hmore].
    + unfold body at 1. rewrite panel_raise by lia.
      exists new. by rewrite <- Hend.
    + destruct (panel_ready f t)
        as (z & fa & axis & fig & mesh & vmin & vmax & seed & target
            & Hz & Hfa & Hax & Hfig & Hjoin & Hcontent);
        [done | done | lia |].
      unfold body at 1.
      rewrite (panel_ok self figures axes nodes q1 q2 f1_idcs f2_idcs n_rows
                 n_cols major minor cbar_range f (f * k + t) t _ z fa axis
                 mesh vmin vmax seed target Hz Hfa Hax Hcontent).
      cbn [n_figures calls].
      assert ((n_rows * n_cols <=? Z.of_nat (S t))%Z = false) as ->
        by (apply Z.leb_gt; unfold k in *; lia).
      rewrite <- app_assoc.
      replace (S (f * k + t)) with (f * k + S t) by lia.
      apply (IH (S t)); [lia | lia | lia | lia |]. split.
      * replace (f * k + S t) with (S (f * k + t)) by lia.
        by apply (panels_drawn_snoc self axes nodes q1 q2 f1_idcs f2_idcs major
                     minor cbar_range new _ z).
      * by rewrite suptitles_panel.
Qed.

Let loop (fuel : nat) : cursor → Mpl (option cursor) :=
  while_loop fuel (λ c, fig_i c <? length figures)
    (for_range (Z.to_nat n_rows) (for_range (Z.to_nat n_cols) body)).

(** Every figure is filled: the loop ends after the last one. *)
Lemma figures_full (nf : nat) (calls0 : list call) :
  length figures * k ≤ length nodes →
  ∀ d f fuel new,
    f + d = length figures → d < fuel → inv new (f * k) f →
    ∃ new',
      loop fuel (mkCursor f (f * k) 0) (mkCanvas A nf (calls0 ++ new))
      = (mkCanvas A nf (calls0 ++ new'),
         Ok (Some (mkCursor (length figures) (length figures * k) 0)))
      ∧ inv new' (length figures * k) (length figures).
Proof using Hrows Hcols Haxes_len Haxes Hdraw.
  intros Hfull. assert (Hk : 1 ≤ k) by (unfold k; nia).
  induction d as [|d IH]; intros f fuel new Hf Hfuel Hinv;
    (destruct fuel as [|fuel]; [lia|]); unfold loop; rewrite while_loop_S;
    cbn [fig_i].
  - assert (f = length figures) as -> by lia.
    rewrite (proj2 (Nat.ltb_ge _ _)) by lia. by exists new.
  - rewrite (proj2 (Nat.ltb_lt f (length figures))) by lia.
    rewrite for_range_nested, rows_cols by done. fold k.
    destruct (figure_run nf calls0 f k) with (t := 0) (new := new)
      as (new1 & Hrun & Hinv1); [lia | lia | lia | nia | |].
    { by rewrite Nat.add_0_r. }
    rewrite Nat.add_0_r in Hrun. rewrite Hrun.
    cbn [Nat.add] in *. rewrite Nat.eqb_refl in *.
    replace (f * k + k) with (S f * k) in * by lia.
    apply (IH (S f) fuel new1); [lia | lia |].
    by replace (S f * k) with (f * k + 0 + k) by lia.
Qed.

(** The nodes end inside a figure: the loop raises there. *)
Lemma figures_partial (nf : nat) (calls0 : list call) :
  length nodes < length figures * k →
  ∀ d f fuel new,
    f + d = length figures → d < fuel → f * k ≤ length nodes →
    inv new (f * k) f →
    ∃ new',
      loop fuel (mkCursor f (f * k) 0) (mkCanvas A nf (calls0 ++ new))
      = (mkCanvas A nf (calls0 ++ new'), Raise IndexError)
      ∧ inv new' (length nodes) (length nodes / k).
Proof using Hrows Hcols Haxes_len Haxes Hdraw.
  intros Hpart. assert (Hk : 1 ≤ k) by (unfold k; nia).
  induction d as [|d IH]; intros f fuel new Hf Hfuel Hle Hinv;
    (destruct fuel as [|fuel]; [lia|]); unfold loop; rewrite while_loop_S;
    cbn [fig_i].
  - nia.
  - rewrite (proj2 (Nat.ltb_lt f (length figures))) by lia.
    rewrite for_range_nested, rows_cols by done. fold k.
    destruct (decide (S f * k ≤ length nodes)) as [Hfits|Hends].
    + destruct (figure_run nf calls0 f k) with (t := 0) (new := new)
        as (new1 & Hrun & Hinv1); [lia | lia | lia | nia | |].
      { by rewrite Nat.add_0_r. }
      rewrite Nat.add_0_r in Hrun. rewrite Hrun.
      cbn [Nat.add] in *. rewrite Nat.eqb_refl in *.
      replace (f * k + k) with (S f * k) in * by lia.
      apply (IH (S f) fuel new1); [lia | lia | lia |].
      by replace (S f * k) with (f * k + 0 + k) by lia.
    + destruct (figure_fail nf calls0 f k) with (t := 0) (new := new)
        as (new1 & Hrun & Hinv1); [lia | lia | lia | lia | nia | |].
      { by rewrite Nat.add_0_r. }
      rewrite Nat.add_0_r in Hrun. rewrite Hrun.
      exists new1. split; [done|].
      assert (length nodes / k = f) as ->; [|done].
      symmetry. apply (Nat.div_unique _ _ _ (length nodes - f * k)); nia.
Qed.
End Figures.

Lemma ceil_div_unique (N k j : nat) :
  1 ≤ k → (N = 0 ∧ j = 0) ∨ (1 ≤ j ∧ (j - 1) * k < N ∧ N ≤ j * k) →
  j = (N + k - 1) / k.
Proof.
  intros Hk [[-> ->]|(Hj & Hlo & Hhi)].
  - symmetry. apply Nat.div_small. lia.
  - apply (Nat.div_unique _ _ _ (N + k - 1 - k * j)); nia.
Qed.

Section PlotResults.
Context {A : Arith} {M : MixedOrder A}.

Lemma for_range_0 {St} (r c : nat) (body : St → Mpl St) (s : St)
    (cv : canvas) :
  r = 0 ∨ c = 0 → for_range r (for_range c body) s cv = (cv, Ok s).
Proof.
  intros Hrc. rewrite for_range_nested.
  by replace (r * c) with 0 by (destruct Hrc; subst; lia).
Qed.
End PlotResults.

(** ** Validation *)

Lemma existsb_false_Forall {X} (f : X → bool) (l : list X) :
  existsb f l = false ↔ Forall (λ x, f x = false) l.
Proof.
  induction l as [|x l IH]; simpl.
  - split; [constructor | done].
  - rewrite orb_false_iff, IH, Forall_cons. done.
Qed.

Section Validation.
Context {A : Arith} {M : MixedOrder A}.

(** What the base class has checked when it returns. *)
Lemma base_sort_plot_inputs_ok (self : plot_cfc)
    (nodes n_rows n_cols major minor : pyval) (ns : list Z) :
  PlotBase._sort_plot_inputs self nodes n_rows n_cols major minor = Ok ns →
  ((nodes = PyNone ∧ ns = Z.of_nat <$> seq 0 (n_nodes self))
   ∨ ∃ items, nodes = PyList items ∧ mapM as_int items = Some ns)
  ∧ Forall (λ z, (0 ≤ z < Z.of_nat (n_nodes self))%Z) ns
  ∧ (∃ r c, n_rows = PyInt r ∧ n_cols = PyInt c ∧ (1 ≤ r)%Z ∧ (1 ≤ c)%Z)
  ∧ is_number major = true ∧ is_number minor = true
  ∧ num_ge minor major = false.
Proof.
  unfold PlotBase._sort_plot_inputs.
  set (given := match nodes with
                | PyNone => PyList (PyInt <$> (Z.of_nat <$> seq 0 (n_nodes self)))
                | _ => nodes
                end).
  intros Hrun.
  destruct given as [| | | |items| |] eqn:Hgiven; try done.
  destruct (mapM as_int items) as [ints|] eqn:Hints; [|done].
  destruct (existsb _ ints || existsb _ ints) eqn:Hrange; [done|].
  destruct (as_int n_rows) as [r|] eqn:Hr; [|done].
  destruct (as_int n_cols) as [c|] eqn:Hc; [|done].
  destruct ((r <? 1) || (c <? 1))%Z eqn:Hgrid; [done|].
  destruct (negb (is_number major) || negb (is_number minor)) eqn:Hnum;
    [done|].
  destruct (num_ge minor major) eqn:Hge; [done|].
  injection Hrun as <-.
  apply orb_false_iff in Hrange as [Hhi Hlo].
  rewrite existsb_false_Forall in Hhi, Hlo.
  apply orb_false_iff in Hgrid as [Hr1 Hc1].
  apply orb_false_iff in Hnum as [Hmaj Hmin].
  apply negb_false_iff in Hmaj, Hmin.
  split; [|split; [|split; [|done]]].
  - subst given. destruct nodes; try discriminate Hgiven.
    + left. split; [done|]. injection Hgiven as <-.
      rewrite mapM_fmap_Some in Hints by done. by injection Hints as <-.
    + right. injection Hgiven as ->. by exists items.
  - apply Forall_forall. intros z Hz.
    pose proof (proj1 (Forall_forall _ _) Hhi z Hz) as H1.
    pose proof (proj1 (Forall_forall _ _) Hlo z Hz) as H2.
    cbn beta in H1, H2. lia.
  - destruct n_rows; try discriminate Hr. destruct n_cols; try discriminate Hc.
    injection Hr as ->. injection Hc as ->. exists r, c. repeat split; lia.
Qed.

(** The colourbar limits that pass lines 313-328. *)
Lemma sort_cbar_range_ok (cbar_range : pyval) (n : nat)
    (entries : list pyval) :
  PlotCFC.sort_cbar_range cbar_range n = Ok entries →
  length entries = n ∧ Forall (λ entry, py_len entry = Ok 2) entries
  ∧ (cbar_range = PyNone → entries = replicate n (PyList [PyNone; PyNone]))
  ∧ (is_list cbar_range = true → entries = replicate n cbar_range).
Proof.
  unfold PlotCFC.sort_cbar_range. intros Hrun.
  apply result_bind_ok in Hrun as (es & Hes & Hrun).
  apply result_bind_ok in Hrun as (us & Hus & [= <-]).
  split; [|split].
  - destruct cbar_range as [| | | |items|items|]; try done.
    + injection Hes as <-. by rewrite length_replicate.
    + injection Hes as <-. by rewrite length_replicate.
    + destruct (length items =? n) eqn:Hlen; [|done].
      injection Hes as <-. by apply Nat.eqb_eq.
  - apply map_result_ok in Hus. clear Hes.
    induction Hus as [|e u es us He _ IH]; constructor; [|done].
    apply result_bind_ok in He as (m & Hm & He).
    destruct (m =? 2) eqn:H2; [|done]. apply Nat.eqb_eq in H2. by subst.
  - split.
    + intros ->. by injection Hes as <-.
    + destruct cbar_range; try done. intros _. by injection Hes as <-.
Qed.
End Validation.

(** What the plotting loops rely on once the inputs are sorted. *)
Lemma sort_plot_inputs_valid {A : Arith} {M : MixedOrder A}
    (self : plot_cfc)
    (nodes q1 q2 n_rows n_cols major minor cbar_range : pyval)
    (s : sorted_inputs) :
  PlotCFC._sort_plot_inputs self nodes q1 q2 n_rows n_cols major minor
    cbar_range = Ok s →
  Forall (λ z, (0 ≤ z < Z.of_nat (n_nodes self))%Z) (s_nodes s)
  ∧ (∀ r, n_rows = PyInt r → (1 ≤ r)%Z)
  ∧ (∀ c, n_cols = PyInt c → (1 ≤ c)%Z)
  ∧ Forall (λ i, i < length (f1s self)) (s_f1_idcs s)
  ∧ Forall (λ i, i < length (f2s self)) (s_f2_idcs s)
  ∧ length (s_cbar_range s) = length (s_nodes s).
Proof.
  unfold PlotCFC._sort_plot_inputs. intros Hrun.
  apply result_bind_ok in Hrun as (ns & Hbase & Hrun).
  apply base_sort_plot_inputs_ok in Hbase
    as (_ & Hrange & (r & c & -> & -> & Hr & Hc) & _).
  destruct (match q1 with PyNone => _ | _ => _ end)
    as [| | | | | |shape1 l1]; try done.
  destruct (match q2 with PyNone => _ | _ => _ end)
    as [| | | | | |shape2 l2]; try done.
  destruct (negb (length shape1 =? 1) || negb (length shape2 =? 1)); [done|].
  destruct (existsb _ l1 || existsb _ l2); [done|].
  apply result_bind_ok in Hrun as (i1 & Hi1 & Hrun).
  apply result_bind_ok in Hrun as (i2 & Hi2 & Hrun).
  apply result_bind_ok in Hrun as (cbar & Hcbar & [= <-]).
  cbn [s_nodes s_f1_idcs s_f2_idcs s_cbar_range].
  apply sort_cbar_range_ok in Hcbar as (Hlen & _).
  split; [done|]. split; [by intros ? [= <-]|]. split; [by intros ? [= <-]|].
  split; [|split; [|done]].
  - apply map_result_ok in Hi1. clear -Hi1.
    induction Hi1 as [|v i vs idcs Hv _ IH]; constructor; [|done].
    by apply fast_find_first_ok in Hv as [(w & Hw%lookup_lt_Some & _) _].
  - apply map_result_ok in Hi2. clear -Hi2.
    induction Hi2 as [|v i vs idcs Hv _ IH]; constructor; [|done].
    by apply fast_find_first_ok in Hv as [(w & Hw%lookup_lt_Some & _) _].
Qed.

(** ** From validated inputs to panels *)

Lemma full_figures (n k : nat) :
  1 ≤ k → n mod k = 0 → (n + k - 1) / k * k = n.
Proof.
  intros Hk Hmod. pose proof (Nat.div_mod_eq n k) as Hn.
  rewrite Hmod, Nat.add_0_r in Hn.
  assert ((n + k - 1) / k = n / k) as ->; [|lia].
  symmetry. apply (Nat.div_unique _ _ _ (k - 1)); lia.
Qed.

Lemma partial_figure (n k : nat) :
  1 ≤ k → n mod k ≠ 0 → n < (n + k - 1) / k * k.
Proof.
  intros Hk Hmod. pose proof (Nat.div_mod_eq n k) as Hn.
  pose proof (Nat.mod_upper_bound n k) as Hr.
  assert ((n + k - 1) / k = S (n / k)) as ->; [|nia].
  symmetry. apply (Nat.div_unique _ _ _ (n mod k - 1)); lia.
Qed.

Lemma figures_at_most_nodes (n k : nat) : 1 ≤ k → (n + k - 1) / k ≤ n.
Proof.
  intros Hk. apply Nat.lt_succ_r, Nat.Div0.div_lt_upper_bound. nia.
Qed.

Section Ready.
Context {A : Arith} {M : MixedOrder A}.

Lemma mpl_bind_run {T U} (m : Mpl T) (f : T → Mpl U) (cv cv1 : canvas)
    (t : T) :
  m cv = (cv1, Ok t) → (m ≫= f) cv = f t cv1.
Proof. unfold mbind, Mpl_bind. by intros ->. Qed.

Lemma mpl_bind_fail {T U} (m : Mpl T) (f : T → Mpl U) (cv cv1 : canvas)
    (e : exn) :
  m cv = (cv1, Raise e) → (m ≫= f) cv = (cv1, Raise e).
Proof. unfold mbind, Mpl_bind. by intros ->. Qed.

Lemma py_index_ok {X} (l : list X) (i : Z) :
  (0 ≤ i < Z.of_nat (length l))%Z → ∃ x, py_index l i = Ok x.
Proof.
  intros Hi. unfold py_index.
  rewrite (proj2 (Z.ltb_ge i 0)) by lia.
  rewrite (proj2 (Z.ltb_ge i 0)) by lia.
  rewrite (proj2 (Z.leb_gt _ i)) by lia. cbn [orb].
  destruct (lookup_lt_is_Some_2 l (Z.to_nat i)) as [x ->]; [lia|].
  by exists x.
Qed.

Lemma py_index_elem {X} (l : list X) (i : Z) (x : X) :
  py_index l i = Ok x → x ∈ l.
Proof.
  unfold py_index. destruct (_ || _); [done|].
  destruct (l !! _) as [y|] eqn:Hy; [|done]. intros [= <-].
  by eapply list_elem_of_lookup_2.
Qed.

(** Subscripts inside the array select. *)
Lemma ix_T_total (m : matrix) (rows cols : nat) (f1_idcs f2_idcs : list nat) :
  has_shape m rows cols →
  Forall (λ a, a < rows) f1_idcs → Forall (λ b, b < cols) f2_idcs →
  ∃ mesh, PlotCFC.ix_T m f1_idcs f2_idcs = Ok mesh.
Proof.
  intros Hshape H1 H2. unfold PlotCFC.ix_T. apply map_result_total.
  apply Forall_forall. intros b Hb%(proj1 (Forall_forall _ _) H2).
  apply map_result_total, Forall_forall.
  intros a Ha%(proj1 (Forall_forall _ _) H1).
  destruct (get_item_shaped m rows cols a b Hshape Ha Hb) as [v ->].
  by exists v.
Qed.

(** Validated inputs on a well-formed object can all be drawn. *)
Lemma validated_drawable (self : plot_cfc) (nodes : list Z)
    (f1_idcs f2_idcs : list nat) (cbar_range : list pyval) :
  well_formed self →
  Forall (λ z, (0 ≤ z < Z.of_nat (n_nodes self))%Z) nodes →
  Forall (λ i, i < length (f1s self)) f1_idcs →
  Forall (λ i, i < length (f2s self)) f2_idcs →
  length cbar_range = length nodes →
  Forall pair_of_limits cbar_range →
  drawable self nodes f1_idcs f2_idcs cbar_range.
Proof.
  intros (Hdata & Hshapes & seeds & targets & Hind & Hseeds & Htargets)
    Hnodes H1 H2 Hlen Hpairs p z Hz.
  pose proof (proj1 (Forall_lookup _ _) Hnodes p z Hz) as Hrange.
  cbn beta in Hrange.
  destruct (py_index_ok (_data self) z) as [d Hd]; [lia|].
  destruct (ix_T_total d (length (f1s self)) (length (f2s self))
              f1_idcs f2_idcs) as [mesh Hmesh]; [|done|done|].
  { apply (proj1 (Forall_forall _ _) Hshapes). by eapply py_index_elem. }
  destruct (lookup_lt_is_Some_2 cbar_range p) as [lim Hlim].
  { rewrite Hlen. by eapply lookup_lt_Some. }
  destruct (proj1 (Forall_lookup _ _) Hpairs p lim Hlim) as (lo & hi & Hpair).
  destruct (py_index_ok seeds z) as [seed Hseed]; [lia|].
  destruct (py_index_ok targets z) as [target Htarget]; [lia|].
  exists mesh, lo, hi, seed, target. split; [by exists d|]. split.
  { exists lim. by destruct Hpair as [-> | ->]. }
  rewrite Hind. split.
  - by exists (PyList seeds).
  - by exists (PyList targets).
Qed.
End Ready.

Section Layouts.
Context {A : Arith}.

Lemma layout_lengths (n0 j k : nat) :
  length (axes_from n0 j k) = length (figures_from n0 j)
  ∧ Forall (λ a, length a = k) (axes_from n0 j k).
Proof.
  unfold figures_from, axes_from. rewrite length_fmap. split; [done|].
  apply Forall_fmap, Forall_forall. intros fig _. cbn.
  by rewrite length_fmap, length_seq.
Qed.

(** [_create_plots] on a grid with rows and columns. *)
Lemma create_plots_run (nodes : list Z) (n_rows n_cols : Z) (cv : canvas) :
  (1 ≤ n_rows)%Z → (1 ≤ n_cols)%Z →
  let k := Z.to_nat (n_rows * n_cols) in
  let n_figs := (length nodes + k - 1) / k in
  PlotBase._create_plots nodes n_rows n_cols cv
  = (mkCanvas A (n_figures cv + n_figs)
       (calls cv ++ subplots_calls (n_figures cv) n_figs n_rows n_cols),
     Ok (figures_from (n_figures cv) n_figs,
         axes_from (n_figures cv) n_figs k)).
Proof.
  intros Hr Hc k n_figs.
  destruct (create_plots_loop (length nodes) n_rows n_cols (n_figures cv)
              (calls cv) Hr Hc (length nodes) 0 0)
    as (j & Hrun & Hj); [done | by left |].
  assert (j = n_figs) as -> by (apply ceil_div_unique; [unfold k; nia | done]).
  unfold PlotBase._create_plots, mbind, Mpl_bind.
  destruct cv as [nf cs]. cbn [n_figures calls] in *.
  rewrite Nat.add_0_r, app_nil_r in Hrun.
  change (figures_from nf 0) with (@nil nat) in Hrun.
  change (axes_from nf 0 (Z.to_nat (n_rows * n_cols)))
    with (@nil (list axes_id)) in Hrun.
  change (Z.of_nat (0 * Z.to_nat (n_rows * n_cols))) with 0%Z in Hrun.
  by rewrite Hrun.
Qed.
End Layouts.

Section PlotRuns.
Context {A : Arith} {M : MixedOrder A}.

(** [plot] on sorted inputs whose nodes fill every figure. *)
Lemma plot_full_run (fuel : nat) (self : plot_cfc)
    (nodes q1 q2 major minor cbar_range : pyval) (show : bool)
    (s : sorted_inputs) (r c : Z) (cv : canvas) :
  well_formed self →
  PlotCFC._sort_plot_inputs self nodes q1 q2 (PyInt r) (PyInt c) major minor
    cbar_range = Ok s →
  Forall pair_of_limits (s_cbar_range s) →
  length (s_nodes s) < fuel →
  let k := Z.to_nat (r * c) in
  let n := length (s_nodes s) in
  let n_figs := (n + k - 1) / k in
  let figures := figures_from (n_figures cv) n_figs in
  let axes := axes_from (n_figures cv) n_figs k in
  n mod k = 0 →
  ∃ new,
    PlotCFC.plot fuel self nodes q1 q2 (PyInt r) (PyInt c) major minor
      cbar_range show cv
    = (mkCanvas A (n_figures cv + n_figs)
         (calls cv ++ subplots_calls (n_figures cv) n_figs r c ++ new
                   ++ (if show then [PltShow] else [])),
       Ok (Some (figures, axes)))
    ∧ panels_drawn self axes (s_nodes s) (s_f1_idcs s) (s_f2_idcs s)
                   (s_cbar_range s) new n
    ∧ suptitles new = (λ fig, (fig, name self)) <$> figures.
Proof.
  intros Hwf Hsort Hpairs Hfuel k n n_figs figures axes Hmod.
  destruct (sort_plot_inputs_valid self nodes q1 q2 (PyInt r) (PyInt c)
              major minor cbar_range s Hsort)
    as (Hnodes & Hr & Hc & Hi1 & Hi2 & Hlen).
  specialize (Hr r eq_refl). specialize (Hc c eq_refl).
  assert (Hk : 1 ≤ k) by (unfold k; nia).
  pose proof (validated_drawable self (s_nodes s) (s_f1_idcs s)
                (s_f2_idcs s) (s_cbar_range s) Hwf Hnodes Hi1 Hi2 Hlen
                Hpairs) as Hdraw.
  destruct (layout_lengths (n_figures cv) n_figs k) as [Haxes_len Haxes].
  pose proof (figures_at_most_nodes n k Hk) as Hfigs.
  assert (Hnfigs : length figures = n_figs)
    by (unfold figures, figures_from; apply length_seq).
  unfold PlotCFC.plot.
  rewrite (bind_lift_ok _ _ s cv Hsort). cbn [as_int of_option].
  rewrite (bind_lift_ok _ _ r cv eq_refl), (bind_lift_ok _ _ c cv eq_refl).
  rewrite (mpl_bind_run _ _ cv _ _ (create_plots_run (s_nodes s) r c cv Hr Hc)).
  fold k n n_figs figures axes.
  set (cv1 := mkCanvas A (n_figures cv + n_figs)
                (calls cv ++ subplots_calls (n_figures cv) n_figs r c)).
  destruct (figures_full self figures axes (s_nodes s) (s_f1s s) (s_f2s s)
              (s_f1_idcs s) (s_f2_idcs s) r c major minor (s_cbar_range s)
              Hr Hc Haxes_len Haxes Hdraw (n_figures cv1) (calls cv1))
    with (d := length figures) (f := 0) (fuel := fuel) (new := @nil call)
    as (new & Hrun & Hpanels & Hsup).
  { rewrite Hnfigs. fold k. unfold n_figs. by rewrite full_figures. }
  { done. }
  { lia. }
  { split; [apply panels_drawn_nil | done]. }
  rewrite Hnfigs in Hpanels. fold k in Hpanels. unfold n_figs in Hpanels.
  rewrite full_figures in Hpanels by done.
  rewrite firstn_all in Hsup.
  exists new. split; [|done].
  unfold PlotCFC._plot_results. rewrite app_nil_r in Hrun.
  cbn [Nat.mul] in Hrun.
  rewrite (mpl_bind_run _ _ cv1 _ _ (mpl_bind_run _ _ cv1 _ _ Hrun)).
  unfold mret at 1, Mpl_ret at 1. cbn [mbind option_bind].
  unfold cv1. cbn [n_figures calls].
  destruct show.
  - rewrite bind_record. cbn [n_figures calls].
    unfold mret, Mpl_ret. by rewrite <- !app_assoc.
  - unfold mbind, Mpl_bind, mret, Mpl_ret. by rewrite <- app_assoc, app_nil_r.
Qed.

Lemma meshes_app (cs ds : list call) :
  meshes (cs ++ ds) = meshes cs ++ meshes ds.
Proof. apply omap_app. Qed.

Lemma suptitles_app (cs ds : list call) :
  suptitles (cs ++ ds) = suptitles cs ++ suptitles ds.
Proof. apply omap_app. Qed.

Lemma meshes_subplots (n0 j : nat) (n_rows n_cols : Z) :
  meshes (subplots_calls n0 j n_rows n_cols) = [].
Proof. unfold subplots_calls. by induction (seq n0 j). Qed.

Lemma suptitles_subplots (n0 j : nat) (n_rows n_cols : Z) :
  suptitles (subplots_calls n0 j n_rows n_cols) = [].
Proof. unfold subplots_calls. by induction (seq n0 j). Qed.

Lemma member_self (fs : list float64) (v : float64) :
  f_eq v v = true → v ∈ fs → member fs v = true.
Proof.
  intros Hv Hin. unfold member. apply existsb_exists.
  exists v. split; [by apply list_elem_of_In | done].
Qed.

(** Every value of an axis without NaN is found on it. *)
Lemma axis_indices (fs : list float64) :
  Forall (λ v, f_eq v v = true) fs →
  existsb (λ freq, negb (member fs freq)) fs = false
  ∧ ∃ idcs, map_result (fast_find_first fs) fs = Ok idcs.
Proof.
  intros Hfs.
  assert (Hmem : Forall (λ v, member fs v = true) fs).
  { apply Forall_forall. intros v Hv. apply member_self; [|done].
    by apply (proj1 (Forall_forall _ _) Hfs). }
  split.
  - apply existsb_false_Forall. eapply Forall_impl; [exact Hmem|].
    by intros v ->.
  - apply map_result_total. eapply Forall_impl; [exact Hmem|].
    intros v (k & Hk & _)%fast_find_first_member. by exists k.
Qed.

(** [_sort_plot_inputs] with the default nodes, frequencies and limits. *)
Lemma sort_plot_inputs_defaults (self : plot_cfc) (r c : Z)
    (major minor : pyval) :
  Forall (λ v, f_eq v v = true) (f1s self) →
  Forall (λ v, f_eq v v = true) (f2s self) →
  (1 ≤ r)%Z → (1 ≤ c)%Z →
  is_number major = true → is_number minor = true →
  num_ge minor major = false →
  ∃ f1_idcs f2_idcs,
    PlotCFC._sort_plot_inputs self PyNone PyNone PyNone (PyInt r) (PyInt c)
      major minor PyNone
    = Ok (mkSorted A (Z.of_nat <$> seq 0 (n_nodes self)) (f1s self)
            (f2s self) f1_idcs f2_idcs
            (replicate (n_nodes self) (PyList [PyNone; PyNone]))).
Proof.
  intros H1 H2 Hr Hc Hmaj Hmin Hge.
  destruct (axis_indices (f1s self) H1) as [Hm1 [i1 Hi1]].
  destruct (axis_indices (f2s self) H2) as [Hm2 [i2 Hi2]].
  exists i1, i2.
  unfold PlotCFC._sort_plot_inputs, PlotBase._sort_plot_inputs.
  rewrite mapM_fmap_Some by done.
  assert (existsb (λ con, (Z.of_nat (n_nodes self) <=? con)%Z)
            (Z.of_nat <$> seq 0 (n_nodes self)) = false) as ->.
  { apply existsb_false_Forall, Forall_fmap, Forall_forall.
    intros i Hi%elem_of_seq. cbn. apply Z.leb_gt. lia. }
  assert (existsb (λ con, (con <? 0)%Z)
            (Z.of_nat <$> seq 0 (n_nodes self)) = false) as ->.
  { apply existsb_false_Forall, Forall_fmap, Forall_forall.
    intros i _. cbn. apply Z.ltb_ge. lia. }
  cbn [orb as_int].
  rewrite (proj2 (Z.ltb_ge r 1)), (proj2 (Z.ltb_ge c 1)) by lia.
  rewrite Hmaj, Hmin, Hge. cbn [orb negb mbind result_bind].
  cbn [length Nat.eqb negb orb]. rewrite Hm1, Hm2. cbn [orb].
  rewrite Hi1, Hi2. cbn [mbind result_bind].
  unfold PlotCFC.sort_cbar_range. rewrite length_fmap, length_seq.
  cbn [mbind result_bind]. rewrite (map_result_replicate _ _ _ tt) by done.
  done.
Qed.
End PlotRuns.

(** ** The showcase *)

Lemma shown_well_formed : well_formed shown.
Proof.
  split; [done|]. split.
  - repeat constructor.
  - by exists [PyInt 0; PyInt 0; PyInt 1], [PyInt 0; PyInt 1; PyInt 1].
Qed.

Lemma shown_axes :
  Forall (λ v, f_eq (Arith := exact_arith) v v = true) (f1s shown)
  ∧ Forall (λ v, f_eq (Arith := exact_arith) v v = true) (f2s shown).
Proof. split; repeat constructor; by apply Reqb_true_iff. Qed.

Lemma shown_sorted (r c : Z) :
  (1 ≤ r)%Z → (1 ≤ c)%Z →
  PlotCFC._sort_plot_inputs shown PyNone PyNone PyNone (PyInt r) (PyInt c)
    (PyInt 5) (PyInt 1) PyNone
  = Ok (mkSorted exact_arith [0; 1; 2]%Z [Xreal 5] [Xreal 10] [0] [0]
          automatic).
Proof.
  intros Hr Hc.
  unfold PlotCFC._sort_plot_inputs, PlotBase._sort_plot_inputs.
  cbn -[Z.ltb Z.leb Reqb].
  rewrite (proj2 (Reqb_true_iff 5 5) eq_refl).
  rewrite (proj2 (Reqb_true_iff 10 10) eq_refl).
  rewrite (proj2 (Z.ltb_ge r 1)), (proj2 (Z.ltb_ge c 1)) by lia.
  reflexivity.
Qed.

Lemma shown_drawable :
  drawable shown [0; 1; 2]%Z [0] [0] automatic.
Proof.
  apply validated_drawable.
  - apply shown_well_formed.
  - repeat (constructor; [simpl; lia|]). constructor.
  - repeat constructor.
  - repeat constructor.
  - done.
  - apply Forall_replicate. exists PyNone, PyNone. by left.
Qed.

(** ** Properties *)

(** X7.  For a grid of [n_rows >= 1] by [n_cols >= 1] subplots and any list
    of nodes, [_create_plots] opens [ceil(len(nodes) / (n_rows * n_cols))]
    figures and no more, numbers them on from the figures already open,
    gives each of them [n_rows * n_cols] axes and returns figures and axes
    in that order: the lengths its docstring announces. *)
Theorem create_plots_layout {A : Arith}
    (nodes : list Z) (n_rows n_cols : Z) (cv : canvas) :
  (1 ≤ n_rows)%Z → (1 ≤ n_cols)%Z →
  let k := Z.to_nat (n_rows * n_cols) in
  let n_figs := (length nodes + k - 1) / k in
  PlotBase._create_plots nodes n_rows n_cols cv
  = (mkCanvas A (n_figures cv + n_figs)
       (calls cv ++ subplots_calls (n_figures cv) n_figs n_rows n_cols),
     Ok (figures_from (n_figures cv) n_figs,
         axes_from (n_figures cv) n_figs k))
  ∧ length (figures_from (n_figures cv) n_figs) = n_figs
  ∧ length (axes_from (n_figures cv) n_figs k) = n_figs
  ∧ Forall (λ a, length a = k) (axes_from (n_figures cv) n_figs k).
Proof.
  intros Hr Hc k n_figs. split; [by apply create_plots_run|].
  destruct (layout_lengths (n_figures cv) n_figs k) as [Hlen Haxes].
  assert (Hfigs : length (figures_from (n_figures cv) n_figs) = n_figs)
    by apply length_seq.
  split; [done|]. split; [by rewrite Hlen | done].
Qed.

(** Three nodes on a grid of 2 x 1. *)
Lemma create_plots_layout_witness :
  PlotBase._create_plots (A := exact_arith) [2; 0; 1]%Z 2 1 blank
  = (mkCanvas exact_arith 2 [Subplots 0 2 1; Subplots 1 2 1],
     Ok ([0; 1], [[(0, 0); (0, 1)]; [(1, 0); (1, 1)]]))
  ∧ length (figures_from 0 2) = 2
  ∧ length (axes_from 0 2 2) = 2
  ∧ Forall (λ a, length a = 2) (axes_from 0 2 2).
Proof.
  apply (create_plots_layout (A := exact_arith) [2; 0; 1]%Z 2 1 blank); lia.
Defined.

(** X8.  When the nodes fill every figure handed to it
    ([len(figures) * n_rows * n_cols <= len(nodes)]), [_plot_results]
    returns.  It has then drawn one mesh per axes, in the order of [nodes]
    and of the axes figure by figure, each from the data, the colour limits
    and the seed and target of its node, and has given every figure its
    title; more iterations of the [while] loop than there are figures are
    never needed. *)
Theorem plot_results_full_figures {A : Arith} {M : MixedOrder A}
    (fuel : nat) (self : plot_cfc) (figures : list nat)
    (axes : list (list axes_id)) (nodes : list Z) (q1 q2 : list float64)
    (f1_idcs f2_idcs : list nat) (n_rows n_cols : Z) (major minor : pyval)
    (cbar_range : list pyval) (cv : canvas) :
  (1 ≤ n_rows)%Z → (1 ≤ n_cols)%Z →
  length axes = length figures →
  Forall (λ a, length a = Z.to_nat (n_rows * n_cols)) axes →
  drawable self nodes f1_idcs f2_idcs cbar_range →
  length figures * Z.to_nat (n_rows * n_cols) ≤ length nodes →
  length figures < fuel →
  ∃ new,
    PlotCFC._plot_results fuel self figures axes nodes q1 q2 f1_idcs f2_idcs
      n_rows n_cols major minor cbar_range cv
    = (mkCanvas A (n_figures cv) (calls cv ++ new), Ok (Some tt))
    ∧ panels_drawn self axes nodes f1_idcs f2_idcs cbar_range new
        (length figures * Z.to_nat (n_rows * n_cols))
    ∧ suptitles new = (λ fig, (fig, name self)) <$> figures.
Proof.
  intros Hr Hc Hlen Haxes Hdraw Hfull Hfuel.
  destruct (figures_full self figures axes nodes q1 q2 f1_idcs f2_idcs
              n_rows n_cols major minor cbar_range Hr Hc Hlen Haxes Hdraw
              (n_figures cv) (calls cv) Hfull (length figures) 0 fuel [])
    as (new & Hrun & Hpanels & Hsup); [done | done | |].
  { split; [apply panels_drawn_nil | done]. }
  exists new. rewrite firstn_all in Hsup. split; [|done].
  unfold PlotCFC._plot_results, mbind at 1, Mpl_bind at 1.
  destruct cv as [nf cs]. cbn [n_figures calls] in *.
  rewrite app_nil_r in Hrun. cbn [Nat.mul] in Hrun. by rewrite Hrun.
Qed.

(** The three connections on three figures of one panel each. *)
Lemma plot_results_full_figures_witness :
  ∃ new,
    PlotCFC._plot_results 4 shown [0; 1; 2] [[(0, 0)]; [(1, 0)]; [(2, 0)]]
      [0; 1; 2]%Z [Xreal 5] [Xreal 10] [0] [0] 1 1 (PyInt 5) (PyInt 1)
      automatic blank
    = (mkCanvas exact_arith 0 ([] ++ new), Ok (Some tt))
    ∧ panels_drawn shown [[(0, 0)]; [(1, 0)]; [(2, 0)]] [0; 1; 2]%Z [0] [0]
        automatic new 3
    ∧ suptitles new = [(0, "PPC"); (1, "PPC"); (2, "PPC")].
Proof.
  apply (plot_results_full_figures 4 shown [0; 1; 2]
           [[(0, 0)]; [(1, 0)]; [(2, 0)]] [0; 1; 2]%Z [Xreal 5] [Xreal 10]
           [0] [0] 1 1 (PyInt 5) (PyInt 1) automatic blank).
  - lia.
  - lia.
  - reflexivity.
  - repeat constructor.
  - apply shown_drawable.
  - simpl. lia.
  - simpl. lia.
Defined.

(** X9.  When the nodes end inside a figure
    ([len(nodes) < len(figures) * n_rows * n_cols]), [_plot_results] raises
    [IndexError] at [nodes[plot_n]]: it has drawn every node by then, and
    the figure it stopped in, like those after it, has no title. *)
Theorem plot_results_partial_figure_raises {A : Arith} {M : MixedOrder A}
    (fuel : nat) (self : plot_cfc) (figures : list nat)
    (axes : list (list axes_id)) (nodes : list Z) (q1 q2 : list float64)
    (f1_idcs f2_idcs : list nat) (n_rows n_cols : Z) (major minor : pyval)
    (cbar_range : list pyval) (cv : canvas) :
  (1 ≤ n_rows)%Z → (1 ≤ n_cols)%Z →
  length axes = length figures →
  Forall (λ a, length a = Z.to_nat (n_rows * n_cols)) axes →
  drawable self nodes f1_idcs f2_idcs cbar_range →
  length nodes < length figures * Z.to_nat (n_rows * n_cols) →
  length figures < fuel →
  ∃ new,
    PlotCFC._plot_results fuel self figures axes nodes q1 q2 f1_idcs f2_idcs
      n_rows n_cols major minor cbar_range cv
    = (mkCanvas A (n_figures cv) (calls cv ++ new), Raise IndexError)
    ∧ panels_drawn self axes nodes f1_idcs f2_idcs cbar_range new
        (length nodes)
    ∧ suptitles new
      = (λ fig, (fig, name self))
          <$> take (length nodes / Z.to_nat (n_rows * n_cols)) figures.
Proof.
  intros Hr Hc Hlen Haxes Hdraw Hpart Hfuel.
  destruct (figures_partial self figures axes nodes q1 q2 f1_idcs f2_idcs
              n_rows n_cols major minor cbar_range Hr Hc Hlen Haxes Hdraw
              (n_figures cv) (calls cv) Hpart (length figures) 0 fuel [])
    as (new & Hrun & Hpanels & Hsup); [done | done | lia | |].
  { split; [apply panels_drawn_nil | done]. }
  exists new. split; [|done].
  unfold PlotCFC._plot_results, mbind at 1, Mpl_bind at 1.
  destruct cv as [nf cs]. cbn [n_figures calls] in *.
  rewrite app_nil_r in Hrun. cbn [Nat.mul] in Hrun. by rewrite Hrun.
Qed.

(** The three connections on figures of two panels each. *)
Lemma plot_results_partial_figure_raises_witness :
  ∃ new,
    PlotCFC._plot_results 4 shown [0; 1]
      [[(0, 0); (0, 1)]; [(1, 0); (1, 1)]]
      [0; 1; 2]%Z [Xreal 5] [Xreal 10] [0] [0] 2 1 (PyInt 5) (PyInt 1)
      automatic blank
    = (mkCanvas exact_arith 0 ([] ++ new), Raise IndexError)
    ∧ panels_drawn shown [[(0, 0); (0, 1)]; [(1, 0); (1, 1)]] [0; 1; 2]%Z
        [0] [0] automatic new 3
    ∧ suptitles new = [(0, "PPC")].
Proof.
  apply (plot_results_partial_figure_raises 4 shown [0; 1]
           [[(0, 0); (0, 1)]; [(1, 0); (1, 1)]] [0; 1; 2]%Z [Xreal 5]
           [Xreal 10] [0] [0] 2 1 (PyInt 5) (PyInt 1) automatic blank).
  - lia.
  - lia.
  - reflexivity.
  - repeat constructor.
  - apply shown_drawable.
  - simpl. lia.
  - simpl. lia.
Defined.

(** X10.  Called with [n_rows <= 0] or [n_cols <= 0] and at least one
    figure, [_plot_results] never leaves its [while] loop: the two [for]
    loops have no pass, [fig_i] stays 0 and nothing is drawn, whatever the
    number of iterations allowed.  Termination rests on the validation done
    by [_sort_plot_inputs]. *)
Theorem plot_results_without_grid_never_ends {A : Arith} {M : MixedOrder A}
    (self : plot_cfc) (figures : list nat) (axes : list (list axes_id))
    (nodes : list Z) (q1 q2 : list float64) (f1_idcs f2_idcs : list nat)
    (n_rows n_cols : Z) (major minor : pyval) (cbar_range : list pyval) :
  (n_rows ≤ 0)%Z ∨ (n_cols ≤ 0)%Z → figures ≠ [] →
  ∀ fuel cv,
    PlotCFC._plot_results fuel self figures axes nodes q1 q2 f1_idcs f2_idcs
      n_rows n_cols major minor cbar_range cv
    = (cv, Ok None).
Proof.
  intros Hgrid Hfigs fuel cv.
  unfold PlotCFC._plot_results, mbind at 1, Mpl_bind at 1.
  assert (Hloop : ∀ c, fig_i c = 0 →
    while_loop fuel (λ c, fig_i c <? length figures)
      (for_range (Z.to_nat n_rows)
         (for_range (Z.to_nat n_cols)
            (PlotCFC.panel self figures axes nodes q1 q2 f1_idcs f2_idcs
               n_rows n_cols major minor cbar_range))) c cv
    = (cv, Ok None)).
  { induction fuel as [|fuel IH]; intros c Hc; [done|].
    rewrite while_loop_S, Hc.
    destruct figures as [|fig figs]; [done|]. cbn [length Nat.ltb Nat.leb].
    rewrite for_range_0 by lia. by apply IH. }
  by rewrite Hloop.
Qed.

(** A grid without rows. *)
Lemma plot_results_without_grid_never_ends_witness :
  PlotCFC._plot_results 1000 shown [0] [[]] [0; 1; 2]%Z [Xreal 5]
    [Xreal 10] [0] [0] 0 1 (PyInt 5) (PyInt 1) automatic blank
  = (blank, Ok None).
Proof.
  apply (plot_results_without_grid_never_ends shown [0] [[]] [0; 1; 2]%Z
           [Xreal 5] [Xreal 10] [0] [0] 0 1 (PyInt 5) (PyInt 1) automatic).
  - left. lia.
  - discriminate.
Defined.

(** X11.  What [_PlotCFC._sort_plot_inputs] has established when it
    returns: the nodes are indices of [self._data], all of them when none
    was requested; [n_rows] and [n_cols] are integers [>= 1]; the minor tick
    interval is not [>=] the major one; every index of [f1_idcs] and
    [f2_idcs] is the first position of the requested frequency on the
    object's axis; there is one pair of colour limits per node, whose
    length is 2. *)
Theorem sort_plot_inputs_sound {A : Arith} {M : MixedOrder A}
    (self : plot_cfc)
    (nodes q1 q2 n_rows n_cols major minor cbar_range : pyval)
    (s : sorted_inputs) :
  PlotCFC._sort_plot_inputs self nodes q1 q2 n_rows n_cols major minor
    cbar_range = Ok s →
  Forall (λ z, (0 ≤ z < Z.of_nat (n_nodes self))%Z) (s_nodes s)
  ∧ (nodes = PyNone → s_nodes s = Z.of_nat <$> seq 0 (n_nodes self))
  ∧ (∃ r c, n_rows = PyInt r ∧ n_cols = PyInt c ∧ (1 ≤ r)%Z ∧ (1 ≤ c)%Z)
  ∧ num_ge minor major = false
  ∧ Forall2 (first_index (f1s self)) (s_f1s s) (s_f1_idcs s)
  ∧ Forall2 (first_index (f2s self)) (s_f2s s) (s_f2_idcs s)
  ∧ (q1 = PyNone → s_f1s s = f1s self)
  ∧ (q2 = PyNone → s_f2s s = f2s self)
  ∧ length (s_cbar_range s) = length (s_nodes s)
  ∧ Forall (λ entry, py_len entry = Ok 2) (s_cbar_range s).
Proof.
  unfold PlotCFC._sort_plot_inputs. intros Hrun.
  apply result_bind_ok in Hrun as (ns & Hbase & Hrun).
  apply base_sort_plot_inputs_ok in Hbase
    as (Hnodes & Hrange & Hgrid & _ & _ & Hticks).
  set (a1 := match q1 with
             | PyNone => PyArray [length (f1s self)] (f1s self)
             | _ => q1
             end) in Hrun.
  set (a2 := match q2 with
             | PyNone => PyArray [length (f2s self)] (f2s self)
             | _ => q2
             end) in Hrun.
  destruct a1 as [| | | | | |shape1 l1] eqn:Ha1; try done.
  destruct a2 as [| | | | | |shape2 l2] eqn:Ha2; try done.
  destruct (negb (length shape1 =? 1) || negb (length shape2 =? 1)); [done|].
  destruct (existsb _ l1 || existsb _ l2); [done|].
  apply result_bind_ok in Hrun as (i1 & Hi1 & Hrun).
  apply result_bind_ok in Hrun as (i2 & Hi2 & Hrun).
  apply result_bind_ok in Hrun as (cbar & Hcbar & [= <-]).
  cbn [s_nodes s_f1s s_f2s s_f1_idcs s_f2_idcs s_cbar_range].
  apply sort_cbar_range_ok in Hcbar as (Hlen & Hpairs & _).
  split; [done|]. split.
  { intros ->. by destruct Hnodes as [[_ ->]|(items & [=] & _)]. }
  split; [done|]. split; [done|]. split.
  { apply map_result_ok in Hi1. eapply Forall2_impl; [exact Hi1|].
    intros v i. apply fast_find_first_ok. }
  split.
  { apply map_result_ok in Hi2. eapply Forall2_impl; [exact Hi2|].
    intros v i. apply fast_find_first_ok. }
  split.
  { intros ->. subst a1. by injection Ha1 as _ <-. }
  split; [|done].
  intros ->. subst a2. by injection Ha2 as _ <-.
Qed.

(** The default request on two rows. *)
Lemma sort_plot_inputs_sound_witness :
  Forall (λ z, (0 ≤ z < 3)%Z) [0; 1; 2]%Z
  ∧ (PyNone = PyNone (A := exact_arith) → [0; 1; 2]%Z = Z.of_nat <$> seq 0 3)
  ∧ (∃ r c, PyInt 2 = PyInt (A := exact_arith) r
            ∧ PyInt 1 = PyInt (A := exact_arith) c ∧ (1 ≤ r)%Z ∧ (1 ≤ c)%Z)
  ∧ num_ge (A := exact_arith) (PyInt 1) (PyInt 5) = false
  ∧ Forall2 (first_index (A := exact_arith) [Xreal 5]) [Xreal 5] [0]
  ∧ Forall2 (first_index (A := exact_arith) [Xreal 10]) [Xreal 10] [0]
  ∧ (PyNone = PyNone (A := exact_arith) → [Xreal 5] = [Xreal 5])
  ∧ (PyNone = PyNone (A := exact_arith) → [Xreal 10] = [Xreal 10])
  ∧ length automatic = 3
  ∧ Forall (λ entry, py_len entry = Ok 2) automatic.
Proof.
  exact (sort_plot_inputs_sound shown PyNone PyNone PyNone (PyInt 2)
           (PyInt 1) (PyInt 5) (PyInt 1) PyNone _
           (shown_sorted 2 1 ltac:(lia) ltac:(lia))).
Defined.

(** X12.  [plot] on a well-formed object, with inputs that
    [_sort_plot_inputs] accepts: it opens [ceil(n / (n_rows * n_cols))]
    figures for the [n] nodes and draws every node.  When [n] is a multiple
    of [n_rows * n_cols] it titles every figure, shows them if asked and
    returns figures and axes; otherwise it raises [IndexError] after the
    last node, the last figure left without title and nothing shown. *)
Theorem plot_outcome {A : Arith} {M : MixedOrder A} (fuel : nat)
    (self : plot_cfc)
    (nodes q1 q2 n_rows n_cols major minor cbar_range : pyval) (show : bool)
    (s : sorted_inputs) (r c : Z) (cv : canvas) :
  well_formed self →
  PlotCFC._sort_plot_inputs self nodes q1 q2 n_rows n_cols major minor
    cbar_range = Ok s →
  n_rows = PyInt r → n_cols = PyInt c →
  Forall pair_of_limits (s_cbar_range s) →
  length (s_nodes s) < fuel →
  let k := Z.to_nat (r * c) in
  let n := length (s_nodes s) in
  let n_figs := (n + k - 1) / k in
  let figures := figures_from (n_figures cv) n_figs in
  let axes := axes_from (n_figures cv) n_figs k in
  ∃ new,
    panels_drawn self axes (s_nodes s) (s_f1_idcs s) (s_f2_idcs s)
                 (s_cbar_range s) new n
    ∧ if decide (n mod k = 0) then
        PlotCFC.plot fuel self nodes q1 q2 n_rows n_cols major minor
          cbar_range show cv
        = (mkCanvas A (n_figures cv + n_figs)
             (calls cv ++ subplots_calls (n_figures cv) n_figs r c ++ new
                       ++ (if show then [PltShow] else [])),
           Ok (Some (figures, axes)))
        ∧ suptitles new = (λ fig, (fig, name self)) <$> figures
      else
        PlotCFC.plot fuel self nodes q1 q2 n_rows n_cols major minor
          cbar_range show cv
        = (mkCanvas A (n_figures cv + n_figs)
             (calls cv ++ subplots_calls (n_figures cv) n_figs r c ++ new),
           Raise IndexError)
        ∧ suptitles new
          = (λ fig, (fig, name self)) <$> take (n / k) figures.
Proof.
  intros Hwf Hsort -> -> Hpairs Hfuel k n n_figs figures axes.
  destruct (decide (n mod k = 0)) as [Hmod|Hmod].
  { destruct (plot_full_run fuel self nodes q1 q2 major minor cbar_range
                show s r c cv Hwf Hsort Hpairs Hfuel Hmod)
      as (new & Hrun & Hpanels & Hsup).
    by exists new. }
  destruct (sort_plot_inputs_valid self nodes q1 q2 (PyInt r) (PyInt c)
              major minor cbar_range s Hsort)
    as (Hnodes & Hr & Hc & Hi1 & Hi2 & Hlen).
  specialize (Hr r eq_refl). specialize (Hc c eq_refl).
  assert (Hk : 1 ≤ k) by (unfold k; nia).
  pose proof (validated_drawable self (s_nodes s) (s_f1_idcs s)
                (s_f2_idcs s) (s_cbar_range s) Hwf Hnodes Hi1 Hi2 Hlen
                Hpairs) as Hdraw.
  destruct (layout_lengths (n_figures cv) n_figs k) as [Haxes_len Haxes].
  pose proof (figures_at_most_nodes n k Hk) as Hfigs.
  assert (Hnfigs : length figures = n_figs)
    by (unfold figures, figures_from; apply length_seq).
  unfold PlotCFC.plot.
  rewrite (bind_lift_ok _ _ s cv Hsort). cbn [as_int of_option].
  rewrite (bind_lift_ok _ _ r cv eq_refl), (bind_lift_ok _ _ c cv eq_refl).
  rewrite (mpl_bind_run _ _ cv _ _ (create_plots_run (s_nodes s) r c cv Hr Hc)).
  fold k n n_figs figures axes.
  set (cv1 := mkCanvas A (n_figures cv + n_figs)
                (calls cv ++ subplots_calls (n_figures cv) n_figs r c)).
  destruct (figures_partial self figures axes (s_nodes s) (s_f1s s)
              (s_f2s s) (s_f1_idcs s) (s_f2_idcs s) r c major minor
              (s_cbar_range s) Hr Hc Haxes_len Haxes Hdraw (n_figures cv1)
              (calls cv1))
    with (d := length figures) (f := 0) (fuel := fuel) (new := @nil call)
    as (new & Hrun & Hpanels & Hsup).
  { rewrite Hnfigs. fold k. unfold n_figs. by apply partial_figure. }
  { done. }
  { lia. }
  { lia. }
  { split; [apply panels_drawn_nil | done]. }
  exists new. split; [done|]. split; [|done].
  unfold PlotCFC._plot_results. rewrite app_nil_r in Hrun.
  cbn [Nat.mul] in Hrun.
  rewrite (mpl_bind_fail _ _ cv1 _ _ (mpl_bind_fail _ _ cv1 _ _ Hrun)).
  unfold cv1. cbn [n_figures calls]. by rewrite <- app_assoc.
Qed.

(** [plot(n_rows=2)] of the three connections. *)
Lemma plot_outcome_witness :
  ∃ new,
    panels_drawn shown (axes_from 0 2 2) [0; 1; 2]%Z [0] [0] automatic new 3
    ∧ PlotCFC.plot 4 shown PyNone PyNone PyNone (PyInt 2) (PyInt 1)
        (PyInt 5) (PyInt 1) PyNone true blank
      = (mkCanvas exact_arith 2
           ([] ++ subplots_calls 0 2 2 1 ++ new), Raise IndexError)
    ∧ suptitles new = (λ fig, (fig, "PPC")) <$> take 1 (figures_from 0 2).
Proof.
  refine (plot_outcome 4 shown PyNone PyNone PyNone (PyInt 2) (PyInt 1)
            (PyInt 5) (PyInt 1) PyNone true _ 2 1 blank shown_well_formed
            (shown_sorted 2 1 _ _) eq_refl eq_refl _ _); try lia.
  - apply Forall_replicate. exists PyNone, PyNone. by left.
  - simpl. lia.
Defined.

(** X13.  [plot()] with its default nodes, frequencies, grid and colour
    limits on a well-formed object whose frequency axes hold no NaN: it
    returns one figure with one axes per node of the object, has drawn one
    mesh per node and has titled every figure, for any tick intervals that
    pass the validation. *)
Theorem plot_defaults_return {A : Arith} {M : MixedOrder A} (fuel : nat)
    (self : plot_cfc) (major minor : pyval) (show : bool) (cv : canvas) :
  well_formed self →
  Forall (λ v, f_eq v v = true) (f1s self) →
  Forall (λ v, f_eq v v = true) (f2s self) →
  is_number major = true → is_number minor = true →
  num_ge minor major = false →
  n_nodes self < fuel →
  ∃ cv',
    PlotCFC.plot fuel self PyNone PyNone PyNone (PyInt 1) (PyInt 1) major
      minor PyNone show cv
    = (cv', Ok (Some (figures_from (n_figures cv) (n_nodes self),
                      axes_from (n_figures cv) (n_nodes self) 1)))
    ∧ n_figures cv' = n_figures cv + n_nodes self
    ∧ length (meshes (calls cv')) = length (meshes (calls cv)) + n_nodes self
    ∧ suptitles (calls cv')
      = suptitles (calls cv)
        ++ ((λ fig, (fig, name self))
              <$> figures_from (n_figures cv) (n_nodes self)).
Proof.
  intros Hwf H1 H2 Hmaj Hmin Hge Hfuel.
  destruct (sort_plot_inputs_defaults self 1 1 major minor H1 H2)
    as (i1 & i2 & Hsort); [lia | lia | done | done | done |].
  destruct (plot_full_run fuel self PyNone PyNone PyNone major minor PyNone
              show _ 1 1 cv Hwf Hsort)
    as (new & Hrun & (Hmeshes & _) & Hsup).
  - cbn [s_cbar_range]. apply Forall_replicate.
    exists PyNone, PyNone. by left.
  - cbn [s_nodes]. by rewrite length_fmap, length_seq.
  - cbn [s_nodes]. apply Nat.mod_1_r.
  - cbn [s_nodes] in *. rewrite length_fmap, length_seq in *.
    change (Z.to_nat (1 * 1)) with 1 in *.
    replace ((n_nodes self + 1 - 1) / 1) with (n_nodes self) in *
      by (rewrite Nat.div_1_r; lia).
    eexists. split; [exact Hrun|]. cbn [n_figures calls].
    split; [done|].
    rewrite !meshes_app, !suptitles_app, meshes_subplots, suptitles_subplots.
    rewrite Hsup, !length_app, Hmeshes. cbn [app length].
    destruct show; cbn; rewrite ?app_nil_r; split; (done || lia).
Qed.

(** [plot()] of the three connections. *)
Lemma plot_defaults_return_witness :
  ∃ cv',
    PlotCFC.plot 4 shown PyNone PyNone PyNone (PyInt 1) (PyInt 1) (PyInt 5)
      (PyInt 1) PyNone true blank
    = (cv', Ok (Some (figures_from 0 3, axes_from 0 3 1)))
    ∧ n_figures cv' = 0 + 3
    ∧ length (meshes (calls cv')) = 0 + 3
    ∧ suptitles (calls cv')
      = [] ++ ((λ fig, (fig, "PPC")) <$> figures_from 0 3).
Proof.
  destruct shown_axes as [H1 H2].
  apply (plot_defaults_return 4 shown (PyInt 5) (PyInt 1) true blank
           shown_well_formed H1 H2); try done.
  simpl. lia.
Defined.

(** X14.  The array handed to [pcolormesh],
    [self._data[node_i][np.ix_(f1_idcs, f2_idcs)].T], has one row per
    index of [f2_idcs] and one column per index of [f1_idcs]; its cell
    [[b, a]] is the entry [[f1_idcs[a], f2_idcs[b]]] of the node's array: [f1]
    runs along the x-axis and [f2] along the y-axis. *)
Theorem mesh_cells {A : Arith} (m mesh : matrix)
    (f1_idcs f2_idcs : list nat) :
  PlotCFC.ix_T m f1_idcs f2_idcs = Ok mesh →
  has_shape mesh (length f2_idcs) (length f1_idcs)
  ∧ ∀ a b i j, f1_idcs !! a = Some i → f2_idcs !! b = Some j →
      is_Some (get_item m i j) ∧ get_item mesh b a = get_item m i j.
Proof.
  unfold PlotCFC.ix_T. intros Hrows%map_result_ok. split.
  - split; [symmetry; by eapply Forall2_length|].
    apply Forall_forall. intros row Hrow.
    apply list_elem_of_lookup in Hrow as [b Hb].
    destruct (Forall2_lookup_r _ _ _ _ _ Hrows Hb) as (j & _ & Hrow).
    apply map_result_ok in Hrow. symmetry. by eapply Forall2_length.
  - intros a b i j Ha Hb.
    destruct (Forall2_lookup_l _ _ _ _ _ Hrows Hb) as (row & Hrow & Hcells).
    apply map_result_ok in Hcells.
    destruct (Forall2_lookup_l _ _ _ _ _ Hcells Ha) as (v & Hv & Hcell).
    destruct (get_item m i j) as [w|] eqn:Hw; [|done].
    injection Hcell as ->. split; [done|].
    unfold get_item. rewrite Hrow. done.
Qed.

(** A 2 x 2 array, selected with its columns exchanged. *)
Lemma mesh_cells_witness :
  has_shape (A := exact_arith) [[Xreal 2; Xreal 4]; [Xreal 1; Xreal 3]] 2 2
  ∧ ∀ a b i j, [0; 1] !! a = Some i → [1; 0] !! b = Some j →
      is_Some (get_item (A := exact_arith)
                 [[Xreal 1; Xreal 2]; [Xreal 3; Xreal 4]] i j)
      ∧ get_item (A := exact_arith)
          [[Xreal 2; Xreal 4]; [Xreal 1; Xreal 3]] b a
        = get_item (A := exact_arith)
            [[Xreal 1; Xreal 2]; [Xreal 3; Xreal 4]] i j.
Proof.
  apply (mesh_cells (A := exact_arith)
           [[Xreal 1; Xreal 2]; [Xreal 3; Xreal 4]]
           [[Xreal 2; Xreal 4]; [Xreal 1; Xreal 3]] [0; 1] [1; 0]).
  reflexivity.
Defined.

(** X15.  From the constructor to the figures: [_PlotCFC.__init__] on
    [indices = (seeds, targets)], two lists with one entry per connection,
    and one array of shape [(len(f1s), len(f2s))] per connection does not
    raise and counts one node per connection; [plot()] on the object it
    returns, with the default nodes, frequencies, grid and colour limits
    and axes that hold no NaN, returns one figure with one axes per
    connection, draws one mesh per connection and titles every figure
    with the name given to the constructor. *)
Theorem init_then_plot_returns {A : Arith} {M : MixedOrder A} (fuel : nat)
    (data : list matrix) (seeds targets : list pyval)
    (f1_axis f2_axis : list float64) (title : string)
    (major minor : pyval) (show : bool) (cv : canvas) :
  length targets = length seeds → length data = length seeds →
  Forall (λ m, has_shape m (length f1_axis) (length f2_axis)) data →
  Forall (λ v, f_eq v v = true) f1_axis →
  Forall (λ v, f_eq v v = true) f2_axis →
  is_number major = true → is_number minor = true →
  num_ge minor major = false →
  length seeds < fuel →
  ∃ self cv',
    PlotCFC.__init__ data (PyTuple [PyList seeds; PyList targets])
      f1_axis f2_axis title = Ok self
    ∧ n_nodes self = length seeds
    ∧ PlotCFC.plot fuel self PyNone PyNone PyNone (PyInt 1) (PyInt 1) major
        minor PyNone show cv
      = (cv', Ok (Some (figures_from (n_figures cv) (length seeds),
                        axes_from (n_figures cv) (length seeds) 1)))
    ∧ length (meshes (calls cv')) = length (meshes (calls cv)) + length seeds
    ∧ suptitles (calls cv')
      = suptitles (calls cv)
        ++ ((λ fig, (fig, title))
              <$> figures_from (n_figures cv) (length seeds)).
Proof.
  intros Htargets Hdata Hshapes H1 H2 Hmaj Hmin Hge Hfuel.
  set (self := mkPlotCFC A data (PyTuple [PyList seeds; PyList targets])
                 (length seeds) title f1_axis f2_axis).
  assert (Hinit : PlotCFC.__init__ data
                    (PyTuple [PyList seeds; PyList targets])
                    f1_axis f2_axis title = Ok self) by done.
  assert (Hwf : well_formed self).
  { split; [done|]. split; [done|]. by exists seeds, targets. }
  assert (Hn : n_nodes self = length seeds) by done.
  assert (Hname : name self = title) by done.
  assert (Hf1 : f1s self = f1_axis) by done.
  assert (Hf2 : f2s self = f2_axis) by done.
  clearbody self. exists self.
  rewrite <- Hn, <- Hname in *. rewrite <- Hf1 in H1. rewrite <- Hf2 in H2.
  destruct (sort_plot_inputs_defaults self 1 1 major minor H1 H2)
    as (i1 & i2 & Hsort); [lia | lia | done | done | done |].
  destruct (plot_full_run fuel self PyNone PyNone PyNone major minor PyNone
              show _ 1 1 cv Hwf Hsort)
    as (new & Hrun & (Hmeshes & _) & Hsup).
  - cbn [s_cbar_range]. apply Forall_replicate.
    exists PyNone, PyNone. by left.
  - cbn [s_nodes]. by rewrite length_fmap, length_seq.
  - cbn [s_nodes]. apply Nat.mod_1_r.
  - cbn [s_nodes] in *. rewrite length_fmap, length_seq in *.
    change (Z.to_nat (1 * 1)) with 1 in *.
    replace ((n_nodes self + 1 - 1) / 1) with (n_nodes self) in *
      by (rewrite Nat.div_1_r; lia).
    eexists. split; [exact Hinit|]. split; [done|].
    split; [exact Hrun|]. cbn [n_figures calls].
    rewrite !meshes_app, !suptitles_app, meshes_subplots, suptitles_subplots.
    rewrite Hsup, !length_app, Hmeshes. cbn [app length].
    destruct show; cbn; rewrite ?app_nil_r; split; (done || lia).
Qed.

(** Three connections of two channels at [f1 = 5] Hz and [f2 = 10] Hz,
    built and plotted on a canvas without figures. *)
Lemma init_then_plot_returns_witness :
  ∃ self cv',
    PlotCFC.__init__ (A := exact_arith) [[[Xreal 1]]; [[Xreal 0]]; [[Xnan]]]
      (PyTuple [PyList [PyInt 0; PyInt 0; PyInt 1];
                PyList [PyInt 0; PyInt 1; PyInt 1]])
      [Xreal 5] [Xreal 10] "PPC" = Ok self
    ∧ n_nodes self = 3
    ∧ PlotCFC.plot 4 self PyNone PyNone PyNone (PyInt 1) (PyInt 1)
        (PyInt 5) (PyInt 1) PyNone true blank
      = (cv', Ok (Some (figures_from 0 3, axes_from 0 3 1)))
    ∧ length (meshes (calls cv')) = 0 + 3
    ∧ suptitles (calls cv')
      = [] ++ ((λ fig, (fig, "PPC")) <$> figures_from 0 3).
Proof.
  apply (init_then_plot_returns (A := exact_arith) 4
           [[[Xreal 1]]; [[Xreal 0]]; [[Xnan]]]
           [PyInt 0; PyInt 0; PyInt 1] [PyInt 0; PyInt 1; PyInt 1]
           [Xreal 5] [Xreal 10] "PPC" (PyInt 5) (PyInt 1) true blank);
    try done.
  - repeat constructor.
  - repeat constructor. by apply Reqb_true_iff.
  - repeat constructor. by apply Reqb_true_iff.
  - simpl. lia.
Defined.
